(** * URL shortener: storage service, validation and shortening service

    A shallow embedding of the TypeScript sources
    - [utils/validation]  (isValidUrl ... sanitizeShortcode),
    - [services/storage]  (class StorageService),
    - [services/urlService] (class UrlService),
    together with the part of the ECMAScript runtime they rely on
    (Date time values and their ISO-8601 text, string trimming). *)

From Stdlib Require Import ZArith Lia String Ascii List Bool Sorted.
From stdpp Require Import base option list gmap sets strings.
From Equations Require Import Equations.

Local Open Scope Z_scope.

(** ** Strings

    A JavaScript string is modelled by a Rocq [string]: a finite sequence of
    code units, here the code units below 256. *)

Module Str.

Definition code (c : ascii) : Z := Z.of_nat (nat_of_ascii c).

(** WhiteSpace and LineTerminator code units removed by
    [String.prototype.trim]: TAB, LF, VT, FF, CR, SP and NBSP. *)
Definition is_space (c : ascii) : bool :=
  let n := code c in
  ((9 <=? n) && (n <=? 13)) || (n =? 32) || (n =? 160).

(** The character class [[a-zA-Z0-9]]. *)
Definition is_alnum (c : ascii) : bool :=
  let n := code c in
  ((97 <=? n) && (n <=? 122)) || ((65 <=? n) && (n <=? 90))
  || ((48 <=? n) && (n <=? 57)).

Fixpoint to_list (s : string) : list ascii :=
  match s with
  | EmptyString => []
  | String c s' => c :: to_list s'
  end.

Fixpoint of_list (l : list ascii) : string :=
  match l with
  | [] => EmptyString
  | c :: l' => String c (of_list l')
  end.

Fixpoint trimStart (s : string) : string :=
  match s with
  | String c s' => if is_space c then trimStart s' else s
  | EmptyString => EmptyString
  end.

(** [trimEnd] keeps a character when it is not white space or when
    something is left after it. *)
Fixpoint trimEnd (s : string) : string :=
  match s with
  | EmptyString => EmptyString
  | String c s' =>
      match trimEnd s' with
      | EmptyString => if is_space c then EmptyString else String c EmptyString
      | r => String c r
      end
  end.

(** [s.trim()] *)
Definition trim (s : string) : string := trimEnd (trimStart s).

Fixpoint forall_chars (p : ascii -> bool) (s : string) : bool :=
  match s with
  | EmptyString => true
  | String c s' => p c && forall_chars p s'
  end.

Fixpoint filter_chars (p : ascii -> bool) (s : string) : string :=
  match s with
  | EmptyString => EmptyString
  | String c s' => if p c then String c (filter_chars p s') else filter_chars p s'
  end.

(** [parts.join(sep)] *)
Fixpoint join (sep : string) (parts : list string) : string :=
  match parts with
  | [] => ""
  | [p] => p
  | p :: rest => p +:+ sep +:+ join sep rest
  end.

(** [chars.charAt(i)]: the empty string when [i] is out of range. *)
Definition charAt (chars : string) (i : nat) : string :=
  match String.get i chars with
  | Some c => String c EmptyString
  | None => ""
  end.

End Str.

(** ** Time values and [Date]

    A [Date] object holds a time value: an integral number of milliseconds
    since the epoch, of magnitude at most 8.64e15, or NaN (an invalid
    date). The names follow the abstract operations of ECMA-262 (21.4.1). *)

Module Time.

Definition msPerDay : Z := 86400000.
Definition msPerHour : Z := 3600000.
Definition msPerMinute : Z := 60000.
Definition msPerSecond : Z := 1000.
Definition maxTime : Z := 8640000000000000.

Definition Day (t : Z) : Z := t / msPerDay.
Definition TimeWithinDay (t : Z) : Z := t mod msPerDay.

Definition HourFromTime (t : Z) : Z := (t / msPerHour) mod 24.
Definition MinFromTime (t : Z) : Z := (t / msPerMinute) mod 60.
Definition SecFromTime (t : Z) : Z := (t / msPerSecond) mod 60.
Definition msFromTime (t : Z) : Z := t mod msPerSecond.

Definition InLeapYear (y : Z) : bool :=
  (y mod 4 =? 0) && (negb (y mod 100 =? 0) || (y mod 400 =? 0)).

(** Days of month [m] (1..12) of year [y]. *)
Definition DaysInMonth (y m : Z) : Z :=
  if m =? 2 then (if InLeapYear y then 29 else 28)
  else if (m =? 4) || (m =? 6) || (m =? 9) || (m =? 11) then 30
  else 31.

(** The proleptic Gregorian calendar by 400-year eras of 146097 days that
    start on 1 March: [doe] is the day of the era, [yoe] the year of the
    era, and a year runs from March ([mp = 0]) to February ([mp = 11]). *)
Definition civil_of_doe (doe : Z) : Z * Z * Z :=
  let yoe := (doe - doe / 1460 + doe / 36524 - doe / 146096) / 365 in
  let doy := doe - (365 * yoe + yoe / 4 - yoe / 100) in
  let mp := (5 * doy + 2) / 153 in
  let d := doy - (153 * mp + 2) / 5 + 1 in
  let m := if mp <? 10 then mp + 3 else mp - 9 in
  (yoe, m, d).

Definition doe_of_civil (yoe m d : Z) : Z :=
  let doy := (153 * (if 2 <? m then m - 3 else m + 9) + 2) / 5 + d - 1 in
  yoe * 365 + yoe / 4 - yoe / 100 + doy.

(** What is expected of one day of the era: a date of the calendar that
    [doe_of_civil] maps back to the day. *)
Definition doe_ok (doe : Z) : bool :=
  let '(yoe, m, d) := civil_of_doe doe in
  (0 <=? yoe) && (yoe <=? 399) && (1 <=? m) && (m <=? 12) && (1 <=? d)
  && (d <=? DaysInMonth (yoe + (if m <=? 2 then 1 else 0)) m)
  && (doe_of_civil yoe m d =? doe).

(** [p] holds of the [count] integers from [i] on. *)
Fixpoint all_from (count : nat) (i : Z) (p : Z -> bool) : bool :=
  match count with
  | O => true
  | S k => p i && all_from k (i + 1) p
  end.

(** Day number to (year, month 1..12, day of month). *)
Definition civil_from_days (z : Z) : Z * Z * Z :=
  let z := z + 719468 in
  let era := z / 146097 in
  let '(yoe, m, d) := civil_of_doe (z mod 146097) in
  (yoe + era * 400 + (if m <=? 2 then 1 else 0), m, d).

Definition days_from_civil (y m d : Z) : Z :=
  let y := if m <=? 2 then y - 1 else y in
  (y / 400) * 146097 + doe_of_civil (y mod 400) m d - 719468.

Definition YearFromTime (t : Z) : Z := (civil_from_days (Day t)).1.1.
(** Months are numbered from 0 in ECMA-262. *)
Definition MonthFromTime (t : Z) : Z := (civil_from_days (Day t)).1.2 - 1.
Definition DateFromTime (t : Z) : Z := (civil_from_days (Day t)).2.

Definition MakeTime (hour min sec ms : Z) : Z :=
  hour * msPerHour + min * msPerMinute + sec * msPerSecond + ms.

Definition MakeDay (year month date : Z) : Z :=
  let ym := year + month / 12 in
  let mn := month mod 12 in
  days_from_civil ym (mn + 1) 1 + date - 1.

Definition MakeDate (day time : Z) : Z := day * msPerDay + time.

(** [TimeClip]: NaN ([None]) outside the representable range. *)
Definition TimeClip (time : Z) : option Z :=
  if Z.abs time <=? maxTime then Some time else None.

(** *** Decimal fields *)

Definition digit (n : Z) : ascii := ascii_of_nat (48 + Z.to_nat n).

Definition digit_value (c : ascii) : option Z :=
  let n := Str.code c in
  if (48 <=? n) && (n <=? 57) then Some (n - 48) else None.

(** [n] in decimal, padded with zeros to [width] digits. *)
Fixpoint pad (width : nat) (n : Z) : string :=
  match width with
  | O => ""
  | S w => pad w (n / 10) +:+ String (digit (n mod 10)) ""
  end.

Fixpoint read_digits (width : nat) (acc : Z) (s : string) : option (Z * string) :=
  match width with
  | O => Some (acc, s)
  | S w =>
      match s with
      | String c s' => d ← digit_value c; read_digits w (acc * 10 + d) s'
      | EmptyString => None
      end
  end.

Definition expect (c : ascii) (s : string) : option string :=
  match s with
  | String c' s' => if Ascii.eqb c c' then Some s' else None
  | EmptyString => None
  end.

(** *** [Date.prototype.toISOString]

    [YYYY-MM-DDTHH:mm:ss.sssZ], the year expanded to a sign and six
    digits outside 0..9999. *)
Definition year_text (y : Z) : string :=
  if (0 <=? y) && (y <=? 9999) then pad 4 y
  else (if y <? 0 then "-" else "+") +:+ pad 6 (Z.abs y).

Definition toISOString (t : Z) : string :=
  year_text (YearFromTime t) +:+ "-" +:+ pad 2 (MonthFromTime t + 1)
    +:+ "-" +:+ pad 2 (DateFromTime t)
    +:+ "T" +:+ pad 2 (HourFromTime t) +:+ ":" +:+ pad 2 (MinFromTime t)
    +:+ ":" +:+ pad 2 (SecFromTime t) +:+ "." +:+ pad 3 (msFromTime t) +:+ "Z".

(** *** [Date.parse], on the complete UTC form of the date-time string
    format (the form [toISOString] writes). Any other text is answered
    with NaN: the abbreviated forms and the implementation-defined
    fallback formats are not modelled. *)
Definition parse_year (s : string) : option (Z * string) :=
  match s with
  | String "+" s' => read_digits 6 0 s'
  | String "-" s' =>
      '(y, r) ← read_digits 6 0 s';
      if y =? 0 then None else Some (- y, r)
  | _ => read_digits 4 0 s
  end.

Definition parse (s : string) : option Z :=
  '(y, s) ← parse_year s;
  s ← expect "-" s;
  '(mo, s) ← read_digits 2 0 s;
  s ← expect "-" s;
  '(d, s) ← read_digits 2 0 s;
  s ← expect "T" s;
  '(h, s) ← read_digits 2 0 s;
  s ← expect ":" s;
  '(mi, s) ← read_digits 2 0 s;
  s ← expect ":" s;
  '(sec, s) ← read_digits 2 0 s;
  s ← expect "." s;
  '(ms, s) ← read_digits 3 0 s;
  s ← expect "Z" s;
  match s with
  | EmptyString =>
      if (1 <=? mo) && (mo <=? 12) && (1 <=? d) && (d <=? DaysInMonth y mo)
         && ((h <=? 23) || ((h =? 24) && (mi =? 0) && (sec =? 0) && (ms =? 0)))
         && (mi <=? 59) && (sec <=? 59)
      then TimeClip (MakeDate (MakeDay y (mo - 1) d) (MakeTime h mi sec ms))
      else None
  | _ => None
  end.

End Time.


(** ** Data model ([types/index.ts])

    Number fields ([validityMinutes], indices) hold integers. A [Date] is
    its time value, [None] standing for an invalid date (NaN). *)

Abbreviation Date := (option Z).

(** [new Date(value)] for a number. *)
Definition Date_of_number (value : Z) : Date := Time.TimeClip value.

(** [a > b] and [a <= b] on dates compare the time values; a comparison
    with NaN is false. *)
Definition Date_gt (a b : Date) : bool :=
  match a, b with
  | Some x, Some y => y <? x
  | _, _ => false
  end.

Definition Date_le (a b : Date) : bool :=
  match a, b with
  | Some x, Some y => x <=? y
  | _, _ => false
  end.

(** A date field inside the stored JSON document: a string, or [null]. *)
Inductive JsonDate : Type :=
  | JsonText (s : string)
  | JsonNull.

(** [Date.prototype.toJSON]: the ISO text, [null] for an invalid date. *)
Definition Date_toJSON (d : Date) : JsonDate :=
  match d with
  | Some t => JsonText (Time.toISOString t)
  | None => JsonNull
  end.

(** [new Date(value)] for a value read from the document: a string is
    parsed, [null] converts to the number 0. *)
Definition new_Date (value : JsonDate) : Date :=
  match value with
  | JsonText s => Time.parse s
  | JsonNull => Some 0
  end.

(** A date is well formed when it holds a time value of the range. *)
Definition valid_time (d : Date) : bool :=
  match d with
  | Some t => Z.abs t <=? Time.maxTime
  | None => false
  end.

Record GeoLocation : Type := mkGeoLocation {
  country : option string;
  city : option string
}.

(** [ClickEvent] and [ShortUrl] over the representation [D] of their date
    fields: [Date] in memory, [JsonDate] in the stored document. *)
Record ClickEvent_ (D : Type) : Type := mkClickEvent {
  click_id : string;
  timestamp : D;
  referrer : string;
  userAgent : string;
  ipAddress : option string;
  geoLocation : option GeoLocation
}.
Arguments mkClickEvent {D}.
Arguments click_id {D}.
Arguments timestamp {D}.
Arguments referrer {D}.
Arguments userAgent {D}.
Arguments ipAddress {D}.
Arguments geoLocation {D}.

Record ShortUrl_ (D : Type) : Type := mkShortUrl {
  url_id : string;
  originalUrl : string;
  shortcode : string;
  createdAt : D;
  expiresAt : D;
  validityMinutes : Z;
  clicks : list (ClickEvent_ D);
  isCustomShortcode : bool
}.
Arguments mkShortUrl {D}.
Arguments url_id {D}.
Arguments originalUrl {D}.
Arguments shortcode {D}.
Arguments createdAt {D}.
Arguments expiresAt {D}.
Arguments validityMinutes {D}.
Arguments clicks {D}.
Arguments isCustomShortcode {D}.

Abbreviation ClickEvent := (ClickEvent_ Date).
Abbreviation ShortUrl := (ShortUrl_ Date).

Definition well_formed_click (click : ClickEvent) : bool :=
  valid_time (timestamp click).

Definition well_formed_url (url : ShortUrl) : bool :=
  valid_time (createdAt url) && valid_time (expiresAt url)
  && forallb well_formed_click (clicks url).

(** The number of click events in a collection. *)
Definition click_total (urls : list ShortUrl) : nat :=
  sum_list (map (fun url => length (clicks url)) urls).

(** [a] was created no earlier than [b]. *)
Definition not_older (a b : ShortUrl) : Prop :=
  exists ta tb, createdAt a = Some ta /\ createdAt b = Some tb /\ tb <= ta.

(** A record is active at [now] iff [now < expiresAt]. *)
Definition active_at (now : Z) (url : ShortUrl) : bool :=
  match expiresAt url with
  | Some t => now <? t
  | None => false
  end.

(** The expiry of a record has passed at [now] iff [expiresAt < now]. *)
Definition expiry_passed (now : Z) (url : ShortUrl) : bool :=
  match expiresAt url with
  | Some t => t <? now
  | None => false
  end.

Record CreateUrlRequest : Type := mkRequest {
  req_originalUrl : string;
  req_validityMinutes : option Z;
  req_customShortcode : option string
}.

Inductive LogLevel : Type := info | warn | error | debug.

(** What a call of the logger puts on its queue (the metadata is left out). *)
Record LogEntry : Type := mkLog {
  level : LogLevel;
  package : string;
  message : string
}.

Record ValidationError : Type := mkValidationError {
  field : string;
  ve_message : string
}.

(** An entry of [CreateUrlsResponse.errors]. *)
Record ErrorEntry : Type := mkErrorEntry {
  index : Z;
  error_message : string
}.

Record CreateUrlsResponse : Type := mkResponse {
  success : list ShortUrl;
  errors : list ErrorEntry
}.

Global Instance GeoLocation_eq_dec : EqDecision GeoLocation.
Proof. solve_decision. Defined.
Global Instance JsonDate_eq_dec : EqDecision JsonDate.
Proof. solve_decision. Defined.
Global Instance ClickEvent_eq_dec `{EqDecision D} : EqDecision (ClickEvent_ D).
Proof. solve_decision. Defined.
Global Instance ShortUrl_eq_dec `{EqDecision D} : EqDecision (ShortUrl_ D).
Proof. solve_decision. Defined.

(** ** Array helpers *)

(** [l.findIndex(p)]: the first index whose element satisfies [p], or -1. *)
Fixpoint findIndex_from {A} (p : A -> bool) (l : list A) (i : Z) : Z :=
  match l with
  | [] => -1
  | x :: l' => if p x then i else findIndex_from p l' (i + 1)
  end.

Definition findIndex {A} (p : A -> bool) (l : list A) : Z := findIndex_from p l 0.

(** [l.slice(start, end)] for integers: a negative index counts from the
    end, and both are clamped to the array. *)
Definition slice {A} (l : list A) (start final : Z) : list A :=
  let len := Z.of_nat (length l) in
  let k := if start <? 0 then Z.max (len + start) 0 else Z.min start len in
  let final := if final <? 0 then Z.max (len + final) 0 else Z.min final len in
  take (Z.to_nat (final - k)) (drop (Z.to_nat k) l).

(** [l.sort(comparefn)]. The sort of ECMAScript is stable, and for a
    consistent comparator its result is determined: the elements in
    ascending order of the comparator, equal ones in their order in [l].
    That is the list built here by insertion from the right. [comparefn]
    answers a number, [None] for NaN, which the sort reads as +0. (For an
    inconsistent comparator the order is left to the implementation.) *)
Section Sort.
Context {A : Type} (comparefn : A -> A -> option Z).

Definition SortCompare (x y : A) : Z :=
  match comparefn x y with
  | Some v => v
  | None => 0
  end.

Fixpoint sort_insert (x : A) (l : list A) : list A :=
  match l with
  | [] => [x]
  | y :: l' => if SortCompare x y <=? 0 then x :: l else y :: sort_insert x l'
  end.

Definition sort (l : list A) : list A := foldr sort_insert [] l.

End Sort.

(** ** The platform and the state of the world

    What the browser decides: the WHATWG URL parser, the clock, the random
    source, the UUID generator, the geolocation endpoint and the page. *)

Inductive GeoFetch : Type :=
  | FetchFails (reason : string)          (* [fetch] rejects *)
  | FetchNotOk                            (* [response.ok] is false *)
  | FetchOk (country_name city : option string).

Record Platform : Type := mkPlatform {
  (** [new URL(url).protocol], [None] when the constructor throws *)
  URL_protocol : string -> option string;
  (** the time value of the k-th [new Date()] of the services (what the
      logger reads for its own entries is not counted) *)
  clock : nat -> Z;
  (** the k-th [Math.floor(Math.random() * chars.length)] *)
  random_index : nat -> nat;
  (** the k-th [uuidv4()] *)
  uuid : nat -> string;
  (** the outcome of the k-th [fetch('https://ipapi.co/json/')] *)
  geo : nat -> GeoFetch;
  document_referrer : string;
  navigator_userAgent : string
}.

(** The item of [localStorage] under [URLS_KEY]. A stored text that parses
    to an array of URL records is held as that document; [Garbled] is any
    other non-empty text, on which [JSON.parse] or the revival throws. *)
Inductive Item : Type :=
  | Missing
  | Garbled
  | Document (doc : list (ShortUrl_ JsonDate)).

Record World : Type := mkWorld {
  urls_item : Item;
  (** whether [localStorage.setItem] succeeds (it throws on a full or
      disabled store) *)
  writable : bool;
  dates_taken : nat;
  randoms_taken : nat;
  uuids_taken : nat;
  fetches_made : nat;
  log : list LogEntry
}.

(** ** Computations: state passing with exceptions *)

Inductive Result (A : Type) : Type :=
  | Ok (a : A)
  | Throw (msg : string).
Arguments Ok {A} a.
Arguments Throw {A} msg.

Definition M (A : Type) : Type := World -> Result A * World.

Definition ret {A} (a : A) : M A := fun w => (Ok a, w).

Definition throw {A} (msg : string) : M A := fun w => (Throw msg, w).

Definition bind {A B} (m : M A) (k : A -> M B) : M B :=
  fun w =>
    match m w with
    | (Ok a, w') => k a w'
    | (Throw msg, w') => (Throw msg, w')
    end.

(** [try { m } catch (error) { handler(error.message) }] *)
Definition try_catch {A} (m : M A) (handler : string -> M A) : M A :=
  fun w =>
    match m w with
    | (Ok a, w') => (Ok a, w')
    | (Throw msg, w') => handler msg w'
    end.

Notation "'let!' x := m 'in' k" := (bind m (fun x => k))
  (at level 10, x pattern, m at level 100, k at level 200).

Notation "m ;;; k" := (bind m (fun _ => k))
  (at level 100, k at level 200, right associativity).

Section Primitives.
Variable P : Platform.

(** [logger.Log]: the entry is queued; delivery is not awaited. *)
Definition logger_Log (lvl : LogLevel) (packageName msg : string) : M unit :=
  fun w =>
    (Ok tt,
     {| urls_item := urls_item w; writable := writable w;
        dates_taken := dates_taken w; randoms_taken := randoms_taken w;
        uuids_taken := uuids_taken w; fetches_made := fetches_made w;
        log := log w ++ [mkLog lvl packageName msg] |}).

Definition logger_info := logger_Log info.
Definition logger_warn := logger_Log warn.
Definition logger_error := logger_Log error.
Definition logger_logUrlEvent (event : string) : M unit :=
  logger_info "url-shortener" event.
Definition logger_logAnalyticsEvent (event : string) : M unit :=
  logger_info "analytics" event.

(** [new Date()] *)
Definition Date_now : M Date :=
  fun w =>
    (Ok (Some (clock P (dates_taken w))),
     {| urls_item := urls_item w; writable := writable w;
        dates_taken := S (dates_taken w); randoms_taken := randoms_taken w;
        uuids_taken := uuids_taken w; fetches_made := fetches_made w;
        log := log w |}).

(** [Math.floor(Math.random() * chars.length)] *)
Definition Math_random_index : M nat :=
  fun w =>
    (Ok (random_index P (randoms_taken w)),
     {| urls_item := urls_item w; writable := writable w;
        dates_taken := dates_taken w; randoms_taken := S (randoms_taken w);
        uuids_taken := uuids_taken w; fetches_made := fetches_made w;
        log := log w |}).

Definition uuidv4 : M string :=
  fun w =>
    (Ok (uuid P (uuids_taken w)),
     {| urls_item := urls_item w; writable := writable w;
        dates_taken := dates_taken w; randoms_taken := randoms_taken w;
        uuids_taken := S (uuids_taken w); fetches_made := fetches_made w;
        log := log w |}).

(** [await fetch('https://ipapi.co/json/')] with [response.json()] *)
Definition fetch_ipapi : M GeoFetch :=
  fun w =>
    (Ok (geo P (fetches_made w)),
     {| urls_item := urls_item w; writable := writable w;
        dates_taken := dates_taken w; randoms_taken := randoms_taken w;
        uuids_taken := uuids_taken w; fetches_made := S (fetches_made w);
        log := log w |}).

(** [localStorage.getItem(URLS_KEY)] *)
Definition localStorage_getItem : M Item := fun w => (Ok (urls_item w), w).

(** [localStorage.setItem(URLS_KEY, serialized)] *)
Definition localStorage_setItem (doc : list (ShortUrl_ JsonDate)) : M unit :=
  fun w =>
    if writable w
    then (Ok tt,
          {| urls_item := Document doc; writable := writable w;
             dates_taken := dates_taken w; randoms_taken := randoms_taken w;
             uuids_taken := uuids_taken w; fetches_made := fetches_made w;
             log := log w |})
    else (Throw "QuotaExceededError", w).

(** [localStorage.removeItem(URLS_KEY)] *)
Definition localStorage_removeItem : M unit :=
  fun w =>
    (Ok tt,
     {| urls_item := Missing; writable := writable w;
        dates_taken := dates_taken w; randoms_taken := randoms_taken w;
        uuids_taken := uuids_taken w; fetches_made := fetches_made w;
        log := log w |}).

End Primitives.

(** [w] after the entries [l] have been logged. *)
Definition logged (l : list LogEntry) (w : World) : World :=
  {| urls_item := urls_item w; writable := writable w;
     dates_taken := dates_taken w; randoms_taken := randoms_taken w;
     uuids_taken := uuids_taken w; fetches_made := fetches_made w;
     log := log w ++ l |}.

(** [w] after [d] readings of the clock, [r] random draws, [u] identifiers
    and [f] fetches. *)
Definition advanced (d r u f : nat) (w : World) : World :=
  {| urls_item := urls_item w; writable := writable w;
     dates_taken := d + dates_taken w; randoms_taken := r + randoms_taken w;
     uuids_taken := u + uuids_taken w; fetches_made := f + fetches_made w;
     log := log w |}.

(** The store: the item and whether it can be written. *)
Definition store_of (w : World) : Item * bool := (urls_item w, writable w).

(** A JavaScript string in a condition: the empty string is falsy. *)
Definition truthy (s : string) : bool := negb (String.eqb s "").

(** ** [utils/validation] *)

Module validation.
Section validation.
Variable P : Platform.

(** [isValidUrl]: [new URL(url)] succeeds with protocol http: or https: *)
Definition isValidUrl (url : string) : bool :=
  match URL_protocol P url with
  | Some protocol => String.eqb protocol "http:" || String.eqb protocol "https:"
  | None => false
  end.

(** [isValidShortcode]: the test of [/^[a-zA-Z0-9]{3,20}$/] *)
Definition isValidShortcode (shortcode : string) : bool :=
  Str.forall_chars Str.is_alnum shortcode
  && (3 <=? String.length shortcode)%nat && (String.length shortcode <=? 20)%nat.

(** [isValidValidityMinutes]: [Number.isInteger] holds of every integer *)
Definition isValidValidityMinutes (minutes : Z) : bool :=
  (0 <? minutes) && (minutes <=? 10080).

Definition chars : string :=
  "abcdefghijklmnopqrstuvwxyzABCDEFGHIJKLMNOPQRSTUVWXYZ0123456789".

(** The loop [for (let i = 0; i < length; i++) result += chars.charAt(...)],
    [count] iterations from [result] on. *)
Fixpoint generateShortcode_loop (count : nat) (result : string) : M string :=
  match count with
  | O => ret result
  | S count' =>
      let! i := Math_random_index P in
      generateShortcode_loop count' (result +:+ Str.charAt chars i)
  end.

Definition generateShortcode (length : nat) : M string :=
  generateShortcode_loop length "".

(** The text the loop builds from the random indices [n], [n + 1], ... *)
Fixpoint drawn_loop (count : nat) (result : string) (n : nat) : string :=
  match count with
  | O => result
  | S count' =>
      drawn_loop count' (result +:+ Str.charAt chars (random_index P n)) (S n)
  end.

(** The shortcode of [length] characters drawn from index [n] on. *)
Definition drawn (length n : nat) : string := drawn_loop length "" n.

(** The errors [validateUrlRequest] collects, check by check. *)
Definition originalUrl_errors (request : CreateUrlRequest) : list ValidationError :=
  if negb (truthy (req_originalUrl request))
     || String.eqb (Str.trim (req_originalUrl request)) ""
  then [mkValidationError "originalUrl" "URL is required"]
  else if negb (isValidUrl (Str.trim (req_originalUrl request)))
  then [mkValidationError "originalUrl"
          "Invalid URL format. Must start with http:// or https://"]
  else [].

Definition validityMinutes_errors (request : CreateUrlRequest) : list ValidationError :=
  match req_validityMinutes request with
  | Some minutes =>
      if negb (isValidValidityMinutes minutes)
      then [mkValidationError "validityMinutes"
              "Validity must be a positive integer between 1 and 10080 minutes (1 week)"]
      else []
  | None => []
  end.

Definition customShortcode_errors (request : CreateUrlRequest) : list ValidationError :=
  match req_customShortcode request with
  | Some customShortcode =>
      if negb (String.eqb (Str.trim customShortcode) "")
      then if negb (isValidShortcode (Str.trim customShortcode))
           then [mkValidationError "customShortcode"
                   "Shortcode must be 3-20 characters long and contain only letters and numbers"]
           else []
      else []
  | None => []
  end.

Definition request_errors (request : CreateUrlRequest) : list ValidationError :=
  originalUrl_errors request ++ validityMinutes_errors request
    ++ customShortcode_errors request.

Definition validateUrlRequest (request : CreateUrlRequest) : M (list ValidationError) :=
  let errors := request_errors request in
  (if (0 <? length errors)%nat
   then logger_warn "validation" "URL request validation failed"
   else ret tt) ;;;
  ret errors.

(** An element of the [errors] array of [validateUrlRequests]. *)
Record IndexedErrors : Type := mkIndexedErrors {
  index : nat;
  errors : list ValidationError
}.

(** The variables of [validateUrlRequests] that its [forEach] updates. *)
Record Collected : Type := mkCollected {
  valid : list CreateUrlRequest;
  invalid : list IndexedErrors;
  usedShortcodes : gset string
}.

Definition duplicate_error : ValidationError :=
  mkValidationError "customShortcode" "Duplicate shortcode in request".

(** The body of the [forEach] callback after [validateUrlRequest] has
    returned [requestErrors]. *)
Definition forEach_body (request : CreateUrlRequest) (index : nat)
    (requestErrors : list ValidationError) (st : Collected) : Collected :=
  let '(requestErrors, used) :=
    match req_customShortcode request with
    | Some customShortcode =>
        if truthy customShortcode && negb (String.eqb (Str.trim customShortcode) "")
        then
          let shortcode := Str.trim customShortcode in
          if bool_decide (shortcode ∈ usedShortcodes st)
          then (requestErrors ++ [duplicate_error], usedShortcodes st)
          else (requestErrors, {[shortcode]} ∪ usedShortcodes st)
        else (requestErrors, usedShortcodes st)
    | None => (requestErrors, usedShortcodes st)
    end in
  if (length requestErrors =? 0)%nat
  then mkCollected (valid st ++ [request]) (invalid st) used
  else mkCollected (valid st) (invalid st ++ [mkIndexedErrors index requestErrors]) used.

(** [requests.forEach((request, index) => ...)], from [index] on. *)
Fixpoint forEach (requests : list CreateUrlRequest) (index : nat) (st : Collected)
    : M Collected :=
  match requests with
  | [] => ret st
  | request :: rest =>
      let! requestErrors := validateUrlRequest request in
      forEach rest (S index) (forEach_body request index requestErrors st)
  end.

(** The state [forEach] ends in. *)
Fixpoint collect (requests : list CreateUrlRequest) (index : nat) (st : Collected)
    : Collected :=
  match requests with
  | [] => st
  | request :: rest =>
      collect rest (S index) (forEach_body request index (request_errors request) st)
  end.

(** The custom shortcode of a request as the batch check compares it:
    trimmed, and absent when empty. *)
Definition custom_code (request : CreateUrlRequest) : option string :=
  match req_customShortcode request with
  | Some customShortcode =>
      if truthy customShortcode && negb (String.eqb (Str.trim customShortcode) "")
      then Some (Str.trim customShortcode)
      else None
  | None => None
  end.

Definition validateUrlRequests (requests : list CreateUrlRequest)
    : M (list CreateUrlRequest * list IndexedErrors) :=
  if (length requests =? 0)%nat then
    logger_warn "validation" "No URLs provided for validation" ;;;
    ret ([], [mkIndexedErrors 0
                [mkValidationError "general" "At least one URL is required"]])
  else if (5 <? length requests)%nat then
    logger_warn "validation" "Too many URLs provided" ;;;
    ret ([], [mkIndexedErrors 0
                [mkValidationError "general" "Maximum 5 URLs allowed per request"]])
  else
    let! st := forEach requests 0 (mkCollected [] [] ∅) in
    logger_info "validation" "Bulk validation completed" ;;;
    ret (valid st, invalid st).

(** What [validateUrlRequests] answers. *)
Definition validated (requests : list CreateUrlRequest)
    : list CreateUrlRequest * list IndexedErrors :=
  if (length requests =? 0)%nat then
    ([], [mkIndexedErrors 0
            [mkValidationError "general" "At least one URL is required"]])
  else if (5 <? length requests)%nat then
    ([], [mkIndexedErrors 0
            [mkValidationError "general" "Maximum 5 URLs allowed per request"]])
  else
    let st := collect requests 0 (mkCollected [] [] ∅) in
    (valid st, invalid st).

Definition sanitizeUrl (url : string) : string := Str.trim url.

(** [shortcode.trim().replace(/[^a-zA-Z0-9]/g, '')] *)
Definition sanitizeShortcode (shortcode : string) : string :=
  Str.filter_chars Str.is_alnum (Str.trim shortcode).

End validation.
End validation.

(** ** [services/storage]: class [StorageService] *)

Module StorageService.
Section StorageService.
Variable P : Platform.

(** The replacer passed to [JSON.stringify]. [Date.prototype.toJSON] is
    applied to a property before the replacer is called, so at the keys
    [createdAt], [expiresAt] and [timestamp] the replacer is handed the
    ISO text (or [null]), never a [Date]: [value instanceof Date] is
    false and the value is returned as it is. *)
Definition replacer (key : string) (value : JsonDate) : JsonDate :=
  if String.eqb key "createdAt" || String.eqb key "expiresAt"
     || String.eqb key "timestamp"
  then value
  else value.

(** [JSON.stringify(urls, replacer)], as the document that the text
    denotes. *)
Definition JSON_stringify (urls : list ShortUrl) : list (ShortUrl_ JsonDate) :=
  map (fun url =>
         mkShortUrl (url_id url) (originalUrl url) (shortcode url)
           (replacer "createdAt" (Date_toJSON (createdAt url)))
           (replacer "expiresAt" (Date_toJSON (expiresAt url)))
           (validityMinutes url)
           (map (fun click =>
                   mkClickEvent (click_id click)
                     (replacer "timestamp" (Date_toJSON (timestamp click)))
                     (referrer click) (userAgent click) (ipAddress click)
                     (geoLocation click))
                (clicks url))
           (isCustomShortcode url))
      urls.

Definition saveUrls (urls : list ShortUrl) : M unit :=
  try_catch
    (let serialized := JSON_stringify urls in
     localStorage_setItem serialized ;;;
     logger_info "storage" "URLs saved to localStorage")
    (fun _ =>
       logger_error "storage" "Failed to save URLs to localStorage" ;;;
       throw "Failed to save data to storage").

(** [parsed.map((url) => ({...url, createdAt: new Date(url.createdAt), ...}))] *)
Definition revive (parsed : list (ShortUrl_ JsonDate)) : list ShortUrl :=
  map (fun url =>
         mkShortUrl (url_id url) (originalUrl url) (shortcode url)
           (new_Date (createdAt url))
           (new_Date (expiresAt url))
           (validityMinutes url)
           (map (fun click =>
                   mkClickEvent (click_id click)
                     (new_Date (timestamp click))
                     (referrer click) (userAgent click) (ipAddress click)
                     (geoLocation click))
                (clicks url))
           (isCustomShortcode url))
      parsed.

Definition loadUrls : M (list ShortUrl) :=
  try_catch
    (let! stored := localStorage_getItem in
     match stored with
     | Missing => ret []
     | Garbled => throw "SyntaxError"
     | Document parsed =>
         let urls := revive parsed in
         logger_info "storage" "URLs loaded from localStorage" ;;;
         ret urls
     end)
    (fun _ =>
       logger_error "storage" "Failed to load URLs from localStorage" ;;;
       ret []).

(** The collection that [loadUrls] answers in the world [w]. *)
Definition stored_urls (w : World) : list ShortUrl :=
  match urls_item w with
  | Document parsed => revive parsed
  | Missing | Garbled => []
  end.

(** [w] once [urls] have been written to the item. *)
Definition saved (urls : list ShortUrl) (w : World) : World :=
  {| urls_item := Document (JSON_stringify urls); writable := writable w;
     dates_taken := dates_taken w; randoms_taken := randoms_taken w;
     uuids_taken := uuids_taken w; fetches_made := fetches_made w;
     log := log w |}.

(** What [findByShortcode] answers in [w]: the first record with the
    code, unless the clock has passed its expiry. *)
Definition lookup (code : string) (w : World) : option ShortUrl :=
  match List.find (fun url => String.eqb (shortcode url) code) (stored_urls w) with
  | Some url =>
      if Date_gt (Some (clock P (dates_taken w))) (expiresAt url) then None else Some url
  | None => None
  end.

(** What [isShortcodeInUse] answers in [w]. *)
Definition in_use (code : string) (w : World) : bool :=
  existsb (fun url => String.eqb (shortcode url) code) (stored_urls w).

Definition addUrl (url : ShortUrl) : M unit :=
  let! urls := loadUrls in
  saveUrls (urls ++ [url]) ;;;
  logger_logUrlEvent "URL created".

Definition addUrls (newUrls : list ShortUrl) : M unit :=
  let! existingUrls := loadUrls in
  let allUrls := existingUrls ++ newUrls in
  saveUrls allUrls ;;;
  logger_logUrlEvent "Multiple URLs created".

Definition findByShortcode (code : string) : M (option ShortUrl) :=
  let! urls := loadUrls in
  let found := List.find (fun url => String.eqb (shortcode url) code) urls in
  match found with
  | Some url =>
      let! now := Date_now P in
      if Date_gt now (expiresAt url)
      then logger_warn "storage" "Attempted to access expired URL" ;;; ret None
      else ret found
  | None => ret None
  end.

(** [urls[i].clicks.push(clickEvent)] *)
Definition push_click (clickEvent : ClickEvent) (url : ShortUrl) : ShortUrl :=
  mkShortUrl (url_id url) (originalUrl url) (shortcode url) (createdAt url)
    (expiresAt url) (validityMinutes url) (clicks url ++ [clickEvent])
    (isCustomShortcode url).

Definition recordClick (code : string) (clickEvent : ClickEvent) : M unit :=
  let! urls := loadUrls in
  let urlIndex := findIndex (fun url => String.eqb (shortcode url) code) urls in
  if urlIndex =? -1 then
    logger_warn "storage" "Attempted to record click for non-existent URL" ;;;
    ret tt
  else
    let urls := alter (push_click clickEvent) (Z.to_nat urlIndex) urls in
    saveUrls urls ;;;
    logger_logAnalyticsEvent "URL clicked".

Definition isShortcodeInUse (code : string) : M bool :=
  let! urls := loadUrls in
  ret (existsb (fun url => String.eqb (shortcode url) code) urls).

Record Analytics : Type := mkAnalytics {
  totalUrls : nat;
  totalClicks : nat;
  activeUrls : nat;
  expiredUrls : nat
}.

Definition getAnalytics : M Analytics :=
  let! urls := loadUrls in
  let! now := Date_now P in
  let analytics :=
    mkAnalytics
      (length urls)
      (fold_left (fun sum url => (sum + length (clicks url))%nat) urls 0%nat)
      (length (List.filter (fun url => Date_gt (expiresAt url) now) urls))
      (length (List.filter (fun url => Date_le (expiresAt url) now) urls)) in
  logger_info "analytics" "Analytics data retrieved" ;;;
  ret analytics.

(** [clearAll]: the item of the URLs is removed (and the one under
    [CLICKS_KEY], which nothing else reads or writes). *)
Definition clearAll : M unit :=
  localStorage_removeItem ;;;
  logger_warn "storage" "All stored data cleared".

(** [b.createdAt.getTime() - a.createdAt.getTime()]; [getTime] is NaN on
    an invalid date. *)
Definition newest_first (a b : ShortUrl) : option Z :=
  match createdAt b, createdAt a with
  | Some tb, Some ta => Some (tb - ta)
  | _, _ => None
  end.

Record Page : Type := mkPage {
  urls : list ShortUrl;
  total : nat;
  hasMore : bool
}.

(** [getUrlsPaginated(page = 0, limit = 10)], for integral arguments. *)
Definition getUrlsPaginated (page limit : Z) : M Page :=
  let! loaded := loadUrls in
  let allUrls := sort newest_first loaded in
  let start := page * limit in
  let final := start + limit in
  ret (mkPage (slice allUrls start final) (length allUrls)
         (final <? Z.of_nat (length allUrls))).

End StorageService.
End StorageService.

(** ** [services/urlService]: class [UrlService] *)

Module UrlService.
Section UrlService.
Variable P : Platform.

Definition dquote : string := String (ascii_of_nat 34) "".

Definition generation_failed : string :=
  "Unable to generate unique shortcode after multiple attempts".

Equations? generateUniqueShortcode (attempts : nat) : M string
    by wf (11 - attempts)%nat lt :=
  generateUniqueShortcode attempts with decide (10 < attempts)%nat := {
    | left _ => throw generation_failed
    | right _ =>
        let! shortcode := validation.generateShortcode P 6 in
        let! inUse := StorageService.isShortcodeInUse shortcode in
        if inUse then generateUniqueShortcode (attempts + 1) else ret shortcode }.
Proof. lia. Qed.

(** The [k]-th shortcode that [generateUniqueShortcode] draws when it is
    called in [w] ([k] from 0). *)
Definition candidate (w : World) (k : nat) : string :=
  validation.drawn P 6 (randoms_taken w + 6 * k).

(** The validity that [createSingleUrl] gives a record:
    [request.validityMinutes || 30]. *)
Definition validity_of (request : CreateUrlRequest) : Z :=
  match req_validityMinutes request with
  | Some minutes => if minutes =? 0 then 30 else minutes
  | None => 30
  end.

(** The record that [createSingleUrl] builds in [w] once the shortcode is
    chosen: the clock and the identifier are read there. *)
Definition new_url (request : CreateUrlRequest) (shortcode : string)
    (isCustomShortcode : bool) (w : World) : ShortUrl :=
  let now := clock P (dates_taken w) in
  mkShortUrl (uuid P (uuids_taken w))
    (validation.sanitizeUrl (req_originalUrl request)) shortcode (Some now)
    (Date_of_number (now + validity_of request * 60 * 1000))
    (validity_of request) [] isCustomShortcode.

(** The message thrown for a custom shortcode that is taken. *)
Definition already_in_use (shortcode : string) : string :=
  "Shortcode " +:+ dquote +:+ shortcode +:+ dquote +:+ " is already in use".

(** What holds of a record created for [request] over the store of [w]:
    the fields taken from the request, no click yet, an expiry
    [validityMinutes] minutes after the creation, and a shortcode that no
    stored record has, the sanitized custom shortcode or six characters
    drawn. *)
Definition created_for (w : World) (request : CreateUrlRequest) (url : ShortUrl)
    : Prop :=
  originalUrl url = validation.sanitizeUrl (req_originalUrl request)
  /\ validityMinutes url = validity_of request
  /\ clicks url = []
  /\ isCustomShortcode url
     = (if validation.custom_code request is Some _ then true else false)
  /\ (exists t, createdAt url = Some t
        /\ expiresAt url = Some (t + validityMinutes url * 60 * 1000))
  /\ StorageService.in_use (shortcode url) w = false
  /\ match validation.custom_code request with
     | Some c => shortcode url = Str.filter_chars Str.is_alnum c
     | None => exists n, shortcode url = validation.drawn P 6 n
     end.

Definition createSingleUrl (request : CreateUrlRequest) : M ShortUrl :=
  let sanitizedUrl := validation.sanitizeUrl (req_originalUrl request) in
  let validityMinutes :=
    match req_validityMinutes request with
    | Some minutes => if minutes =? 0 then 30 else minutes
    | None => 30
    end in
  let! (shortcode, isCustomShortcode) :=
    match req_customShortcode request with
    | Some customShortcode =>
        if truthy customShortcode && negb (String.eqb (Str.trim customShortcode) "")
        then
          let shortcode := validation.sanitizeShortcode customShortcode in
          let! inUse := StorageService.isShortcodeInUse shortcode in
          if inUse
          then throw ("Shortcode " +:+ dquote +:+ shortcode +:+ dquote
                        +:+ " is already in use")
          else ret (shortcode, true)
        else
          let! shortcode := generateUniqueShortcode 0 in
          ret (shortcode, false)
    | None =>
        let! shortcode := generateUniqueShortcode 0 in
        ret (shortcode, false)
    end in
  let! now := Date_now P in
  let expiresAt :=
    match now with
    | Some t => Date_of_number (t + validityMinutes * 60 * 1000)
    | None => None
    end in
  let! id := uuidv4 P in
  let shortUrl :=
    mkShortUrl id sanitizedUrl shortcode now expiresAt validityMinutes []
      isCustomShortcode in
  (* the logged metadata holds [expiresAt.toISOString()], which throws a
     RangeError on an invalid date *)
  match expiresAt with
  | Some _ => logger_logUrlEvent "Single URL created" ;;; ret shortUrl
  | None => throw "Invalid time value"
  end.

(** The index that the [catch] of [createUrls] reports for [request]: the
    first position of [requests] with its [originalUrl] and its
    [customShortcode]. *)
Definition reported_index (requests : list CreateUrlRequest)
    (request : CreateUrlRequest) : Z :=
  findIndex
    (fun r =>
       String.eqb (req_originalUrl r) (req_originalUrl request)
       && bool_decide (req_customShortcode r = req_customShortcode request))
    requests.

(** A validation entry in the format of the response: the messages joined. *)
Definition response_error (e : validation.IndexedErrors) : ErrorEntry :=
  mkErrorEntry (Z.of_nat (validation.index e))
    (Str.join ", " (map ve_message (validation.errors e))).

(** The loop [for (const request of valid)] of [createUrls]. *)
Fixpoint process_valid (requests valid : list CreateUrlRequest)
    (success : list ShortUrl) (finalErrors : list ErrorEntry)
    : M (list ShortUrl * list ErrorEntry) :=
  match valid with
  | [] => ret (success, finalErrors)
  | request :: rest =>
      let! (success, finalErrors) :=
        try_catch
          (let! shortUrl := createSingleUrl request in
           ret (success ++ [shortUrl], finalErrors))
          (fun msg =>
             let originalIndex :=
               findIndex
                 (fun r =>
                    String.eqb (req_originalUrl r) (req_originalUrl request)
                    && bool_decide (req_customShortcode r = req_customShortcode request))
                 requests in
             ret (success, finalErrors ++ [mkErrorEntry originalIndex msg])) in
      process_valid requests rest success finalErrors
  end.

Definition createUrls (requests : list CreateUrlRequest) : M CreateUrlsResponse :=
  logger_logUrlEvent "Bulk URL creation started" ;;;
  let! (valid, errors) := validation.validateUrlRequests P requests in
  let finalErrors :=
    map (fun e =>
           mkErrorEntry (Z.of_nat (validation.index e))
             (Str.join ", " (map ve_message (validation.errors e))))
        errors in
  let! (success, finalErrors) := process_valid requests valid [] finalErrors in
  (if (0 <? length success)%nat then StorageService.addUrls success else ret tt) ;;;
  let response := mkResponse success finalErrors in
  logger_logUrlEvent "Bulk URL creation completed" ;;;
  ret response.

(** What [getGeoLocation] answers for an outcome of the fetch. *)
Definition geo_answer (outcome : GeoFetch) : GeoLocation :=
  match outcome with
  | FetchOk country_name city => mkGeoLocation country_name city
  | FetchFails _ | FetchNotOk => mkGeoLocation None None
  end.

(** The click that [redirectUrl] records in [w] for a record it found: the
    lookup has read the clock once before. *)
Definition click_of (w : World) : ClickEvent :=
  mkClickEvent (uuid P (uuids_taken w)) (Some (clock P (S (dates_taken w))))
    (if truthy (document_referrer P) then document_referrer P else "direct")
    (navigator_userAgent P) None (Some (geo_answer (geo P (fetches_made w)))).

Definition getGeoLocation : M GeoLocation :=
  try_catch
    (let! response := fetch_ipapi P in
     match response with
     | FetchFails reason => throw reason
     | FetchNotOk => ret (mkGeoLocation None None)
     | FetchOk country_name city => ret (mkGeoLocation country_name city)
     end)
    (fun _ =>
       logger_warn "url-service" "Failed to get geolocation" ;;;
       ret (mkGeoLocation None None)).

Definition not_found_or_expired : string := "Short URL not found or has expired".

Definition redirectUrl (code : string) : M string :=
  logger_logAnalyticsEvent "Redirect attempt" ;;;
  let! shortUrl := StorageService.findByShortcode P code in
  match shortUrl with
  | None =>
      logger_warn "url-service" "Shortcode not found" ;;;
      throw not_found_or_expired
  | Some shortUrl =>
      let! id := uuidv4 P in
      let! timestamp := Date_now P in
      let referrer :=
        if truthy (document_referrer P) then document_referrer P else "direct" in
      let! geoLocation := getGeoLocation in
      let clickEvent :=
        mkClickEvent id timestamp referrer (navigator_userAgent P) None
          (Some geoLocation) in
      StorageService.recordClick code clickEvent ;;;
      logger_logAnalyticsEvent "Redirect successful" ;;;
      ret (originalUrl shortUrl)
  end.

Definition getAllUrls : M (list ShortUrl) :=
  let! urls := StorageService.loadUrls in
  logger_info "url-service" "Retrieved all URLs for statistics" ;;;
  ret urls.

Definition getUrlsPaginated (page limit : Z) : M StorageService.Page :=
  let! result := StorageService.getUrlsPaginated page limit in
  logger_info "url-service" "Retrieved paginated URLs" ;;;
  ret result.

Definition getAnalyticsSummary : M StorageService.Analytics :=
  let! analytics := StorageService.getAnalytics P in
  logger_info "analytics" "Analytics summary retrieved" ;;;
  ret analytics.

Definition isValidShortcode (code : string) : M bool :=
  let! shortUrl := StorageService.findByShortcode P code in
  ret (match shortUrl with Some _ => true | None => false end).

Definition getUrlByShortcode (code : string) : M (option ShortUrl) :=
  StorageService.findByShortcode P code.

End UrlService.
End UrlService.


(** ** Sample platforms and worlds, for the examples *)

(** A stand-in for the URL parser: the protocol of a text that starts with
    [http://] or [https://], a [TypeError] for any other text. *)
Definition sample_protocol (url : string) : option string :=
  if String.prefix "https://" url then Some "https:"
  else if String.prefix "http://" url then Some "http:"
  else None.

(** A platform whose clock stands at [now] and whose random source answers
    [draw]. *)
Definition sample_platform (now : Z) (draw : nat -> nat) : Platform :=
  mkPlatform sample_protocol (fun _ => now) draw (fun _ => "0b5e7a1c") (fun _ => FetchNotOk)
    "" "Mozilla/5.0".

(** A fresh session over a writable store that holds [urls]. *)
Definition world_with (urls : list ShortUrl) : World :=
  mkWorld (Document (StorageService.JSON_stringify urls)) true 0 0 0 0 [].

Definition empty_world : World := mkWorld Missing true 0 0 0 0 [].

(** A record for [code], created at [created] for [minutes] minutes. *)
Definition sample_url (code : string) (created minutes : Z) : ShortUrl :=
  mkShortUrl "7f1c2d3e" "https://example.com" code (Some created)
    (Some (created + minutes * 60 * 1000)) minutes [] false.

Definition sample_click (at_time : Z) : ClickEvent :=
  mkClickEvent "c0ffee00" (Some at_time) "direct" "Mozilla/5.0" None
    (Some (mkGeoLocation None None)).
Example toISOString_epoch : Time.toISOString 0 = "1970-01-01T00:00:00.000Z".
Proof. reflexivity. Qed.

Example toISOString_2023 : Time.toISOString 1700000000123 = "2023-11-14T22:13:20.123Z".
Proof. vm_compute. reflexivity. Qed.

Example toISOString_bc : Time.toISOString (-62167219200001) = "-000001-12-31T23:59:59.999Z".
Proof. vm_compute. reflexivity. Qed.

Example parse_2023 : Time.parse "2023-11-14T22:13:20.123Z" = Some 1700000000123.
Proof. vm_compute. reflexivity. Qed.

Example parse_leap : Time.parse "2024-02-29T00:00:00.000Z" = Some 1709164800000.
Proof. vm_compute. reflexivity. Qed.

Example parse_bad : Time.parse "2023-02-29T00:00:00.000Z" = None.
Proof. vm_compute. reflexivity. Qed.

(** * Facts about the runtime model *)

Section TimeFacts.
Import Time.

Lemma append_cons c s r : String c s +:+ r = String c (s +:+ r).
Proof. reflexivity. Qed.

Lemma append_nil_l s : "" +:+ s = s.
Proof. reflexivity. Qed.

Lemma append_assoc s1 s2 s3 : (s1 +:+ s2) +:+ s3 = s1 +:+ (s2 +:+ s3).
Proof.
  induction s1 as [|c s1 IH]; [reflexivity|].
  rewrite !append_cons. by rewrite IH.
Qed.

Lemma digit_value_digit n : 0 <= n < 10 -> digit_value (digit n) = Some n.
Proof.
  intros Hn. replace n with (Z.of_nat (Z.to_nat n)) by lia.
  assert (Hk : (Z.to_nat n < 10)%nat) by lia. revert Hk.
  generalize (Z.to_nat n). intros k Hk.
  do 10 (destruct k as [|k]; [reflexivity|]). lia.
Qed.

(** Reading back a padded field: the [width] digits of [n] are consumed and
    accumulated, whatever follows. *)
Lemma read_digits_pad w : forall k acc n rest,
  0 <= n < 10 ^ Z.of_nat w ->
  read_digits (w + k) acc (pad w n +:+ rest)
  = read_digits k (acc * 10 ^ Z.of_nat w + n) rest.
Proof.
  induction w as [|w IH]; intros k acc n rest Hn.
  - simpl in *. f_equal. lia.
  - rewrite Nat2Z.inj_succ, Z.pow_succ_r in Hn by lia.
    cbn [pad]. rewrite append_assoc, append_cons.
    replace (S w + k)%nat with (w + S k)%nat by lia.
    rewrite IH by (split; [apply Z.div_pos | apply Z.div_lt_upper_bound]; lia).
    cbn [read_digits]. rewrite digit_value_digit by (apply Z.mod_pos_bound; lia).
    cbn. f_equal.
    rewrite Nat2Z.inj_succ, Z.pow_succ_r by lia.
    pose proof (Z.div_mod n 10 ltac:(lia)). lia.
Qed.

Lemma read_digits_pad0 w n rest :
  0 <= n < 10 ^ Z.of_nat w ->
  read_digits w 0 (pad w n +:+ rest) = Some (n, rest).
Proof.
  intros Hn. pose proof (read_digits_pad w 0 0 n rest Hn) as H.
  rewrite Nat.add_0_r in H. rewrite H. simpl. f_equal.
Qed.

Lemma MakeTime_fields t :
  MakeTime (HourFromTime t) (MinFromTime t) (SecFromTime t) (msFromTime t)
  = TimeWithinDay t.
Proof.
  unfold MakeTime, HourFromTime, MinFromTime, SecFromTime, msFromTime,
    TimeWithinDay, msPerDay, msPerHour, msPerMinute, msPerSecond.
  Z.div_mod_to_equations. lia.
Qed.

Lemma time_fields_range t :
  0 <= HourFromTime t < 24 /\ 0 <= MinFromTime t < 60
  /\ 0 <= SecFromTime t < 60 /\ 0 <= msFromTime t < 1000.
Proof.
  unfold HourFromTime, MinFromTime, SecFromTime, msFromTime, msPerSecond.
  repeat split; apply Z.mod_pos_bound; lia.
Qed.

(** *** The calendar, one era checked exhaustively *)

Lemma all_from_spec p count : forall i z,
  all_from count i p = true -> i <= z < i + Z.of_nat count -> p z = true.
Proof.
  induction count as [|k IH]; intros i z H Hz; [lia|].
  cbn [all_from] in H. apply andb_prop in H as [Hi Hk].
  destruct (decide (z = i)) as [->|]; [done|].
  apply (IH (i + 1)); [done | lia].
Qed.

Lemma doe_ok_era : all_from (Z.to_nat 146097) 0 doe_ok = true.
Proof. vm_cast_no_check (@eq_refl bool true). Qed.

Lemma doe_ok_all doe : 0 <= doe < 146097 -> doe_ok doe = true.
Proof. intros Hd. apply (all_from_spec _ _ _ _ doe_ok_era). lia. Qed.

Lemma InLeapYear_era y k : InLeapYear (y + k * 400) = InLeapYear y.
Proof.
  unfold InLeapYear.
  replace ((y + k * 400) mod 4) with (y mod 4)
    by (replace (k * 400) with ((k * 100) * 4) by lia; by rewrite Z_mod_plus_full).
  replace ((y + k * 400) mod 100) with (y mod 100)
    by (replace (k * 400) with ((k * 4) * 100) by lia; by rewrite Z_mod_plus_full).
  by rewrite Z_mod_plus_full.
Qed.

Lemma DaysInMonth_era y k m : DaysInMonth (y + k * 400) m = DaysInMonth y m.
Proof. unfold DaysInMonth. by rewrite InLeapYear_era. Qed.

(** [civil_from_days] yields a date of the calendar, and
    [days_from_civil] inverts it. *)
Lemma civil_from_days_spec z :
  let '(y, m, d) := civil_from_days z in
  1 <= m <= 12 /\ 1 <= d <= DaysInMonth y m /\ days_from_civil y m d = z
  /\ (z + 719468) / 146097 * 400 <= y <= (z + 719468) / 146097 * 400 + 400.
Proof.
  unfold civil_from_days.
  set (era := (z + 719468) / 146097).
  set (doe := (z + 719468) mod 146097).
  assert (Hdoe : 0 <= doe < 146097) by (apply Z.mod_pos_bound; lia).
  pose proof (doe_ok_all doe Hdoe) as Hok. unfold doe_ok in Hok.
  destruct (civil_of_doe doe) as [[yoe m] d].
  repeat (apply andb_prop in Hok as [Hok ?]).
  repeat match goal with
         | H : (_ <=? _) = true |- _ => apply Z.leb_le in H
         | H : (_ =? _) = true |- _ => apply Z.eqb_eq in H
         end.
  split; [lia|]. split.
  { replace (yoe + era * 400 + (if m <=? 2 then 1 else 0))
      with (yoe + (if m <=? 2 then 1 else 0) + era * 400) by lia.
    rewrite DaysInMonth_era. lia. }
  split; [|destruct (m <=? 2); lia].
  unfold days_from_civil.
  assert (Hy : (if m <=? 2
                then yoe + era * 400 + (if m <=? 2 then 1 else 0) - 1
                else yoe + era * 400 + (if m <=? 2 then 1 else 0))
               = yoe + era * 400) by (destruct (m <=? 2); lia).
  rewrite Hy.
  rewrite Z.div_add, Z_mod_plus_full by lia.
  rewrite Z.div_small, Z.mod_small by lia.
  pose proof (Z.div_mod (z + 719468) 146097 ltac:(lia)) as Hz.
  fold era doe in Hz. lia.
Qed.

Lemma MakeDay_fields t :
  MakeDay (YearFromTime t) (MonthFromTime t) (DateFromTime t) = Day t.
Proof.
  unfold MakeDay, YearFromTime, MonthFromTime, DateFromTime.
  pose proof (civil_from_days_spec (Day t)) as H.
  destruct (civil_from_days (Day t)) as [[y m] d]. simpl.
  destruct H as (Hm & Hd & Hinv & _).
  rewrite Z.div_small, Z.mod_small by lia. rewrite Z.add_0_r.
  rewrite <- Hinv. unfold days_from_civil, doe_of_civil.
  replace (m - 1 + 1) with m by lia. lia.
Qed.

Lemma MakeDate_fields t :
  MakeDate (MakeDay (YearFromTime t) (MonthFromTime t) (DateFromTime t))
    (MakeTime (HourFromTime t) (MinFromTime t) (SecFromTime t) (msFromTime t))
  = t.
Proof.
  rewrite MakeDay_fields, MakeTime_fields.
  unfold MakeDate, Day, TimeWithinDay, msPerDay.
  pose proof (Z.div_mod t 86400000 ltac:(lia)). lia.
Qed.

Lemma YearFromTime_range t :
  Z.abs t <= maxTime -> -272000 <= YearFromTime t <= 276400.
Proof.
  unfold maxTime, YearFromTime. intros Ht.
  pose proof (civil_from_days_spec (Day t)) as H.
  destruct (civil_from_days (Day t)) as [[y m] d]. simpl.
  destruct H as (_ & _ & _ & Hy).
  unfold Day, msPerDay in Hy.
  assert (-100000000 <= t / 86400000 <= 100000000)
    by (split; [apply Z.div_le_lower_bound | apply Z.div_le_upper_bound]; lia).
  assert (-680 <= (t / 86400000 + 719468) / 146097 <= 690)
    by (split; [apply Z.div_le_lower_bound | apply Z.div_le_upper_bound]; lia).
  lia.
Qed.

Lemma pad_head w : forall n,
  exists k s, 0 <= k < 10 /\ pad (S w) n = String (digit k) s.
Proof.
  induction w as [|w IH]; intros n.
  - exists (n mod 10), "". split; [apply Z.mod_pos_bound; lia | reflexivity].
  - destruct (IH (n / 10)) as (k & s & Hk & E).
    exists k, (s +:+ String (digit (n mod 10)) ""). split; [done|].
    change (pad (S (S w)) n) with (pad (S w) (n / 10) +:+ String (digit (n mod 10)) "").
    by rewrite E.
Qed.

Lemma parse_year_digit k s :
  0 <= k < 10 -> parse_year (String (digit k) s) = read_digits 4 0 (String (digit k) s).
Proof.
  intros Hk. replace k with (Z.of_nat (Z.to_nat k)) by lia.
  assert (Hj : (Z.to_nat k < 10)%nat) by lia. revert Hj.
  generalize (Z.to_nat k). intros j Hj.
  do 10 (destruct j as [|j]; [reflexivity|]). lia.
Qed.

Lemma parse_year_text y rest :
  -999999 <= y <= 999999 ->
  parse_year (year_text y +:+ rest) = Some (y, rest).
Proof.
  intros Hy. unfold year_text.
  destruct ((0 <=? y) && (y <=? 9999)) eqn:E.
  - apply andb_prop in E as [?%Z.leb_le ?%Z.leb_le].
    destruct (pad_head 3 y) as (k & s & Hk & Hp).
    pose proof (read_digits_pad0 4 y rest ltac:(lia)) as Hr.
    rewrite Hp in *. rewrite append_cons in *.
    by rewrite parse_year_digit.
  - destruct (y <? 0) eqn:Hneg.
    + apply Z.ltb_lt in Hneg. rewrite append_assoc, append_cons.
      unfold parse_year. change ("" +:+ ?x) with x.
      rewrite read_digits_pad0 by lia. simpl.
      destruct (Z.abs y =? 0) eqn:E0; [apply Z.eqb_eq in E0; lia|].
      do 2 f_equal. lia.
    + apply Z.ltb_ge in Hneg. rewrite append_assoc, append_cons.
      unfold parse_year. change ("" +:+ ?x) with x.
      rewrite read_digits_pad0 by lia. do 2 f_equal.
      apply andb_false_iff in E as [E|E]; [apply Z.leb_gt in E | apply Z.leb_gt in E]; lia.
Qed.

(** [toISOString] loses nothing: parsing its text gives the time value
    back, to the millisecond. *)
Lemma parse_toISOString t :
  Z.abs t <= maxTime -> parse (toISOString t) = Some t.
Proof.
  intros Ht. unfold toISOString, parse.
  pose proof (YearFromTime_range t Ht) as Hy.
  pose proof (time_fields_range t) as (Hh & Hmi & Hs & Hms).
  pose proof (civil_from_days_spec (Day t)) as Hc.
  pose proof (MakeDate_fields t) as Hmk.
  unfold MonthFromTime, DateFromTime in *.
  set (y := YearFromTime t) in *.
  assert (Ey : (civil_from_days (Day t)).1.1 = y) by reflexivity.
  destruct (civil_from_days (Day t)) as [[y' m] d]. cbn [fst snd] in *. subst y'.
  destruct Hc as (Hm & Hd & _ & _).
  assert (d <= 31) by (unfold DaysInMonth in Hd; repeat case_match; lia).
  replace (m - 1 + 1) with m by lia.
  rewrite parse_year_text by lia.
  repeat first
    [ rewrite append_cons
    | rewrite append_nil_l
    | rewrite read_digits_pad0 by lia
    | progress cbn [mbind option_bind expect Ascii.eqb Bool.eqb] ].
  replace (1 <=? m) with true by (symmetry; apply Z.leb_le; lia).
  replace (m <=? 12) with true by (symmetry; apply Z.leb_le; lia).
  replace (1 <=? d) with true by (symmetry; apply Z.leb_le; lia).
  replace (d <=? DaysInMonth y m) with true by (symmetry; apply Z.leb_le; lia).
  replace (HourFromTime t <=? 23) with true by (symmetry; apply Z.leb_le; lia).
  replace (MinFromTime t <=? 59) with true by (symmetry; apply Z.leb_le; lia).
  replace (SecFromTime t <=? 59) with true by (symmetry; apply Z.leb_le; lia).
  cbn [andb orb]. rewrite Hmk. unfold TimeClip.
  by replace (Z.abs t <=? maxTime) with true by (symmetry; apply Z.leb_le; lia).
Qed.

End TimeFacts.

(** * Running computations *)

Section Runs.
Context {A B : Type}.

Lemma bind_ok (m : M A) (k : A -> M B) w a w' :
  m w = (Ok a, w') -> bind m k w = k a w'.
Proof. unfold bind. by intros ->. Qed.

Lemma bind_throw (m : M A) (k : A -> M B) w msg w' :
  m w = (Throw msg, w') -> bind m k w = (Throw msg, w').
Proof. unfold bind. by intros ->. Qed.

Lemma try_catch_ok (m : M A) handler w a w' :
  m w = (Ok a, w') -> try_catch m handler w = (Ok a, w').
Proof. unfold try_catch. by intros ->. Qed.

Lemma try_catch_throw (m : M A) handler w msg w' :
  m w = (Throw msg, w') -> try_catch m handler w = handler msg w'.
Proof. unfold try_catch. by intros ->. Qed.
End Runs.

Lemma logged_logged l1 l2 w : logged l2 (logged l1 w) = logged (l1 ++ l2) w.
Proof. unfold logged; simpl. by rewrite app_assoc. Qed.

Lemma logged_nil w : logged [] w = w.
Proof. destruct w. unfold logged; simpl. by rewrite app_nil_r. Qed.

(** Two descriptions of one world: the fields agree up to arithmetic on the
    counters and the association of the log. *)
Ltac same_world :=
  unfold logged, advanced; cbn;
  repeat match goal with
         | |- (_, _) = (_, _) => f_equal
         | |- mkWorld _ _ _ _ _ _ _ = mkWorld _ _ _ _ _ _ _ => f_equal
         end;
  solve [lia | done | by rewrite <- ?app_assoc | by rewrite ?app_assoc, ?app_nil_r].

Lemma logger_Log_run lvl pkg msg w :
  logger_Log lvl pkg msg w = (Ok tt, logged [mkLog lvl pkg msg] w).
Proof. reflexivity. Qed.

(** * The storage service *)

Section StorageFacts.
Import StorageService.

Lemma stored_urls_logged l w : stored_urls (logged l w) = stored_urls w.
Proof. reflexivity. Qed.

(** [loadUrls] never throws and only logs. *)
Lemma loadUrls_run w :
  exists l, loadUrls w = (Ok (stored_urls w), logged l w).
Proof.
  unfold loadUrls, stored_urls, try_catch, bind, localStorage_getItem.
  destruct (urls_item w); cbn.
  - exists []. by rewrite logged_nil.
  - by eexists.
  - by eexists.
Qed.

Lemma saveUrls_ok urls w :
  writable w = true ->
  exists w', saveUrls urls w = (Ok tt, w')
    /\ urls_item w' = Document (JSON_stringify urls)
    /\ writable w' = true
    /\ dates_taken w' = dates_taken w /\ randoms_taken w' = randoms_taken w
    /\ uuids_taken w' = uuids_taken w /\ fetches_made w' = fetches_made w.
Proof.
  intros Hw. unfold saveUrls, try_catch, bind, localStorage_setItem.
  rewrite Hw. cbn. eexists. split; [reflexivity|]. cbn. by rewrite ?Hw.
Qed.

Lemma new_Date_toJSON d : valid_time d = true -> new_Date (Date_toJSON d) = d.
Proof.
  destruct d as [t|]; [|done]. cbn. intros Ht%Z.leb_le.
  by rewrite parse_toISOString.
Qed.

(** The revival undoes the serialization on well-formed records. *)
Lemma revive_stringify urls :
  forallb well_formed_url urls = true -> revive (JSON_stringify urls) = urls.
Proof.
  unfold revive, JSON_stringify. rewrite map_map.
  induction urls as [|url urls IH]; [done|].
  cbn [forallb map]. intros [Hu Hr]%andb_prop. rewrite IH by done. f_equal.
  unfold well_formed_url in Hu.
  apply andb_prop in Hu as [[Hc He]%andb_prop Hk].
  destruct url as [i o s c e v ks b]. cbn in *. unfold replacer. cbn.
  rewrite !new_Date_toJSON by done. f_equal.
  rewrite map_map. clear -Hk.
  induction ks as [|k ks IHk]; [done|].
  cbn [forallb map] in *. apply andb_prop in Hk as [Hk Hks].
  rewrite IHk by done. f_equal.
  destruct k. unfold well_formed_click in Hk. cbn in *.
  by rewrite new_Date_toJSON.
Qed.

Lemma stored_urls_after_save urls w :
  urls_item w = Document (JSON_stringify urls) ->
  forallb well_formed_url urls = true ->
  stored_urls w = urls.
Proof. intros E Hwf. unfold stored_urls. rewrite E. by apply revive_stringify. Qed.

Lemma fold_left_clicks (urls : list ShortUrl) : forall acc,
  fold_left (fun sum url => (sum + length (clicks url))%nat) urls acc
  = (acc + click_total urls)%nat.
Proof.
  unfold click_total.
  induction urls as [|url urls IH]; intros acc; cbn; [lia|].
  rewrite IH. lia.
Qed.

Lemma filter_partition {X} (p q : X -> bool) (l : list X) :
  (forall x, x ∈ l -> q x = negb (p x)) ->
  (length (List.filter p l) + length (List.filter q l))%nat = length l.
Proof.
  induction l as [|x l IH]; intros H; [done|].
  cbn. rewrite (H x) by left.
  destruct (p x); cbn; rewrite <- IH by (intros; apply H; by right); lia.
Qed.

Lemma filter_ext_in {X} (p q : X -> bool) (l : list X) :
  (forall x, x ∈ l -> p x = q x) -> List.filter p l = List.filter q l.
Proof.
  induction l as [|x l IH]; intros H; [done|].
  cbn. rewrite (H x) by left. rewrite IH by (intros; apply H; by right). done.
Qed.

Lemma getAnalytics_run P w :
  exists l,
    getAnalytics P w
    = (Ok (mkAnalytics
             (length (stored_urls w))
             (click_total (stored_urls w))
             (length (List.filter
                (fun url => Date_gt (expiresAt url) (Some (clock P (dates_taken w))))
                (stored_urls w)))
             (length (List.filter
                (fun url => Date_le (expiresAt url) (Some (clock P (dates_taken w))))
                (stored_urls w)))),
       logged l (mkWorld (urls_item w) (writable w) (S (dates_taken w))
                   (randoms_taken w) (uuids_taken w) (fetches_made w) (log w))).
Proof.
  destruct (loadUrls_run w) as [l Hl].
  unfold getAnalytics. rewrite (bind_ok _ _ _ _ _ Hl).
  unfold bind, Date_now. cbn. rewrite fold_left_clicks. cbn.
  eexists. f_equal. unfold logged. cbn. by rewrite <- app_assoc.
Qed.

Lemma findByShortcode_run P code w :
  exists w', findByShortcode P code w = (Ok (lookup P code w), w')
    /\ store_of w' = store_of w
    /\ randoms_taken w' = randoms_taken w /\ uuids_taken w' = uuids_taken w
    /\ fetches_made w' = fetches_made w
    /\ (dates_taken w <= dates_taken w')%nat.
Proof.
  destruct (loadUrls_run w) as [l Hl].
  unfold findByShortcode, lookup. rewrite (bind_ok _ _ _ _ _ Hl).
  destruct (List.find _ (stored_urls w)) as [url|]; [|by eexists].
  unfold bind, Date_now. cbn.
  case_match; cbn; eexists; (split; [reflexivity|]); cbn; repeat split; lia.
Qed.

End StorageFacts.

(** * Lookup, redirection and expiry *)

Section LookupFacts.
Import StorageService.
Variable P : Platform.

Lemma find_shortcode_Some code (urls : list ShortUrl) url :
  List.find (fun u => String.eqb (shortcode u) code) urls = Some url ->
  url ∈ urls /\ shortcode url = code.
Proof.
  intros [Hin E]%find_some. split; [by apply list_elem_of_In|].
  by apply String.eqb_eq.
Qed.

Lemma find_shortcode_None code (urls : list ShortUrl) :
  List.find (fun u => String.eqb (shortcode u) code) urls = None <->
  (forall url, url ∈ urls -> shortcode url <> code).
Proof.
  split.
  - intros H url Hin E. apply list_elem_of_In in Hin.
    pose proof (find_none _ _ H url Hin) as Hf. cbn in Hf.
    apply String.eqb_neq in Hf. done.
  - intros H. destruct (List.find _ urls) as [url|] eqn:E; [|done].
    apply find_shortcode_Some in E as [Hin E]. by destruct (H url Hin).
Qed.

Lemma Date_gt_now now (url : ShortUrl) :
  Date_gt (Some now) (expiresAt url) = expiry_passed now url.
Proof. unfold expiry_passed. by destruct (expiresAt url). Qed.

(** A code no record carries is not found. *)
Lemma lookup_unknown code w :
  (forall url, url ∈ stored_urls w -> shortcode url <> code) ->
  lookup P code w = None.
Proof. intros H. unfold lookup. apply find_shortcode_None in H. by rewrite H. Qed.

(** Neither is a code whose (first) record the clock has passed. *)
Lemma lookup_expired code w url :
  List.find (fun u => String.eqb (shortcode u) code) (stored_urls w) = Some url ->
  expiry_passed (clock P (dates_taken w)) url = true ->
  lookup P code w = None.
Proof. intros E H. unfold lookup. by rewrite E, Date_gt_now, H. Qed.

(** [redirectUrl] fails with the one error whenever the lookup answers
    nothing, and leaves the store alone. *)
Lemma redirectUrl_not_found code w :
  lookup P code w = None ->
  exists w', UrlService.redirectUrl P code w
             = (Throw UrlService.not_found_or_expired, w')
    /\ store_of w' = store_of w.
Proof.
  intros Hl. unfold UrlService.redirectUrl.
  unfold logger_logAnalyticsEvent, logger_info at 1.
  rewrite (bind_ok _ _ _ _ _ (logger_Log_run _ _ _ w)).
  destruct (findByShortcode_run P code (logged [mkLog info "analytics" "Redirect attempt"] w))
    as (w1 & Hrun & Hst & _).
  rewrite (bind_ok _ _ _ _ _ Hrun).
  change (lookup P code (logged _ w)) with (lookup P code w). rewrite Hl.
  eexists. split; [reflexivity|]. cbn. exact Hst.
Qed.

End LookupFacts.

(** Claim C1, at the instant of expiry. A record created at 1700000000000
    for one minute expires at 1700000060000. With the clock at that very
    instant ([expiresAt <= now] holds with equality) [redirectUrl] still
    answers the original URL, because [findByShortcode] hides a record only
    when [now > expiresAt]; [getAnalytics], in the same world, counts the
    record as expired ([expiresAt <= now]). *)
Theorem redirect_at_expiry_instant :
  let P := sample_platform 1700000060000 (fun _ => 0%nat) in
  let url := sample_url "promo1" 1700000000000 1 in
  let w := world_with [url] in
  expiresAt url = Some (clock P (dates_taken w))
  /\ (UrlService.redirectUrl P "promo1" w).1 = Ok "https://example.com"
  /\ (StorageService.getAnalytics P w).1 = Ok (StorageService.mkAnalytics 1 0 0 1).
Proof. vm_compute. repeat split. Qed.

(** One millisecond later the redirection fails, with the error of a code
    that was never created. *)
Example redirect_after_expiry :
  let P := sample_platform 1700000060001 (fun _ => 0%nat) in
  let w := world_with [sample_url "promo1" 1700000000000 1] in
  (UrlService.redirectUrl P "promo1" w).1 = Throw "Short URL not found or has expired"
  /\ (UrlService.redirectUrl P "never1" w).1 = Throw "Short URL not found or has expired".
Proof. vm_compute. repeat split. Qed.

(** * Persistence *)

(** Claim C8. Saving a collection of well-formed records (every date a time
    value of the range) to a writable store and loading it again answers
    the very same collection: as many records, as many click events, and
    every field equal, the timestamps ([createdAt], [expiresAt], each
    click's [timestamp]) to the millisecond they are stored with. *)
Theorem save_load_roundtrip (urls : list ShortUrl) (w : World) :
  forallb well_formed_url urls = true ->
  writable w = true ->
  exists w1 w2 loaded,
    StorageService.saveUrls urls w = (Ok tt, w1)
    /\ StorageService.loadUrls w1 = (Ok loaded, w2)
    /\ loaded = urls
    /\ length loaded = length urls
    /\ click_total loaded = click_total urls.
Proof.
  intros Hwf Hw.
  destruct (saveUrls_ok urls w Hw) as (w1 & Hsave & Hitem & _).
  destruct (loadUrls_run w1) as [l Hload].
  exists w1, (logged l w1), (StorageService.stored_urls w1).
  rewrite (stored_urls_after_save urls w1 Hitem Hwf) in *. done.
Qed.

Lemma save_load_roundtrip_witness :
  let urls :=
    [ mkShortUrl "7f1c2d3e" "https://example.com" "promo1" (Some 1700000000000)
        (Some 1700000060000) 1 [sample_click 1700000001234; sample_click 1700000059999]
        true;
      sample_url "Ab3dE9" (-62167219200001) 30 ] in
  exists w1 w2 loaded,
    StorageService.saveUrls urls empty_world = (Ok tt, w1)
    /\ StorageService.loadUrls w1 = (Ok loaded, w2)
    /\ loaded = urls /\ length loaded = 2%nat /\ click_total loaded = 2%nat.
Proof.
  intros urls.
  destruct (save_load_roundtrip urls empty_world) as (w1 & w2 & loaded & H);
    [vm_compute; reflexivity | reflexivity |].
  exists w1, w2, loaded. destruct H as (H1 & H2 & -> & H4 & H5). done.
Defined.

(** * Analytics *)

(** Claim C7. Whatever the store holds and whatever the clock reads,
    [getAnalytics] answers [totalUrls] = the number of stored records and
    [totalClicks] = the sum of the lengths of their click sequences; the
    records counted active are those with [now < expiresAt], those counted
    expired the others, and [activeUrls + expiredUrls = totalUrls]. The
    stored records are taken to carry an [expiresAt] that is a time value
    (an invalid date compares false both ways). *)
Theorem getAnalytics_totals (P : Platform) (w : World) :
  let urls := StorageService.stored_urls w in
  let now := clock P (dates_taken w) in
  Forall (fun url => is_Some (expiresAt url)) urls ->
  exists a w',
    StorageService.getAnalytics P w = (Ok a, w')
    /\ store_of w' = store_of w
    /\ StorageService.totalUrls a = length urls
    /\ StorageService.totalClicks a = click_total urls
    /\ StorageService.activeUrls a = length (List.filter (active_at now) urls)
    /\ StorageService.expiredUrls a
       = length (List.filter (fun url => negb (active_at now url)) urls)
    /\ (StorageService.activeUrls a + StorageService.expiredUrls a
        = StorageService.totalUrls a)%nat.
Proof.
  intros urls now Hvalid.
  destruct (getAnalytics_run P w) as [l Hrun].
  eexists _, _. split; [exact Hrun|]. cbn [StorageService.totalUrls
    StorageService.totalClicks StorageService.activeUrls StorageService.expiredUrls].
  fold urls now.
  assert (Ha : List.filter (fun url => Date_gt (expiresAt url) (Some now)) urls
               = List.filter (active_at now) urls).
  { apply filter_ext_in. intros url _. unfold active_at.
    destruct (expiresAt url); [|done]. cbn. done. }
  assert (He : List.filter (fun url => Date_le (expiresAt url) (Some now)) urls
               = List.filter (fun url => negb (active_at now url)) urls).
  { apply filter_ext_in. intros url Hin. unfold active_at. cbv beta.
    rewrite Forall_forall in Hvalid. destruct (Hvalid url Hin) as [t ->]. cbn.
    destruct (now <? t) eqn:E; cbn; [apply Z.leb_gt | apply Z.leb_le]; lia. }
  rewrite Ha, He. repeat split.
  apply filter_partition. done.
Qed.

Lemma getAnalytics_totals_witness :
  let P := sample_platform 1700000060000 (fun _ => 0%nat) in
  let w := world_with
             [ mkShortUrl "7f1c2d3e" "https://example.com" "promo1" (Some 1700000000000)
                 (Some 1700000060000) 1
                 [sample_click 1700000001234; sample_click 1700000059999] true;
               sample_url "Ab3dE9" 1700000000000 30 ] in
  exists a w',
    StorageService.getAnalytics P w = (Ok a, w')
    /\ a = StorageService.mkAnalytics 2 2 1 1.
Proof.
  intros P w.
  destruct (getAnalytics_totals P w) as (a & w' & Hrun & _).
  { vm_compute. repeat constructor; by eexists. }
  exists a, w'. split; [exact Hrun|].
  assert (E : (StorageService.getAnalytics P w).1 = Ok (StorageService.mkAnalytics 2 2 1 1))
    by (vm_compute; reflexivity).
  rewrite Hrun in E. cbn in E. congruence.
Defined.

(** * Shortcode validity *)

(** Claim C10, at the instant of expiry. [isValidShortcode] is the lookup
    of [findByShortcode], which hides a record only when [now > expiresAt].
    With the clock at the very instant a record expires
    ([expiresAt <= now] holds with equality, the record is not active and
    [getAnalytics] counts it as expired) [isValidShortcode] still answers
    [true] for its shortcode, where it answers [false] for a shortcode
    that was never created. *)
Theorem isValidShortcode_at_expiry_instant :
  let P := sample_platform 1700000060000 (fun _ => 0%nat) in
  let url := sample_url "promo1" 1700000000000 1 in
  let w := world_with [url] in
  StorageService.stored_urls w = [url]
  /\ expiresAt url = Some (clock P (dates_taken w))
  /\ active_at (clock P (dates_taken w)) url = false
  /\ (StorageService.getAnalytics P w).1 = Ok (StorageService.mkAnalytics 1 0 0 1)
  /\ (UrlService.isValidShortcode P "promo1" w).1 = Ok true
  /\ (UrlService.isValidShortcode P "never1" w).1 = Ok false.
Proof. vm_compute. repeat split. Qed.

(** One millisecond later it answers [false], as for a shortcode never
    created. *)
Example isValidShortcode_after_expiry :
  let P := sample_platform 1700000060001 (fun _ => 0%nat) in
  let w := world_with [sample_url "promo1" 1700000000000 1;
                       sample_url "Ab3dE9" 1700000000000 30] in
  (UrlService.isValidShortcode P "promo1" w).1 = Ok false
  /\ (UrlService.isValidShortcode P "never1" w).1 = Ok false
  /\ (UrlService.isValidShortcode P "Ab3dE9" w).1 = Ok true.
Proof. vm_compute. repeat split. Qed.

(** Two requests of one batch can be given the same generated shortcode
    (the store is only read during the loop, and written after it). The
    lookup then judges the first record only: once the first has expired
    [isValidShortcode] answers [false] although the second record with the
    shortcode has not. *)
Example isValidShortcode_first_record_only :
  let P := sample_platform 1700000000000 (fun _ => 0%nat) in
  let later := sample_platform 1700000120000 (fun _ => 0%nat) in
  let requests := [ mkRequest "https://example.com/a" (Some 1) None;
                    mkRequest "https://example.com/b" (Some 60) None ] in
  let w := mkWorld (urls_item (UrlService.createUrls P requests empty_world).2)
             true 0 0 0 0 [] in
  map shortcode (StorageService.stored_urls w) = ["aaaaaa"; "aaaaaa"]
  /\ map (active_at 1700000120000) (StorageService.stored_urls w) = [false; true]
  /\ (UrlService.isValidShortcode later "aaaaaa" w).1 = Ok false.
Proof. vm_compute. repeat split. Qed.

(** * Recording clicks *)

Section FindIndex.
Context {X : Type} (p : X -> bool).

Lemma findIndex_from_none (l : list X) : forall i,
  (forall x, x ∈ l -> p x = false) -> findIndex_from p l i = -1.
Proof.
  induction l as [|x l IH]; intros i H; [done|].
  cbn. rewrite (H x) by left. apply IH. intros; apply H; by right.
Qed.

Lemma findIndex_from_first (l : list X) : forall i n x,
  l !! n = Some x -> p x = true ->
  (forall j y, (j < n)%nat -> l !! j = Some y -> p y = false) ->
  findIndex_from p l i = i + Z.of_nat n.
Proof.
  induction l as [|z l IH]; intros i n x Hn Hp Hfirst; [done|].
  destruct n as [|n]; cbn in *.
  - injection Hn as ->. rewrite Hp. lia.
  - rewrite (Hfirst 0%nat z) by (done || lia).
    rewrite (IH (i + 1) n x Hn Hp); [lia|].
    intros j y Hj Hy. apply (Hfirst (S j) y); [lia | done].
Qed.

End FindIndex.

Section RecordClick.
Import StorageService.

Lemma well_formed_alter click (urls : list ShortUrl) i :
  forallb well_formed_url urls = true -> well_formed_click click = true ->
  forallb well_formed_url (alter (push_click click) i urls) = true.
Proof.
  intros Hwf Hc. revert i.
  induction urls as [|url urls IH]; intros i; [done|].
  cbn in Hwf. apply andb_prop in Hwf as [Hu Hr].
  destruct i as [|i]; cbn; rewrite ?IH, ?Hr, ?Hu by done; [|done].
  rewrite andb_true_r. unfold well_formed_url in *. cbn.
  apply andb_prop in Hu as [-> Hk]. cbn.
  rewrite forallb_app, Hk. cbn. by rewrite Hc.
Qed.

Lemma alter_push_click click (urls : list ShortUrl) : forall i url,
  urls !! i = Some url ->
  alter (push_click click) i urls = <[i := push_click click url]> urls.
Proof.
  induction urls as [|z urls IH]; intros i url Hi; [done|].
  destruct i as [|i]; cbn in *.
  - by injection Hi as ->.
  - by rewrite (IH i url Hi).
Qed.

Lemma click_total_insert (urls : list ShortUrl) : forall i url url',
  urls !! i = Some url -> length (clicks url') = S (length (clicks url)) ->
  click_total (<[i := url']> urls) = S (click_total urls).
Proof.
  unfold click_total.
  induction urls as [|z urls IH]; intros i url url' Hi Hlen; [done|].
  destruct i as [|i]; cbn in Hi.
  - injection Hi as ->. cbn. lia.
  - change (<[S i := url']> (z :: urls)) with (z :: <[i := url']> urls).
    cbn [map sum_list]. rewrite (IH i url url' Hi Hlen). lia.
Qed.

(** Claim C9. [recordClick] finds the first stored record that carries the
    code, appends the click at the end of the clicks of that record, and
    writes the whole collection: the item stored afterwards is the text of
    the collection with, at the position of the record, the same record
    with [clicks ++ [click]]; every other record is what it was, and the
    collection holds exactly one click more. It never reads the clock and
    never looks at [expiresAt], so the click is recorded whether the record
    has expired or not. When no stored record carries the code it logs a
    warning, writes nothing, and the stored collection is exactly what it
    was. (What is read back equals what was written for well-formed
    records and click: dates that are time values.) *)
Theorem recordClick_appends_without_expiry_check
    (code : string) (click : ClickEvent) (w : World) :
  let urls := stored_urls w in
  ((forall url, url ∈ urls -> shortcode url <> code) ->
     exists l,
       recordClick code click w = (Ok tt, logged l w)
       /\ mkLog warn "storage" "Attempted to record click for non-existent URL" ∈ l
       /\ urls_item (logged l w) = urls_item w
       /\ stored_urls (logged l w) = urls)
  /\ (forall i url,
        urls !! i = Some url -> shortcode url = code ->
        (forall j url', (j < i)%nat -> urls !! j = Some url' -> shortcode url' <> code) ->
        writable w = true ->
        let clicked :=
          mkShortUrl (url_id url) (originalUrl url) (shortcode url) (createdAt url)
            (expiresAt url) (validityMinutes url) (clicks url ++ [click])
            (isCustomShortcode url) in
        exists w',
          recordClick code click w = (Ok tt, w')
          /\ urls_item w' = Document (JSON_stringify (<[i := clicked]> urls))
          /\ dates_taken w' = dates_taken w
          /\ (forallb well_formed_url urls = true -> well_formed_click click = true ->
              stored_urls w' = <[i := clicked]> urls
              /\ clicks <$> (stored_urls w' !! i) = Some (clicks url ++ [click])
              /\ (forall j, j <> i -> stored_urls w' !! j = urls !! j)
              /\ length (stored_urls w') = length urls
              /\ click_total (stored_urls w') = S (click_total urls))).
Proof.
  intros urls. destruct (loadUrls_run w) as [l Hl].
  unfold recordClick. rewrite (bind_ok _ _ _ _ _ Hl). fold urls. split.
  - intros Hnone. unfold findIndex.
    rewrite findIndex_from_none
      by (intros url Hin; apply String.eqb_neq; by apply Hnone).
    cbn.
    exists (l ++ [mkLog warn "storage" "Attempted to record click for non-existent URL"]).
    split; [|split; [apply elem_of_app; right; left | done]].
    unfold logged; cbn. by rewrite app_assoc.
  - intros i url Hi Hcode Hfirst Hw.
    set (clicked := mkShortUrl (url_id url) (originalUrl url) (shortcode url)
                      (createdAt url) (expiresAt url) (validityMinutes url)
                      (clicks url ++ [click]) (isCustomShortcode url)).
    unfold findIndex.
    rewrite (findIndex_from_first _ urls 0 i url Hi)
      by (try (by apply String.eqb_eq);
          intros j y Hj Hy; apply String.eqb_neq; by eapply Hfirst).
    destruct (0 + Z.of_nat i =? -1) eqn:E; [apply Z.eqb_eq in E; lia|].
    replace (Z.to_nat (0 + Z.of_nat i)) with i by lia.
    rewrite (alter_push_click click urls i url Hi).
    change (push_click click url) with clicked.
    destruct (saveUrls_ok (<[i := clicked]> urls) (logged l w) Hw)
      as (w1 & Hsave & Hitem & _ & Hd & _).
    rewrite (bind_ok _ _ _ _ _ Hsave). cbn.
    eexists. split; [reflexivity|]. cbn. split; [done|]. split; [done|].
    intros Hwf Hc.
    assert (Hstored : stored_urls w1 = <[i := clicked]> urls).
    { unfold stored_urls. rewrite Hitem. apply revive_stringify.
      change clicked with (push_click click url).
      rewrite <- (alter_push_click click urls i url Hi). by apply well_formed_alter. }
    assert (Hlt : (i < length urls)%nat) by (by eapply lookup_lt_Some).
    change (stored_urls {| urls_item := urls_item w1; writable := writable w1;
                          dates_taken := dates_taken w1;
                          randoms_taken := randoms_taken w1;
                          uuids_taken := uuids_taken w1;
                          fetches_made := fetches_made w1;
                          log := log w1 ++ [mkLog info "analytics" "URL clicked"] |})
      with (stored_urls w1).
    rewrite Hstored. split; [done|]. split; [|split; [|split]].
    + by rewrite list_lookup_insert_eq.
    + intros j Hj. by rewrite list_lookup_insert_ne.
    + by rewrite length_insert.
    + apply (click_total_insert urls i url clicked Hi). cbn.
      rewrite length_app. cbn. lia.
Qed.

Lemma recordClick_appends_without_expiry_check_witness :
  let expired := sample_url "promo1" 1700000000000 1 in
  let w := world_with [expired] in
  let click := sample_click 1800000000000 in
  (exists l, recordClick "never1" click w = (Ok tt, logged l w)
             /\ stored_urls (logged l w) = [expired])
  /\ (exists w', recordClick "promo1" click w = (Ok tt, w')
                /\ stored_urls w'
                   = [mkShortUrl "7f1c2d3e" "https://example.com" "promo1"
                        (Some 1700000000000) (Some 1700000060000) 1
                        [mkClickEvent "c0ffee00" (Some 1800000000000) "direct"
                           "Mozilla/5.0" None (Some (mkGeoLocation None None))]
                        false]).
Proof.
  intros expired w click. split.
  - destruct (recordClick_appends_without_expiry_check "never1" click w) as [Hnone _].
    destruct Hnone as (l & Hrun & _ & _ & Hsame).
    + intros url Hin. vm_compute in Hin. apply list_elem_of_singleton in Hin as ->.
      discriminate.
    + exists l. split; [exact Hrun|]. rewrite Hsame. vm_compute. reflexivity.
  - destruct (recordClick_appends_without_expiry_check "promo1" click w) as [_ Hfound].
    destruct (Hfound 0%nat expired) as (w' & Hrun & _ & _ & Hstored).
    + vm_compute. reflexivity.
    + reflexivity.
    + intros j url' Hj. lia.
    + reflexivity.
    + exists w'. split; [exact Hrun|].
      destruct Hstored as (-> & _); [vm_compute; reflexivity | reflexivity |].
      vm_compute. reflexivity.
Defined.

End RecordClick.

(** * Validation *)

Section ValidationFacts.
Import validation.
Variable P : Platform.

Lemma validateUrlRequest_run request w :
  exists l, validateUrlRequest P request w = (Ok (request_errors P request), logged l w).
Proof.
  unfold validateUrlRequest, bind. destruct (0 <? length _)%nat; cbn.
  - by eexists.
  - exists []. by rewrite logged_nil.
Qed.

Lemma forEach_run requests : forall index st w,
  exists l, forEach P requests index st w = (Ok (collect P requests index st), logged l w).
Proof.
  induction requests as [|request rest IH]; intros index st w; cbn [forEach collect].
  - exists []. by rewrite logged_nil.
  - destruct (validateUrlRequest_run request w) as [l1 H1].
    rewrite (bind_ok _ _ _ _ _ H1).
    destruct (IH (S index) (forEach_body request index (request_errors P request) st)
                (logged l1 w)) as [l2 H2].
    rewrite H2, logged_logged. by eexists.
Qed.

(** [validateUrlRequests] never throws and only logs. *)
Lemma validateUrlRequests_run requests w :
  exists l, validateUrlRequests P requests w = (Ok (validated P requests), logged l w).
Proof.
  unfold validateUrlRequests, validated.
  destruct (length requests =? 0)%nat; [by eexists|].
  destruct (5 <? length requests)%nat; [by eexists|].
  destruct (forEach_run requests 0 (mkCollected [] [] ∅) w) as [l Hl].
  rewrite (bind_ok _ _ _ _ _ Hl).
  exists (l ++ [mkLog info "validation" "Bulk validation completed"]).
  unfold logged; cbn. by rewrite app_assoc.
Qed.

(** *** What [forEach_body] does to the collected state *)

Lemma forEach_body_used request index st :
  usedShortcodes (forEach_body request index (request_errors P request) st)
  = match custom_code request with
    | Some c => {[c]} ∪ usedShortcodes st
    | None => usedShortcodes st
    end.
Proof.
  unfold forEach_body, custom_code.
  destruct (req_customShortcode request) as [c|]; [|by case_match].
  destruct (truthy c && negb (String.eqb (Str.trim c) "")); [|by case_match].
  case_bool_decide; case_match; cbn; set_solver.
Qed.

Lemma forEach_body_count request index st :
  let st' := forEach_body request index (request_errors P request) st in
  (length (valid st') + length (invalid st')
   = S (length (valid st) + length (invalid st)))%nat.
Proof.
  unfold forEach_body.
  destruct (match req_customShortcode request with Some _ => _ | None => _ end)
    as [errs used].
  destruct (length errs =? 0)%nat; cbn; rewrite length_app; cbn; lia.
Qed.

Lemma collect_count requests : forall index st,
  let st' := collect P requests index st in
  (length (valid st') + length (invalid st')
   = length (valid st) + length (invalid st) + length requests)%nat.
Proof.
  induction requests as [|request rest IH]; intros index st; cbn; [lia|].
  rewrite IH, forEach_body_count. lia.
Qed.

(** Every request of a batch of 1 to 5 ends up on exactly one side. *)
Lemma validated_count requests :
  (1 <= length requests <= 5)%nat ->
  (length (validated P requests).1 + length (validated P requests).2
   = length requests)%nat.
Proof.
  intros H. unfold validated.
  destruct (length requests =? 0)%nat eqn:E0; [apply Nat.eqb_eq in E0; lia|].
  destruct (5 <? length requests)%nat eqn:E5; [apply Nat.ltb_lt in E5; lia|].
  cbn [fst snd]. by rewrite collect_count.
Qed.

End ValidationFacts.

(** * Generating shortcodes *)

Section GenerationFacts.
Variable P : Platform.

Lemma advanced_zero w : advanced 0 0 0 0 w = w.
Proof. by destruct w. Qed.

Lemma advanced_advanced d1 r1 u1 f1 d2 r2 u2 f2 w :
  advanced d2 r2 u2 f2 (advanced d1 r1 u1 f1 w)
  = advanced (d1 + d2) (r1 + r2) (u1 + u2) (f1 + f2) w.
Proof. unfold advanced; cbn. f_equal; lia. Qed.

Lemma advanced_logged d r u f l w :
  advanced d r u f (logged l w) = logged l (advanced d r u f w).
Proof. reflexivity. Qed.

Lemma generateShortcode_loop_run count : forall result w,
  validation.generateShortcode_loop P count result w
  = (Ok (validation.drawn_loop P count result (randoms_taken w)),
     advanced 0 count 0 0 w).
Proof.
  induction count as [|count IH]; intros result w; cbn.
  - by rewrite advanced_zero.
  - unfold bind, Math_random_index. rewrite IH. cbn. f_equal.
    unfold advanced; cbn. f_equal. lia.
Qed.

Lemma generateShortcode_run n w :
  validation.generateShortcode P n w
  = (Ok (validation.drawn P n (randoms_taken w)), advanced 0 n 0 0 w).
Proof. apply generateShortcode_loop_run. Qed.

Lemma isShortcodeInUse_run code w :
  exists l, StorageService.isShortcodeInUse code w
            = (Ok (StorageService.in_use code w), logged l w).
Proof.
  destruct (loadUrls_run w) as [l Hl].
  unfold StorageService.isShortcodeInUse. rewrite (bind_ok _ _ _ _ _ Hl).
  by exists l.
Qed.

Lemma generateUniqueShortcode_unfold attempts :
  UrlService.generateUniqueShortcode P attempts
  = if decide (10 < attempts)%nat then throw UrlService.generation_failed
    else
      let! shortcode := validation.generateShortcode P 6 in
      let! inUse := StorageService.isShortcodeInUse shortcode in
      if inUse then UrlService.generateUniqueShortcode P (attempts + 1)
      else ret shortcode.
Proof.
  etransitivity; [apply UrlService.generateUniqueShortcode_equation_1|].
  by destruct (decide (10 < attempts)%nat).
Qed.

Lemma in_use_quiet code l d r u f w :
  StorageService.in_use code (logged l (advanced d r u f w))
  = StorageService.in_use code w.
Proof. reflexivity. Qed.

Lemma candidate_next l w k :
  UrlService.candidate P (logged l (advanced 0 6 0 0 w)) k
  = UrlService.candidate P w (S k).
Proof.
  unfold UrlService.candidate.
  change (randoms_taken (logged l (advanced 0 6 0 0 w))) with (6 + randoms_taken w)%nat.
  f_equal. lia.
Qed.

(** One round of [generateUniqueShortcode]: six draws and a look at the
    store. *)
Lemma generateUniqueShortcode_step attempts w :
  (attempts <= 10)%nat ->
  exists l,
    UrlService.generateUniqueShortcode P attempts w
    = if StorageService.in_use (UrlService.candidate P w 0) w
      then UrlService.generateUniqueShortcode P (attempts + 1)
             (logged l (advanced 0 6 0 0 w))
      else (Ok (UrlService.candidate P w 0), logged l (advanced 0 6 0 0 w)).
Proof.
  intros Ha. rewrite generateUniqueShortcode_unfold.
  destruct (decide (10 < attempts)%nat); [lia|].
  rewrite (bind_ok _ _ _ _ _ (generateShortcode_run 6 w)).
  destruct (isShortcodeInUse_run (validation.drawn P 6 (randoms_taken w))
              (advanced 0 6 0 0 w)) as [l Hl].
  rewrite (bind_ok _ _ _ _ _ Hl). exists l.
  unfold UrlService.candidate. rewrite Nat.mul_0_r, Nat.add_0_r.
  change (StorageService.in_use ?c (advanced 0 6 0 0 w))
    with (StorageService.in_use c w).
  by destruct (StorageService.in_use _ w).
Qed.

(** Eleven codes in use, counted from the attempt the call starts at, and
    the generation gives up. *)
Lemma generateUniqueShortcode_exhausted n : forall attempts w,
  (attempts + n = 11)%nat ->
  (forall k, (k < n)%nat ->
     StorageService.in_use (UrlService.candidate P w k) w = true) ->
  exists l,
    UrlService.generateUniqueShortcode P attempts w
    = (Throw UrlService.generation_failed, logged l (advanced 0 (6 * n) 0 0 w)).
Proof.
  induction n as [|n IH]; intros attempts w Ha Hused.
  - rewrite generateUniqueShortcode_unfold.
    destruct (decide (10 < attempts)%nat); [|lia].
    exists []. by rewrite logged_nil, advanced_zero.
  - destruct (generateUniqueShortcode_step attempts w) as [l1 H1]; [lia|].
    rewrite H1, (Hused 0%nat) by lia.
    destruct (IH (attempts + 1)%nat (logged l1 (advanced 0 6 0 0 w))) as [l2 H2].
    + lia.
    + intros k Hk. rewrite candidate_next, in_use_quiet. apply Hused. lia.
    + rewrite H2. exists (l1 ++ l2). f_equal.
      rewrite advanced_logged, logged_logged, advanced_advanced.
      do 2 f_equal; lia.
Qed.

(** The first free code among those the attempts left allow is the answer. *)
Lemma generateUniqueShortcode_finds j : forall attempts w,
  (attempts + j <= 10)%nat ->
  (forall k, (k < j)%nat ->
     StorageService.in_use (UrlService.candidate P w k) w = true) ->
  StorageService.in_use (UrlService.candidate P w j) w = false ->
  exists l,
    UrlService.generateUniqueShortcode P attempts w
    = (Ok (UrlService.candidate P w j), logged l (advanced 0 (6 * S j) 0 0 w)).
Proof.
  induction j as [|j IH]; intros attempts w Ha Hused Hfree.
  - destruct (generateUniqueShortcode_step attempts w) as [l1 H1]; [lia|].
    rewrite H1, Hfree. by exists l1.
  - destruct (generateUniqueShortcode_step attempts w) as [l1 H1]; [lia|].
    rewrite H1, (Hused 0%nat) by lia.
    destruct (IH (attempts + 1)%nat (logged l1 (advanced 0 6 0 0 w))) as [l2 H2].
    + lia.
    + intros k Hk. rewrite candidate_next, in_use_quiet. apply Hused. lia.
    + by rewrite candidate_next, in_use_quiet.
    + rewrite H2, candidate_next. exists (l1 ++ l2). f_equal.
      rewrite advanced_logged, logged_logged, advanced_advanced.
      do 2 f_equal; lia.
Qed.

(** Whatever it answers, [generateUniqueShortcode] only draws and logs. *)
Lemma generateUniqueShortcode_quiet n : forall attempts w,
  (11 - attempts = n)%nat ->
  exists result l r,
    UrlService.generateUniqueShortcode P attempts w
    = (result, logged l (advanced 0 r 0 0 w)).
Proof.
  induction n as [|n IH]; intros attempts w Ha.
  - rewrite generateUniqueShortcode_unfold.
    destruct (decide (10 < attempts)%nat); [|lia].
    exists (Throw UrlService.generation_failed), [], 0%nat.
    by rewrite logged_nil, advanced_zero.
  - destruct (generateUniqueShortcode_step attempts w) as [l1 H1]; [lia|].
    rewrite H1. destruct (StorageService.in_use _ w).
    + destruct (IH (attempts + 1)%nat (logged l1 (advanced 0 6 0 0 w)))
        as (result & l2 & r & H2); [lia|].
      rewrite H2. exists result, (l1 ++ l2), (6 + r)%nat. f_equal.
      by rewrite advanced_logged, logged_logged, advanced_advanced.
    + by eexists _, _, _.
Qed.

End GenerationFacts.

(** * Creating records *)

Section CreationFacts.
Variable P : Platform.

Lemma createSingleUrl_custom request raw w :
  req_customShortcode request = Some raw ->
  truthy raw && negb (String.eqb (Str.trim raw) "") = true ->
  exists l,
    UrlService.createSingleUrl P request w
    = if StorageService.in_use (validation.sanitizeShortcode raw) w
      then (Throw (UrlService.already_in_use (validation.sanitizeShortcode raw)),
            logged l w)
      else
        let url := UrlService.new_url P request (validation.sanitizeShortcode raw)
                     true w in
        match expiresAt url with
        | Some _ =>
            (Ok url,
             logged (l ++ [mkLog info "url-shortener" "Single URL created"])
               (advanced 1 0 1 0 w))
        | None => (Throw "Invalid time value", logged l (advanced 1 0 1 0 w))
        end.
Proof.
  intros Hraw Hcond.
  destruct (isShortcodeInUse_run (validation.sanitizeShortcode raw) w) as [l Hl].
  exists l. unfold UrlService.createSingleUrl. rewrite Hraw, Hcond.
  unfold bind. rewrite Hl.
  destruct (StorageService.in_use _ w); cbn; [reflexivity|].
  fold (UrlService.validity_of request). unfold UrlService.new_url.
  destruct (Date_of_number _) as [e|] eqn:He; cbn; [|reflexivity].
  unfold logged; cbn. by rewrite app_assoc.
Qed.

Lemma createSingleUrl_generated request w :
  validation.custom_code request = None ->
  UrlService.createSingleUrl P request w
  = match UrlService.generateUniqueShortcode P 0 w with
    | (Ok code, w1) =>
        let url := UrlService.new_url P request code false w1 in
        match expiresAt url with
        | Some _ =>
            (Ok url,
             logged [mkLog info "url-shortener" "Single URL created"]
               (advanced 1 0 1 0 w1))
        | None => (Throw "Invalid time value", advanced 1 0 1 0 w1)
        end
    | (Throw msg, w1) => (Throw msg, w1)
    end.
Proof.
  intros Hnone. unfold UrlService.createSingleUrl, validation.custom_code in *.
  assert (E : forall (m : M string) (k : string * bool -> M ShortUrl),
            bind (let! shortcode := m in ret (shortcode, false)) k w
            = match m w with
              | (Ok code, w1) => k (code, false) w1
              | (Throw msg, w1) => (Throw msg, w1)
              end).
  { intros m k. unfold bind. by destruct (m w) as [[code|msg] w1]. }
  destruct (req_customShortcode request) as [raw|].
  - destruct (truthy raw && negb (String.eqb (Str.trim raw) "")); [done|].
    rewrite E. destruct (UrlService.generateUniqueShortcode P 0 w) as [[code|msg] w1];
      [|reflexivity].
    cbn. fold (UrlService.validity_of request). unfold UrlService.new_url.
    by destruct (Date_of_number _) as [e|] eqn:He.
  - rewrite E. destruct (UrlService.generateUniqueShortcode P 0 w) as [[code|msg] w1];
      [|reflexivity].
    cbn. fold (UrlService.validity_of request). unfold UrlService.new_url.
    by destruct (Date_of_number _) as [e|] eqn:He.
Qed.

(** [createSingleUrl] never writes to the store: whatever it answers, it
    has only read the clock, drawn, taken an identifier and logged. *)
Lemma createSingleUrl_quiet request w :
  exists result l d r u,
    UrlService.createSingleUrl P request w = (result, logged l (advanced d r u 0 w)).
Proof.
  destruct (validation.custom_code request) as [c|] eqn:Hc.
  - unfold validation.custom_code in Hc.
    destruct (req_customShortcode request) as [raw|] eqn:Hraw; [|done].
    destruct (truthy raw && negb (String.eqb (Str.trim raw) "")) eqn:Hcond; [|done].
    destruct (createSingleUrl_custom request raw w Hraw Hcond) as [l ->].
    destruct (StorageService.in_use _ w).
    + exists (Throw (UrlService.already_in_use (validation.sanitizeShortcode raw))),
        l, 0%nat, 0%nat, 0%nat.
      by rewrite advanced_zero.
    + cbv zeta. destruct (expiresAt _); by eexists _, _, _, _, _.
  - rewrite (createSingleUrl_generated request w Hc).
    destruct (generateUniqueShortcode_quiet P 11 0 w eq_refl) as (result & l & r & ->).
    destruct result as [code|msg].
    + cbv zeta. destruct (expiresAt _).
      * eexists _, (l ++ [mkLog info "url-shortener" "Single URL created"]),
          1%nat, r, 1%nat.
        same_world.
      * eexists _, l, 1%nat, r, 1%nat. same_world.
    + eexists _, l, 0%nat, r, 0%nat. same_world.
Qed.

Lemma saveUrls_run urls w :
  writable w = true ->
  StorageService.saveUrls urls w
  = (Ok tt, logged [mkLog info "storage" "URLs saved to localStorage"]
              (StorageService.saved urls w)).
Proof.
  intros Hw.
  unfold StorageService.saveUrls, try_catch, bind, localStorage_setItem,
    StorageService.saved, logged.
  cbn. by rewrite !Hw.
Qed.

(** [addUrls] writes the stored collection followed by the new records. *)
Lemma addUrls_run newUrls w :
  writable w = true ->
  exists l,
    StorageService.addUrls newUrls w
    = (Ok tt, logged l (StorageService.saved
                          (StorageService.stored_urls w ++ newUrls) w)).
Proof.
  intros Hw. destruct (loadUrls_run w) as [l Hl].
  unfold StorageService.addUrls. rewrite (bind_ok _ _ _ _ _ Hl).
  rewrite (bind_ok _ _ _ _ _
             (saveUrls_run (StorageService.stored_urls w ++ newUrls) (logged l w) Hw)).
  exists (l ++ [mkLog info "storage" "URLs saved to localStorage";
                mkLog info "url-shortener" "Multiple URLs created"]).
  unfold logger_logUrlEvent, logger_info, logger_Log, StorageService.saved.
  same_world.
Qed.

(** One turn of the loop over the valid requests. *)
Lemma process_valid_cons requests request rest success finalErrors w :
  UrlService.process_valid P requests (request :: rest) success finalErrors w
  = match UrlService.createSingleUrl P request w with
    | (Ok shortUrl, w1) =>
        UrlService.process_valid P requests rest (success ++ [shortUrl])
          finalErrors w1
    | (Throw msg, w1) =>
        UrlService.process_valid P requests rest success
          (finalErrors
             ++ [mkErrorEntry (UrlService.reported_index requests request) msg]) w1
    end.
Proof.
  cbn [UrlService.process_valid]. unfold bind at 1, try_catch, bind at 1.
  by destruct (UrlService.createSingleUrl P request w) as [[shortUrl|msg] w1].
Qed.

(** The loop never throws and never writes; every valid request adds one
    record or one error. *)
Lemma process_valid_quiet requests valid : forall success finalErrors w,
  exists s e l d r u,
    UrlService.process_valid P requests valid success finalErrors w
    = (Ok (success ++ s, finalErrors ++ e), logged l (advanced d r u 0 w))
    /\ (length s + length e = length valid)%nat.
Proof.
  induction valid as [|request rest IH]; intros success finalErrors w.
  - exists [], [], [], 0%nat, 0%nat, 0%nat. rewrite !app_nil_r. split; [|done].
    cbn. unfold ret. by rewrite logged_nil, advanced_zero.
  - rewrite process_valid_cons.
    destruct (createSingleUrl_quiet request w) as (result & l1 & d1 & r1 & u1 & ->).
    destruct result as [shortUrl|msg].
    + destruct (IH (success ++ [shortUrl]) finalErrors
                  (logged l1 (advanced d1 r1 u1 0 w)))
        as (s & e & l2 & d2 & r2 & u2 & -> & Hlen).
      exists (shortUrl :: s), e, (l1 ++ l2), (d1 + d2)%nat, (r1 + r2)%nat,
        (u1 + u2)%nat.
      split; [|cbn; lia]. rewrite <- app_assoc. cbn [app]. f_equal. same_world.
    + destruct (IH success
                  (finalErrors
                     ++ [mkErrorEntry (UrlService.reported_index requests request) msg])
                  (logged l1 (advanced d1 r1 u1 0 w)))
        as (s & e & l2 & d2 & r2 & u2 & -> & Hlen).
      exists s, (mkErrorEntry (UrlService.reported_index requests request) msg :: e),
        (l1 ++ l2), (d1 + d2)%nat, (r1 + r2)%nat, (u1 + u2)%nat.
      split; [|cbn; lia]. rewrite <- app_assoc. cbn [app]. f_equal. same_world.
Qed.

(** [createUrls], cut at the loop and at the write. *)
Lemma createUrls_unfold requests w :
  exists l,
    UrlService.createUrls P requests w
    = match UrlService.process_valid P requests (validation.validated P requests).1 []
              (map UrlService.response_error (validation.validated P requests).2)
              (logged l w) with
      | (Ok (success, finalErrors), w1) =>
          match (if (0 <? length success)%nat
                 then StorageService.addUrls success else ret tt) w1 with
          | (Ok _, w2) =>
              (Ok (mkResponse success finalErrors),
               logged [mkLog info "url-shortener" "Bulk URL creation completed"] w2)
          | (Throw msg, w2) => (Throw msg, w2)
          end
      | (Throw msg, w1) => (Throw msg, w1)
      end.
Proof.
  destruct (validateUrlRequests_run P requests
              (logged [mkLog info "url-shortener" "Bulk URL creation started"] w))
    as [l Hl].
  exists ([mkLog info "url-shortener" "Bulk URL creation started"] ++ l).
  rewrite <- logged_logged.
  unfold UrlService.createUrls. unfold bind at 1.
  unfold logger_logUrlEvent at 1, logger_info at 1. rewrite logger_Log_run.
  unfold bind at 1. rewrite Hl.
  destruct (validation.validated P requests) as [valid invalid]. cbn [fst snd].
  unfold bind at 1. fold UrlService.response_error.
  destruct (UrlService.process_valid _ _ _ _ _ _) as [[[success finalErrors]|msg] w1];
    [|reflexivity].
  unfold bind at 1.
  destruct (0 <? length success)%nat; [|reflexivity].
  destruct (StorageService.addUrls success w1) as [[[]|msg] w2]; reflexivity.
Qed.

(** Over a store that can be written [createUrls] answers a response: the
    validation entries first, then the creation errors. *)
Lemma createUrls_writable_run requests w :
  writable w = true ->
  exists response w' e,
    UrlService.createUrls P requests w = (Ok response, w')
    /\ errors response
       = map UrlService.response_error (validation.validated P requests).2 ++ e.
Proof.
  intros Hw. destruct (createUrls_unfold requests w) as [l0 ->].
  destruct (process_valid_quiet requests (validation.validated P requests).1 []
              (map UrlService.response_error (validation.validated P requests).2)
              (logged l0 w))
    as (s & e & l & d & r & u & -> & Hlen).
  cbn [app]. destruct (0 <? length s)%nat.
  - destruct (addUrls_run s (logged l (advanced d r u 0 (logged l0 w))) Hw) as [l' ->].
    eexists _, _, e. split; reflexivity.
  - unfold ret. eexists _, _, e. split; reflexivity.
Qed.

End CreationFacts.

(** * Batches *)

(** Claim C6. A batch that is empty or holds more than 5 requests is
    rejected as a whole: [validateUrlRequests] passes no request on as valid
    and answers one entry, at index 0, with the one general error; the
    response of [createUrls] has no success and that one error at index 0,
    and nothing but the log has changed, so no record is created. *)
Theorem createUrls_rejects_batch_size
    (P : Platform) (requests : list CreateUrlRequest) (w : World) :
  let msg := if (length requests =? 0)%nat
             then "At least one URL is required"
             else "Maximum 5 URLs allowed per request" in
  (length requests = 0 \/ 5 < length requests)%nat ->
  (exists l,
     validation.validateUrlRequests P requests w
     = (Ok ([], [validation.mkIndexedErrors 0 [mkValidationError "general" msg]]),
        logged l w))
  /\ (exists l,
        UrlService.createUrls P requests w
        = (Ok (mkResponse [] [mkErrorEntry 0 msg]), logged l w)).
Proof.
  intros msg Hsize.
  assert (Hv : validation.validated P requests
               = ([], [validation.mkIndexedErrors 0 [mkValidationError "general" msg]])).
  { unfold validation.validated, msg.
    destruct (length requests =? 0)%nat eqn:E0; [done|].
    destruct (5 <? length requests)%nat eqn:E5; [done|].
    apply Nat.eqb_neq in E0. apply Nat.ltb_ge in E5. lia. }
  split.
  - destruct (validateUrlRequests_run P requests w) as [l Hl].
    exists l. by rewrite Hl, Hv.
  - destruct (createUrls_unfold P requests w) as [l Hl].
    rewrite Hl, Hv. cbn. exists (l ++ [mkLog info "url-shortener" "Bulk URL creation completed"]).
    same_world.
Qed.

Lemma createUrls_rejects_batch_size_witness :
  let requests := replicate 6 (mkRequest "https://example.com" None None) in
  exists l,
    UrlService.createUrls (sample_platform 1700000000000 (fun _ => 0%nat)) requests
      empty_world
    = (Ok (mkResponse [] [mkErrorEntry 0 "Maximum 5 URLs allowed per request"]),
       logged l empty_world).
Proof.
  intros requests.
  destruct (createUrls_rejects_batch_size
              (sample_platform 1700000000000 (fun _ => 0%nat)) requests empty_world)
    as [_ H]; [right; vm_compute; lia | exact H].
Defined.

(** Claim C2. For a batch of 1 to 5 requests over a store that can be
    written, [createUrls] answers a response, and every request is accounted
    for once, as a created record or as an error:
    [success.length + errors.length = requests.length]. The count holds of
    whatever response [createUrls] answers, also when the store cannot be
    written. *)
Theorem createUrls_accounts_for_every_request
    (P : Platform) (requests : list CreateUrlRequest) (w : World) :
  (1 <= length requests <= 5)%nat ->
  (writable w = true ->
   exists response w', UrlService.createUrls P requests w = (Ok response, w'))
  /\ (forall response w',
        UrlService.createUrls P requests w = (Ok response, w') ->
        (length (success response) + length (errors response)
         = length requests)%nat).
Proof.
  intros Hsize.
  destruct (createUrls_unfold P requests w) as [l0 ->].
  destruct (process_valid_quiet P requests (validation.validated P requests).1 []
              (map UrlService.response_error (validation.validated P requests).2)
              (logged l0 w))
    as (s & e & l & d & r & u & -> & Hlen).
  pose proof (validated_count P requests Hsize) as Hcount.
  cbn [app]. split.
  - intros Hw. destruct (0 <? length s)%nat; [|by eexists _, _].
    destruct (addUrls_run s (logged l (advanced d r u 0 (logged l0 w))) Hw) as [l' ->].
    by eexists _, _.
  - intros response w' Hrun.
    assert (response = mkResponse s (map UrlService.response_error
                                       (validation.validated P requests).2 ++ e))
      as ->.
    { destruct (0 <? length s)%nat;
        [destruct (StorageService.addUrls s _) as [[[]|msg] w2] | unfold ret in Hrun];
        congruence. }
    cbn. rewrite length_app, length_map. lia.
Qed.

Lemma createUrls_accounts_for_every_request_witness :
  let P := sample_platform 1700000000000 (fun _ => 0%nat) in
  let w := world_with [sample_url "promo1" 1700000000000 30] in
  let requests :=
    [ mkRequest "https://example.com/a" None None;
      mkRequest "ftp://example.com/b" (Some 15) None;
      mkRequest "https://example.com/c" None (Some "promo1") ] in
  (exists response w', UrlService.createUrls P requests w = (Ok response, w'))
  /\ (forall response w',
        UrlService.createUrls P requests w = (Ok response, w') ->
        (length (success response) + length (errors response) = 3)%nat).
Proof.
  intros P w requests.
  destruct (createUrls_accounts_for_every_request P requests w) as [Hruns Hcount];
    [vm_compute; lia|].
  split; [apply Hruns; reflexivity | exact Hcount].
Defined.

(** * Exhausting the generation *)

Section SingleRequest.
Variable P : Platform.

Lemma reported_index_head request rest :
  UrlService.reported_index (request :: rest) request = 0.
Proof.
  unfold UrlService.reported_index, findIndex. cbn.
  by rewrite String.eqb_refl, bool_decide_true.
Qed.

(** A request without errors and without a custom shortcode is valid on
    its own. *)
Lemma validated_single request :
  validation.request_errors P request = [] ->
  validation.custom_code request = None ->
  validation.validated P [request] = ([request], []).
Proof.
  intros Herr Hnone. unfold validation.validated. cbn.
  unfold validation.forEach_body, validation.custom_code in *. rewrite Herr.
  destruct (req_customShortcode request) as [raw|]; [|done].
  by destruct (truthy raw && negb (String.eqb (Str.trim raw) "")).
Qed.

End SingleRequest.

(** Claim C3, as the code has it. [generateUniqueShortcode] gives up when
    [attempts > 10], [attempts] counting from 0: it draws up to 11 codes,
    the first and 10 more on collision. When the first 11 codes drawn are
    all in use it throws the generation error, and [createUrls] reports it
    for the request as a creation failure (index of the request, message of
    the error, no validation entry); when one of the first 11 is free, the
    first free one is the shortcode. *)
Theorem generation_exhausted_after_eleven_codes (P : Platform) (w : World) :
  let taken k := StorageService.in_use (UrlService.candidate P w k) w in
  ((forall k, (k < 11)%nat -> taken k = true) ->
   (exists l,
      UrlService.generateUniqueShortcode P 0 w
      = (Throw UrlService.generation_failed, logged l (advanced 0 66 0 0 w)))
   /\ (forall request,
         validation.request_errors P request = [] ->
         validation.custom_code request = None ->
         exists l,
           UrlService.createUrls P [request] w
           = (Ok (mkResponse [] [mkErrorEntry 0 UrlService.generation_failed]),
              logged l (advanced 0 66 0 0 w))))
  /\ (forall j,
        (j < 11)%nat -> (forall k, (k < j)%nat -> taken k = true) -> taken j = false ->
        exists l,
          UrlService.generateUniqueShortcode P 0 w
          = (Ok (UrlService.candidate P w j), logged l (advanced 0 (6 * S j) 0 0 w))).
Proof.
  intros taken. split.
  - intros Htaken. split.
    + destruct (generateUniqueShortcode_exhausted P 11 0 w) as [l Hl]; [lia|done|].
      by exists l.
    + intros request Herr Hnone.
      destruct (createUrls_unfold P [request] w) as [l0 ->].
      rewrite (validated_single P request Herr Hnone). cbn [fst snd map].
      rewrite process_valid_cons, (createSingleUrl_generated P request _ Hnone).
      destruct (generateUniqueShortcode_exhausted P 11 0 (logged l0 w)) as [l ->];
        [lia|done|].
      rewrite reported_index_head. cbn.
      exists (l0 ++ l ++ [mkLog info "url-shortener" "Bulk URL creation completed"]).
      same_world.
  - intros j Hj Hbefore Hfree.
    destruct (generateUniqueShortcode_finds P j 0 w) as [l Hl]; [lia|done|done|].
    by exists l.
Qed.

Lemma generation_exhausted_after_eleven_codes_witness :
  let P := sample_platform 1700000000000 (fun k => (k / 6)%nat) in
  let w := world_with
             (map (fun code => sample_url code 1700000000000 30)
                ["aaaaaa"; "bbbbbb"; "cccccc"; "dddddd"; "eeeeee"; "ffffff";
                 "gggggg"; "hhhhhh"; "iiiiii"; "jjjjjj"; "kkkkkk"]) in
  exists l,
    UrlService.createUrls P [mkRequest "https://example.com" None None] w
    = (Ok (mkResponse [] [mkErrorEntry 0 UrlService.generation_failed]),
       logged l (advanced 0 66 0 0 w)).
Proof.
  intros P w.
  destruct (generation_exhausted_after_eleven_codes P w) as [Hexhausted _].
  destruct Hexhausted as [_ Hcreate].
  - intros k Hk.
    do 11 (destruct k as [|k]; [vm_compute; reflexivity|]). lia.
  - apply Hcreate; vm_compute; reflexivity.
Defined.

(** Ten codes in use do not exhaust the generation: with the store holding
    the first 10 codes drawn and the 11th free, [generateUniqueShortcode]
    answers the 11th and [createUrls] creates the record, with no error. *)
Lemma ten_codes_in_use_do_not_exhaust :
  let P := sample_platform 1700000000000 (fun k => (k / 6)%nat) in
  let w := world_with
             (map (fun code => sample_url code 1700000000000 30)
                ["aaaaaa"; "bbbbbb"; "cccccc"; "dddddd"; "eeeeee"; "ffffff";
                 "gggggg"; "hhhhhh"; "iiiiii"; "jjjjjj"]) in
  forallb (fun k => StorageService.in_use (UrlService.candidate P w k) w) (seq 0 10)
  = true
  /\ (UrlService.generateUniqueShortcode P 0 w).1 = Ok "kkkkkk"
  /\ (UrlService.createUrls P [mkRequest "https://example.com" None None] w).1
     = Ok (mkResponse
             [mkShortUrl "0b5e7a1c" "https://example.com" "kkkkkk"
                (Some 1700000000000) (Some 1700001800000) 30 [] false]
             []).
Proof. vm_compute. repeat split. Qed.

(** Claim C4, where it fails. Two requests for the same URL, neither with a
    custom shortcode, differ in their validity only. The first is created
    (the code drawn for it is free); for the second every code drawn is in
    use and the generation gives up. The error is reported at index 0, the
    first request with the URL and the (absent) custom shortcode of the
    failing one, while the failing request stands at position 1. *)
Theorem creation_error_reported_at_first_match :
  let P := sample_platform 1700000000000 (fun k => if (k <? 6)%nat then 1 else 0)%nat in
  let w := world_with [sample_url "aaaaaa" 1700000000000 30] in
  let requests := [ mkRequest "https://example.com" (Some 5) None;
                    mkRequest "https://example.com" (Some 60) None ] in
  (validation.validated P requests).2 = []
  /\ (UrlService.createUrls P requests w).1
     = Ok (mkResponse
             [mkShortUrl "0b5e7a1c" "https://example.com" "bbbbbb"
                (Some 1700000000000) (Some 1700000300000) 5 [] false]
             [mkErrorEntry 0 UrlService.generation_failed]).
Proof. vm_compute. repeat split. Qed.

(** * Custom shortcodes repeated in a batch *)

Section DuplicateFacts.
Import validation.
Variable P : Platform.

Lemma forEach_body_duplicate request index st c :
  custom_code request = Some c -> c ∈ usedShortcodes st ->
  forEach_body request index (request_errors P request) st
  = mkCollected (valid st)
      (invalid st ++ [mkIndexedErrors index (request_errors P request ++ [duplicate_error])])
      (usedShortcodes st).
Proof.
  unfold forEach_body, custom_code. intros Hc Hused.
  destruct (req_customShortcode request) as [raw|]; [|done].
  destruct (truthy raw && negb (String.eqb (Str.trim raw) "")); [|done].
  injection Hc as ->. rewrite bool_decide_true by done.
  rewrite length_app, Nat.add_comm. reflexivity.
Qed.

(** A request whose custom shortcode (if any) was not seen before is judged
    on its own errors. *)
Lemma forEach_body_fresh request index st :
  (forall c, custom_code request = Some c -> c ∉ usedShortcodes st) ->
  forEach_body request index (request_errors P request) st
  = let used := match custom_code request with
                | Some c => {[c]} ∪ usedShortcodes st
                | None => usedShortcodes st
                end in
    if (length (request_errors P request) =? 0)%nat
    then mkCollected (valid st ++ [request]) (invalid st) used
    else mkCollected (valid st)
           (invalid st ++ [mkIndexedErrors index (request_errors P request)]) used.
Proof.
  unfold forEach_body, custom_code. intros Hfresh.
  destruct (req_customShortcode request) as [raw|]; [|done].
  destruct (truthy raw && negb (String.eqb (Str.trim raw) "")); [|done].
  by rewrite bool_decide_false by (by apply Hfresh).
Qed.

Lemma forEach_body_invalid_mono request index errs st x :
  x ∈ invalid st -> x ∈ invalid (forEach_body request index errs st).
Proof.
  unfold forEach_body. intros Hx.
  destruct (match req_customShortcode request with Some _ => _ | None => _ end)
    as [errs' used].
  destruct (length errs' =? 0)%nat; cbn; [done|]. apply elem_of_app. by left.
Qed.

Lemma collect_invalid_mono requests : forall index st x,
  x ∈ invalid st -> x ∈ invalid (collect P requests index st).
Proof.
  induction requests as [|request rest IH]; intros index st x Hx; [done|].
  cbn. by apply IH, forEach_body_invalid_mono.
Qed.

(** A request whose custom shortcode was used by the requests before it
    gets an entry at its own index: its own errors, then the duplicate. *)
Lemma collect_duplicate requests : forall index st i ri c,
  requests !! i = Some ri -> custom_code ri = Some c ->
  (c ∈ usedShortcodes st
   \/ exists j rj, (j < i)%nat /\ requests !! j = Some rj /\ custom_code rj = Some c) ->
  mkIndexedErrors (index + i) (request_errors P ri ++ [duplicate_error])
    ∈ invalid (collect P requests index st).
Proof.
  induction requests as [|request rest IH]; intros index st i ri c Hi Hc Hused; [done|].
  cbn [collect]. destruct i as [|i].
  - injection Hi as ->. destruct Hused as [Hused|(j & rj & Hj & _)]; [|lia].
    rewrite (forEach_body_duplicate _ _ _ c Hc Hused), Nat.add_0_r.
    apply collect_invalid_mono. cbn. apply elem_of_app. right. left.
  - cbn in Hi. replace (index + S i)%nat with (S index + i)%nat by lia.
    apply (IH _ _ _ _ c Hi Hc). rewrite forEach_body_used.
    destruct Hused as [Hused|(j & rj & Hj & Hrj & Hcj)].
    + left. destruct (custom_code request); set_solver.
    + destruct j as [|j].
      * left. injection Hrj as ->. rewrite Hcj. set_solver.
      * right. exists j, rj. split; [lia|done].
Qed.

Lemma validated_duplicate requests i j ri rj c :
  (1 <= length requests <= 5)%nat ->
  (j < i)%nat -> requests !! j = Some rj -> requests !! i = Some ri ->
  custom_code rj = Some c -> custom_code ri = Some c ->
  mkIndexedErrors i (request_errors P ri ++ [duplicate_error])
    ∈ (validated P requests).2.
Proof.
  intros Hsize Hj Hrj Hri Hcj Hci. unfold validated.
  destruct (length requests =? 0)%nat eqn:E0; [apply Nat.eqb_eq in E0; lia|].
  destruct (5 <? length requests)%nat eqn:E5; [apply Nat.ltb_lt in E5; lia|].
  cbn [snd]. apply (collect_duplicate requests 0 _ i ri c Hri Hci).
  right. by exists j, rj.
Qed.

Lemma filter_chars_all p s :
  Str.forall_chars p s = true -> Str.filter_chars p s = s.
Proof.
  induction s as [|ch s IH]; [done|]. cbn. intros [Hc Hs]%andb_prop.
  by rewrite Hc, IH.
Qed.

(** [sanitizeShortcode] leaves a custom shortcode that passed validation
    as the batch check compares it. *)
Lemma sanitizeShortcode_valid request raw c :
  req_customShortcode request = Some raw -> custom_code request = Some c ->
  customShortcode_errors request = [] ->
  sanitizeShortcode raw = c.
Proof.
  unfold custom_code, customShortcode_errors, sanitizeShortcode. intros -> Hc Herr.
  destruct (truthy raw); cbn in Hc; [|done].
  destruct (negb (String.eqb (Str.trim raw) "")); [|done].
  injection Hc as <-.
  destruct (isValidShortcode (Str.trim raw)) eqn:Hv; [|done].
  unfold isValidShortcode in Hv. apply andb_prop in Hv as [[Hv _]%andb_prop _].
  by apply filter_chars_all.
Qed.

Lemma validity_of_range request :
  validityMinutes_errors request = [] ->
  1 <= UrlService.validity_of request <= 10080.
Proof.
  unfold validityMinutes_errors, UrlService.validity_of, isValidValidityMinutes.
  destruct (req_validityMinutes request) as [m|]; [|lia].
  destruct (0 <? m) eqn:E1; [|done]. destruct (m <=? 10080) eqn:E2; [|done].
  intros _. apply Z.ltb_lt in E1. apply Z.leb_le in E2.
  destruct (m =? 0) eqn:E0; [apply Z.eqb_eq in E0|]; lia.
Qed.

Lemma request_errors_nil request :
  request_errors P request = [] ->
  originalUrl_errors P request = [] /\ validityMinutes_errors request = []
  /\ customShortcode_errors request = [].
Proof.
  unfold request_errors. intros [H1 [H2 H3]%app_eq_nil]%app_eq_nil. done.
Qed.

End DuplicateFacts.

Section DuplicateBatch.
Variable P : Platform.

(** Two valid requests with one custom shortcode: the first passes, the
    second is the duplicate. *)
Lemma validated_pair r0 r1 c :
  validation.request_errors P r0 = [] -> validation.request_errors P r1 = [] ->
  validation.custom_code r0 = Some c -> validation.custom_code r1 = Some c ->
  validation.validated P [r0; r1] = ([r0], [validation.mkIndexedErrors 1 [validation.duplicate_error]]).
Proof.
  intros H0 H1 Hc0 Hc1. unfold validation.validated. cbn.
  rewrite (forEach_body_fresh P r0 0) by (intros ? _; apply not_elem_of_empty).
  rewrite H0, Hc0. cbn.
  rewrite (forEach_body_duplicate P r1 1 _ c Hc1) by (cbn; set_solver).
  by rewrite H1.
Qed.

Lemma createUrls_pair r0 r1 c w :
  validation.request_errors P r0 = [] -> validation.request_errors P r1 = [] ->
  validation.custom_code r0 = Some c -> validation.custom_code r1 = Some c ->
  StorageService.in_use c w = false ->
  Z.abs (clock P (dates_taken w)) + 604800000 <= Time.maxTime ->
  writable w = true ->
  let url := UrlService.new_url P r0 c true w in
  exists l,
    UrlService.createUrls P [r0; r1] w
    = (Ok (mkResponse [url] [mkErrorEntry 1 "Duplicate shortcode in request"]),
       logged l (StorageService.saved (StorageService.stored_urls w ++ [url])
                   (advanced 1 0 1 0 w))).
Proof.
  intros H0 H1 Hc0 Hc1 Hfree Hclock Hw url.
  destruct (request_errors_nil P r0 H0) as (_ & Hm & Hs).
  pose proof (validity_of_range r0 Hm) as Hrange.
  destruct (createUrls_unfold P [r0; r1] w) as [l0 ->].
  rewrite (validated_pair r0 r1 c H0 H1 Hc0 Hc1). cbn [fst snd map].
  rewrite process_valid_cons.
  assert (Hraw : exists raw, req_customShortcode r0 = Some raw
                 /\ truthy raw && negb (String.eqb (Str.trim raw) "") = true).
  { unfold validation.custom_code in Hc0. destruct (req_customShortcode r0) as [raw|]; [|done].
    exists raw. split; [done|]. by destruct (truthy raw && _). }
  destruct Hraw as (raw & Hraw & Hcond).
  destruct (createSingleUrl_custom P r0 raw (logged l0 w) Hraw Hcond) as [l1 ->].
  rewrite (sanitizeShortcode_valid r0 raw c Hraw Hc0 Hs).
  change (StorageService.in_use c (logged l0 w)) with (StorageService.in_use c w).
  rewrite Hfree. cbv zeta.
  change (UrlService.new_url P r0 c true (logged l0 w)) with url.
  assert (He : expiresAt url
               = Some (clock P (dates_taken w) + UrlService.validity_of r0 * 60 * 1000)).
  { unfold url, UrlService.new_url, Date_of_number, Time.TimeClip; cbn.
    destruct (Z.abs _ <=? Time.maxTime) eqn:E; [done|].
    apply Z.leb_gt in E. unfold Time.maxTime in *. lia. }
  rewrite He. cbn [UrlService.process_valid]. unfold ret at 1.
  cbn [app length Nat.ltb Nat.leb].
  match goal with
  | |- context [StorageService.addUrls ?s ?w1] =>
      destruct (addUrls_run s w1 Hw) as [l2 ->]
  end.
  eexists. f_equal. cbn [app].
  unfold StorageService.saved. same_world.
Qed.

End DuplicateBatch.

(** Claim C5. In a batch of 1 to 5 requests over a store that can be
    written, the custom shortcodes are compared as trimmed texts (equality of
    strings, so by case): every request whose custom shortcode a request
    before it in the batch has is answered with an error at its own index,
    whose message ends with the duplicate message (its own validation
    messages come first). In particular, for exactly two requests with the
    same custom shortcode, both valid otherwise and the shortcode not yet in
    the store, the response has exactly one success, the record of the first
    request under that shortcode, which is written to the store, and exactly
    one error, the duplicate at index 1. The clock is taken to leave room
    for a week of validity within the range of time values. *)
Theorem duplicate_custom_shortcode_in_batch
    (P : Platform) (requests : list CreateUrlRequest) (w : World) :
  (1 <= length requests <= 5)%nat ->
  writable w = true ->
  exists response w',
    UrlService.createUrls P requests w = (Ok response, w')
    /\ (forall i j ri rj c,
          (j < i)%nat -> requests !! j = Some rj -> requests !! i = Some ri ->
          validation.custom_code rj = Some c -> validation.custom_code ri = Some c ->
          mkErrorEntry (Z.of_nat i)
            (Str.join ", "
               (map ve_message
                  (validation.request_errors P ri ++ [validation.duplicate_error])))
          ∈ errors response)
    /\ (forall r0 r1 c,
          requests = [r0; r1] ->
          validation.request_errors P r0 = [] -> validation.request_errors P r1 = [] ->
          validation.custom_code r0 = Some c -> validation.custom_code r1 = Some c ->
          StorageService.in_use c w = false ->
          Z.abs (clock P (dates_taken w)) + 604800000 <= Time.maxTime ->
          let url := UrlService.new_url P r0 c true w in
          response = mkResponse [url] [mkErrorEntry 1 "Duplicate shortcode in request"]
          /\ urls_item w'
             = Document (StorageService.JSON_stringify
                           (StorageService.stored_urls w ++ [url]))).
Proof.
  intros Hsize Hw.
  destruct (createUrls_writable_run P requests w Hw)
    as (response & w' & e & Hrun & Herrors).
  exists response, w'. split; [done|]. split.
  - intros i j ri rj c Hj Hrj Hri Hcj Hci. rewrite Herrors.
    apply elem_of_app. left.
    apply (list_elem_of_fmap_2 UrlService.response_error _
             (validation.mkIndexedErrors i
                (validation.request_errors P ri ++ [validation.duplicate_error]))).
    by apply (validated_duplicate P requests i j ri rj c).
  - intros r0 r1 c -> H0 H1 Hc0 Hc1 Hfree Hclock url.
    destruct (createUrls_pair P r0 r1 c w H0 H1 Hc0 Hc1 Hfree Hclock Hw) as [l Hpair].
    rewrite Hpair in Hrun. injection Hrun as <- <-. done.
Qed.

Lemma duplicate_custom_shortcode_in_batch_witness :
  let P := sample_platform 1700000000000 (fun _ => 0%nat) in
  let w := world_with [sample_url "taken1" 1700000000000 30] in
  let requests := [ mkRequest "https://example.com/a" None (Some "promo");
                    mkRequest "https://example.com/b" (Some 10) (Some " promo ") ] in
  exists response w',
    UrlService.createUrls P requests w = (Ok response, w')
    /\ response
       = mkResponse
           [mkShortUrl "0b5e7a1c" "https://example.com/a" "promo"
              (Some 1700000000000) (Some 1700001800000) 30 [] true]
           [mkErrorEntry 1 "Duplicate shortcode in request"].
Proof.
  intros P w requests.
  destruct (duplicate_custom_shortcode_in_batch P requests w)
    as (response & w' & Hrun & _ & Hpair); [vm_compute; lia | reflexivity |].
  exists response, w'. split; [exact Hrun|].
  destruct (Hpair (mkRequest "https://example.com/a" None (Some "promo"))
              (mkRequest "https://example.com/b" (Some 10) (Some " promo ")) "promo")
    as [-> _]; first [vm_compute; reflexivity | vm_compute; discriminate].
Defined.

(** * More of the storage service *)

Section StoreFacts.
Import StorageService.

Lemma shortcode_revive_stringify (urls : list ShortUrl) :
  map shortcode (revive (JSON_stringify urls)) = map shortcode urls.
Proof.
  unfold revive, JSON_stringify. rewrite !map_map. by apply map_ext.
Qed.

Lemma click_total_revive_stringify (urls : list ShortUrl) :
  click_total (revive (JSON_stringify urls)) = click_total urls.
Proof.
  unfold click_total, revive, JSON_stringify. rewrite !map_map. f_equal.
  apply map_ext. intros url. cbn. by rewrite !length_map.
Qed.

Lemma existsb_shortcode code (urls : list ShortUrl) :
  existsb (fun url => String.eqb (shortcode url) code) urls = true
  <-> code ∈ map shortcode urls.
Proof.
  rewrite existsb_exists, list_elem_of_fmap. split.
  - intros (url & Hin%list_elem_of_In & E%String.eqb_eq). by exists url.
  - intros (url & -> & Hin%list_elem_of_In). exists url. by rewrite String.eqb_refl.
Qed.

Lemma in_use_spec code w :
  in_use code w = true <-> code ∈ map shortcode (stored_urls w).
Proof. apply existsb_shortcode. Qed.

Lemma stored_urls_saved urls w :
  stored_urls (saved urls w) = revive (JSON_stringify urls).
Proof. reflexivity. Qed.

Lemma addUrl_run url w :
  writable w = true ->
  exists l, addUrl url w = (Ok tt, logged l (saved (stored_urls w ++ [url]) w)).
Proof.
  intros Hw. destruct (loadUrls_run w) as [l Hl].
  unfold addUrl. rewrite (bind_ok _ _ _ _ _ Hl).
  rewrite (bind_ok _ _ _ _ _
             (saveUrls_run (stored_urls w ++ [url]) (logged l w) Hw)).
  exists (l ++ [mkLog info "storage" "URLs saved to localStorage";
                mkLog info "url-shortener" "URL created"]).
  unfold logger_logUrlEvent, logger_info, logger_Log, saved. same_world.
Qed.

End StoreFacts.

(** [loadUrls] never throws. Without an item it answers the empty
    collection and logs nothing; on an item that does not parse to records
    it answers the empty collection too and logs an error; otherwise it
    answers one record for each record of the document. The store is left
    as it is in every case. *)
Theorem loadUrls_swallows_corrupt_data (w : World) :
  exists urls l,
    StorageService.loadUrls w = (Ok urls, logged l w)
    /\ match urls_item w with
       | Missing => urls = [] /\ l = []
       | Garbled =>
           urls = []
           /\ l = [mkLog error "storage" "Failed to load URLs from localStorage"]
       | Document doc =>
           length urls = length doc
           /\ map shortcode urls = map shortcode doc
           /\ l = [mkLog info "storage" "URLs loaded from localStorage"]
       end.
Proof.
  unfold StorageService.loadUrls, try_catch, bind, localStorage_getItem.
  destruct (urls_item w) as [| |doc] eqn:E; cbn.
  - exists [], []. by rewrite logged_nil.
  - by eexists [], _.
  - eexists _, _. split; [reflexivity|].
    unfold StorageService.revive. rewrite length_map, map_map. done.
Qed.

(** When [localStorage.setItem] throws, [saveUrls], [addUrl] and [addUrls]
    all fail with the one storage error, an error is logged, and the stored
    item is what it was. *)
Theorem failed_write_is_reported (urls : list ShortUrl) (url : ShortUrl) (w : World) :
  writable w = false ->
  exists l1 l2 l3,
    StorageService.saveUrls urls w
    = (Throw "Failed to save data to storage", logged l1 w)
    /\ StorageService.addUrl url w
       = (Throw "Failed to save data to storage", logged l2 w)
    /\ StorageService.addUrls urls w
       = (Throw "Failed to save data to storage", logged l3 w)
    /\ mkLog error "storage" "Failed to save URLs to localStorage" ∈ l1.
Proof.
  intros Hw.
  assert (Hsave : forall us w0, writable w0 = false ->
            StorageService.saveUrls us w0
            = (Throw "Failed to save data to storage",
               logged [mkLog error "storage" "Failed to save URLs to localStorage"] w0)).
  { intros us w0 H0.
    unfold StorageService.saveUrls, try_catch, bind, localStorage_setItem.
    by rewrite H0. }
  destruct (loadUrls_run w) as [l Hl].
  exists [mkLog error "storage" "Failed to save URLs to localStorage"],
    (l ++ [mkLog error "storage" "Failed to save URLs to localStorage"]),
    (l ++ [mkLog error "storage" "Failed to save URLs to localStorage"]).
  split; [by apply Hsave|]. split; [|split; [|left]].
  - unfold StorageService.addUrl. rewrite (bind_ok _ _ _ _ _ Hl).
    rewrite (bind_throw _ _ _ _ _ (Hsave _ (logged l w) Hw)). by rewrite logged_logged.
  - unfold StorageService.addUrls. rewrite (bind_ok _ _ _ _ _ Hl).
    rewrite (bind_throw _ _ _ _ _ (Hsave _ (logged l w) Hw)). by rewrite logged_logged.
Qed.

Lemma failed_write_is_reported_witness :
  let w := mkWorld Missing false 0 0 0 0 [] in
  exists l,
    StorageService.addUrl (sample_url "promo1" 1700000000000 30) w
    = (Throw "Failed to save data to storage", logged l w).
Proof.
  intros w.
  destruct (failed_write_is_reported [] (sample_url "promo1" 1700000000000 30) w)
    as (l1 & l2 & l3 & _ & H & _); [reflexivity|].
  by exists l2.
Defined.

(** Insert and look up. After [addUrl] on a store that can be written the
    shortcode of the record is in use, every shortcode that was in use
    still is, and the collection has grown by exactly one record. *)
Theorem addUrl_reserves_shortcode (url : ShortUrl) (w : World) :
  writable w = true ->
  exists w',
    StorageService.addUrl url w = (Ok tt, w')
    /\ StorageService.in_use (shortcode url) w' = true
    /\ (forall code, StorageService.in_use code w = true ->
                     StorageService.in_use code w' = true)
    /\ length (StorageService.stored_urls w')
       = S (length (StorageService.stored_urls w)).
Proof.
  intros Hw. destruct (addUrl_run url w Hw) as [l Hl].
  eexists. split; [exact Hl|].
  assert (Hcodes : map shortcode (StorageService.stored_urls
                      (logged l (StorageService.saved
                                   (StorageService.stored_urls w ++ [url]) w)))
                   = map shortcode (StorageService.stored_urls w) ++ [shortcode url]).
  { change (StorageService.stored_urls (logged l ?x)) with (StorageService.stored_urls x).
    by rewrite stored_urls_saved, shortcode_revive_stringify, map_app. }
  split; [|split].
  - apply in_use_spec. rewrite Hcodes. apply elem_of_app. right. left.
  - intros code Hcode%in_use_spec. apply in_use_spec. rewrite Hcodes.
    apply elem_of_app. by left.
  - rewrite <- (length_map shortcode), Hcodes, length_app, length_map. cbn. lia.
Qed.

Lemma addUrl_reserves_shortcode_witness :
  exists w',
    StorageService.addUrl (sample_url "Ab3dE9" 1700000000000 30)
      (world_with [sample_url "promo1" 1700000000000 1]) = (Ok tt, w')
    /\ StorageService.in_use "Ab3dE9" w' = true
    /\ length (StorageService.stored_urls w') = 2%nat.
Proof.
  destruct (addUrl_reserves_shortcode (sample_url "Ab3dE9" 1700000000000 30)
              (world_with [sample_url "promo1" 1700000000000 1]))
    as (w' & Hrun & Huse & _ & Hlen); [reflexivity|].
  exists w'. split; [exact Hrun|]. split; [exact Huse|].
  rewrite Hlen. reflexivity.
Defined.

(** [addUrls] appends, in order, and two calls compose: on well-formed
    records, adding [first] and then [second] leaves the store as adding
    [first ++ second] at once does, with the collection that was stored
    followed by the new records. *)
Theorem addUrls_appends_and_composes (first second : list ShortUrl) (w : World) :
  writable w = true ->
  forallb well_formed_url (StorageService.stored_urls w ++ first ++ second) = true ->
  exists w1 w2 w3,
    StorageService.addUrls first w = (Ok tt, w1)
    /\ StorageService.addUrls second w1 = (Ok tt, w2)
    /\ StorageService.addUrls (first ++ second) w = (Ok tt, w3)
    /\ StorageService.stored_urls w1 = StorageService.stored_urls w ++ first
    /\ StorageService.stored_urls w2 = StorageService.stored_urls w ++ first ++ second
    /\ urls_item w2 = urls_item w3.
Proof.
  intros Hw Hwf.
  destruct (addUrls_run first w Hw) as [l1 H1].
  assert (Hwf1 : forallb well_formed_url (StorageService.stored_urls w ++ first) = true).
  { rewrite app_assoc, forallb_app in Hwf. by apply andb_prop in Hwf as [? _]. }
  set (w1 := logged l1 (StorageService.saved (StorageService.stored_urls w ++ first) w)).
  assert (Hs1 : StorageService.stored_urls w1 = StorageService.stored_urls w ++ first).
  { unfold w1. change (StorageService.stored_urls (logged l1 ?x))
      with (StorageService.stored_urls x).
    rewrite stored_urls_saved. by apply revive_stringify. }
  destruct (addUrls_run second w1 Hw) as [l2 H2].
  destruct (addUrls_run (first ++ second) w Hw) as [l3 H3].
  eexists w1, _, _. split; [exact H1|]. split; [exact H2|]. split; [exact H3|].
  split; [exact Hs1|]. rewrite Hs1, <- app_assoc. split; [|reflexivity].
  change (StorageService.stored_urls (logged l2 ?x)) with (StorageService.stored_urls x).
  rewrite stored_urls_saved. by apply revive_stringify.
Qed.

Lemma addUrls_appends_and_composes_witness :
  let a := sample_url "Ab3dE9" 1700000000000 30 in
  let b := sample_url "xYz123" 1700000500000 60 in
  let w := world_with [sample_url "promo1" 1700000000000 1] in
  exists w1 w2,
    StorageService.addUrls [a] w = (Ok tt, w1)
    /\ StorageService.addUrls [b] w1 = (Ok tt, w2)
    /\ StorageService.stored_urls w2 = [sample_url "promo1" 1700000000000 1; a; b].
Proof.
  intros a b w.
  destruct (addUrls_appends_and_composes [a] [b] w)
    as (w1 & w2 & w3 & H1 & H2 & _ & _ & Hs & _);
    [reflexivity | vm_compute; reflexivity |].
  exists w1, w2. split; [exact H1|]. split; [exact H2|].
  rewrite Hs. vm_compute. reflexivity.
Defined.

(** After [clearAll] the collection is empty whatever was stored (records
    or a text that does not parse): no shortcode is in use, every lookup
    answers nothing, and the analytics are all zero. *)
Theorem clearAll_empties_the_store (P : Platform) (w : World) :
  exists w',
    StorageService.clearAll w = (Ok tt, w')
    /\ urls_item w' = Missing
    /\ writable w' = writable w
    /\ (exists l, StorageService.loadUrls w' = (Ok [], logged l w'))
    /\ (forall code, StorageService.in_use code w' = false
                     /\ StorageService.lookup P code w' = None)
    /\ (StorageService.getAnalytics P w').1
       = Ok (StorageService.mkAnalytics 0 0 0 0)
    /\ mkLog warn "storage" "All stored data cleared" ∈ log w'.
Proof.
  eexists. split; [reflexivity|]. cbn. repeat split.
  - exists []. unfold logged; cbn. by rewrite app_nil_r.
  - apply elem_of_app. right. left.
Qed.

(** A stored shortcode stays reserved: [isShortcodeInUse] never looks at
    the clock, so a valid request for a custom shortcode that some stored
    record carries, expired or not, is refused with the in-use error, as a
    creation failure of that request, and nothing is written. *)
Theorem stored_shortcode_is_refused
    (P : Platform) (request : CreateUrlRequest) (url : ShortUrl) (w : World) :
  url ∈ StorageService.stored_urls w ->
  validation.request_errors P request = [] ->
  validation.custom_code request = Some (shortcode url) ->
  exists l,
    StorageService.isShortcodeInUse (shortcode url) w = (Ok true, logged l w)
    /\ exists l',
         UrlService.createUrls P [request] w
         = (Ok (mkResponse []
                  [mkErrorEntry 0 (UrlService.already_in_use (shortcode url))]),
            logged l' w).
Proof.
  intros Hin Herr Hcode.
  assert (Huse : StorageService.in_use (shortcode url) w = true).
  { apply in_use_spec. by apply list_elem_of_fmap_2. }
  destruct (isShortcodeInUse_run (shortcode url) w) as [l Hl].
  exists l. split; [by rewrite Hl, Huse|].
  destruct (createUrls_unfold P [request] w) as [l0 ->].
  assert (Hv : validation.validated P [request] = ([request], [])).
  { unfold validation.validated. cbn.
    rewrite forEach_body_fresh by (intros ? _; apply not_elem_of_empty).
    by rewrite Herr. }
  rewrite Hv. cbn [fst snd map]. rewrite process_valid_cons.
  assert (Hraw : exists raw, req_customShortcode request = Some raw
                 /\ truthy raw && negb (String.eqb (Str.trim raw) "") = true).
  { unfold validation.custom_code in Hcode.
    destruct (req_customShortcode request) as [raw|]; [|done].
    exists raw. split; [done|]. by destruct (truthy raw && _). }
  destruct Hraw as (raw & Hraw & Hcond).
  destruct (createSingleUrl_custom P request raw (logged l0 w) Hraw Hcond) as [l1 ->].
  destruct (request_errors_nil P request Herr) as (_ & _ & Hs).
  rewrite (sanitizeShortcode_valid request raw (shortcode url) Hraw Hcode Hs).
  change (StorageService.in_use (shortcode url) (logged l0 w))
    with (StorageService.in_use (shortcode url) w).
  rewrite Huse, reported_index_head. cbn.
  eexists. same_world.
Qed.

Lemma stored_shortcode_is_refused_witness :
  let P := sample_platform 1800000000000 (fun _ => 0%nat) in
  let expired := sample_url "promo1" 1700000000000 1 in
  let w := world_with [expired] in
  (UrlService.isValidShortcode P "promo1" w).1 = Ok false
  /\ exists l',
       UrlService.createUrls P [mkRequest "https://example.com/new" None (Some "promo1")] w
       = (Ok (mkResponse [] [mkErrorEntry 0 (UrlService.already_in_use "promo1")]),
          logged l' w).
Proof.
  intros P expired w. split; [vm_compute; reflexivity|].
  destruct (stored_shortcode_is_refused P
              (mkRequest "https://example.com/new" None (Some "promo1")) expired w)
    as (l & _ & Hcreate); [vm_compute; left | vm_compute; reflexivity
                           | vm_compute; reflexivity | exact Hcreate].
Defined.

(** * Shortcodes: generated and sanitized *)

Section ShortcodeFacts.

Lemma forall_chars_append p s1 s2 :
  Str.forall_chars p (s1 +:+ s2) = Str.forall_chars p s1 && Str.forall_chars p s2.
Proof.
  induction s1 as [|c s1 IH]; [done|]. rewrite append_cons.
  cbn [Str.forall_chars]. by rewrite IH, andb_assoc.
Qed.

Lemma length_append s1 s2 :
  String.length (s1 +:+ s2) = (String.length s1 + String.length s2)%nat.
Proof.
  induction s1 as [|c s1 IH]; [done|]. rewrite append_cons.
  cbn [String.length]. by rewrite IH.
Qed.

(** Each of the 62 positions of the alphabet holds one letter or digit. *)
Lemma charAt_chars i :
  (i < 62)%nat ->
  String.length (Str.charAt validation.chars i) = 1%nat
  /\ Str.forall_chars Str.is_alnum (Str.charAt validation.chars i) = true.
Proof.
  intros Hi.
  assert (Hall : forallb
            (fun k => (String.length (Str.charAt validation.chars k) =? 1)%nat
                      && Str.forall_chars Str.is_alnum (Str.charAt validation.chars k))
            (seq 0 62) = true) by (vm_compute; reflexivity).
  rewrite forallb_forall in Hall.
  destruct (andb_prop _ _ (Hall i ltac:(apply in_seq; lia))) as [H1%Nat.eqb_eq H2].
  done.
Qed.

Lemma drawn_loop_alphabet (P : Platform) count : forall result n,
  (forall k, (random_index P k < 62)%nat) ->
  String.length (validation.drawn_loop P count result n)
  = (String.length result + count)%nat
  /\ Str.forall_chars Str.is_alnum (validation.drawn_loop P count result n)
     = Str.forall_chars Str.is_alnum result.
Proof.
  induction count as [|count IH]; intros result n Hdraw; cbn.
  - split; [lia|done].
  - destruct (IH (result +:+ Str.charAt validation.chars (random_index P n)) (S n) Hdraw)
      as [Hlen Hall].
    destruct (charAt_chars (random_index P n) (Hdraw n)) as [H1 H2].
    rewrite Hlen, Hall, length_append, forall_chars_append, H1, H2, andb_true_r.
    split; [lia|done].
Qed.

Lemma is_alnum_not_space c : Str.is_alnum c = true -> Str.is_space c = false.
Proof.
  unfold Str.is_alnum, Str.is_space. generalize (Str.code c). intros n H.
  destruct (9 <=? n) eqn:E1, (n <=? 13) eqn:E2, (n =? 32) eqn:E3, (n =? 160) eqn:E4;
    cbn; try done;
    repeat match goal with
           | E : (_ <=? _) = true |- _ => apply Z.leb_le in E
           | E : (_ =? _) = true |- _ => apply Z.eqb_eq in E
           end;
    exfalso;
    repeat match goal with
           | H : _ || _ = true |- _ => apply orb_prop in H as [H|H]
           | H : _ && _ = true |- _ => apply andb_prop in H as [?%Z.leb_le ?%Z.leb_le]
           end; lia.
Qed.

Lemma forall_chars_impl (p q : ascii -> bool) s :
  (forall c, p c = true -> q c = true) ->
  Str.forall_chars p s = true -> Str.forall_chars q s = true.
Proof.
  intros Hpq. induction s as [|c s IH]; [done|]. cbn.
  intros [Hc Hs]%andb_prop. by rewrite (Hpq c Hc), IH.
Qed.

(** A text without white space is its own trimming. *)
Lemma trimEnd_no_space s :
  Str.forall_chars (fun c => negb (Str.is_space c)) s = true -> Str.trimEnd s = s.
Proof.
  induction s as [|c s IH]; [done|]. cbn. intros [Hc Hs]%andb_prop.
  rewrite IH by done. apply negb_true_iff in Hc. rewrite Hc. by destruct s.
Qed.

Lemma trim_no_space s :
  Str.forall_chars (fun c => negb (Str.is_space c)) s = true -> Str.trim s = s.
Proof.
  intros Hs. unfold Str.trim.
  assert (Str.trimStart s = s) as ->.
  { destruct s as [|c s]; [done|]. cbn in *. apply andb_prop in Hs as [Hc _].
    apply negb_true_iff in Hc. by rewrite Hc. }
  by apply trimEnd_no_space.
Qed.

Lemma trim_alnum s :
  Str.forall_chars Str.is_alnum s = true -> Str.trim s = s.
Proof.
  intros Hs. apply trim_no_space. revert Hs. apply forall_chars_impl.
  intros c Hc. by rewrite (is_alnum_not_space c Hc).
Qed.

Lemma forall_chars_filter p s :
  Str.forall_chars p (Str.filter_chars p s) = true.
Proof.
  induction s as [|c s IH]; [done|]. cbn.
  destruct (p c) eqn:Hc; [|done]. cbn. by rewrite Hc, IH.
Qed.

Lemma length_filter_chars p s :
  (String.length (Str.filter_chars p s) <= String.length s)%nat.
Proof.
  induction s as [|c s IH]; [done|]. cbn. destruct (p c); cbn; lia.
Qed.

End ShortcodeFacts.

(** [generateShortcode(length)] draws [length] times and answers [length]
    characters of the alphabet, letters and digits only, the random indices
    being below 62 as [Math.floor(Math.random() * 62)] is; so for a length
    of 3 to 20, and for the 6 the service asks for, the shortcode passes
    [isValidShortcode]. *)
Theorem generateShortcode_alphabet (P : Platform) (n : nat) (w : World) :
  (forall k, (random_index P k < 62)%nat) ->
  exists code,
    validation.generateShortcode P n w = (Ok code, advanced 0 n 0 0 w)
    /\ String.length code = n
    /\ Str.forall_chars Str.is_alnum code = true
    /\ ((3 <= n <= 20)%nat -> validation.isValidShortcode code = true).
Proof.
  intros Hdraw. rewrite generateShortcode_run. eexists. split; [reflexivity|].
  destruct (drawn_loop_alphabet P n "" (randoms_taken w) Hdraw) as [Hlen Hall].
  unfold validation.drawn. cbn in Hlen, Hall. rewrite Hlen, Hall.
  split; [done|]. split; [done|]. intros Hn.
  unfold validation.isValidShortcode. rewrite Hall, Hlen.
  replace (3 <=? n)%nat with true by (symmetry; apply Nat.leb_le; lia).
  by replace (n <=? 20)%nat with true by (symmetry; apply Nat.leb_le; lia).
Qed.

Lemma generateShortcode_alphabet_witness :
  exists code,
    validation.generateShortcode
      (sample_platform 1700000000000 (fun k => (7 * k + 3) mod 62)%nat) 6 empty_world
    = (Ok code, advanced 0 6 0 0 empty_world)
    /\ validation.isValidShortcode code = true.
Proof.
  destruct (generateShortcode_alphabet
              (sample_platform 1700000000000 (fun k => (7 * k + 3) mod 62)%nat)
              6 empty_world)
    as (code & Hrun & _ & _ & Hvalid).
  - intros k. change ((7 * k + 3) mod 62 < 62)%nat. apply Nat.mod_upper_bound. lia.
  - exists code. split; [exact Hrun | apply Hvalid; lia].
Defined.

(** [sanitizeShortcode] answers letters and digits only, never more
    characters than it is given; it leaves a shortcode that passes
    [isValidShortcode] as it is, and sanitizing twice changes nothing. *)
Theorem sanitizeShortcode_keeps_valid_codes (s : string) :
  Str.forall_chars Str.is_alnum (validation.sanitizeShortcode s) = true
  /\ (String.length (validation.sanitizeShortcode s) <= String.length (Str.trim s))%nat
  /\ validation.sanitizeShortcode (validation.sanitizeShortcode s)
     = validation.sanitizeShortcode s
  /\ (validation.isValidShortcode s = true -> validation.sanitizeShortcode s = s).
Proof.
  unfold validation.sanitizeShortcode.
  pose proof (forall_chars_filter Str.is_alnum (Str.trim s)) as Hall.
  split; [done|]. split; [apply length_filter_chars|]. split.
  - rewrite (trim_alnum _ Hall). by apply filter_chars_all.
  - unfold validation.isValidShortcode.
    intros [[Hs _]%andb_prop _]%andb_prop.
    rewrite (trim_alnum s Hs). by apply filter_chars_all.
Qed.

Lemma sanitizeShortcode_keeps_valid_codes_witness :
  validation.sanitizeShortcode "Ab3dE9" = "Ab3dE9"
  /\ validation.sanitizeShortcode "  my-code_1! " = "mycode1".
Proof.
  split; [|vm_compute; reflexivity].
  apply (sanitizeShortcode_keeps_valid_codes "Ab3dE9"). vm_compute. reflexivity.
Defined.

(** * What the batch validation keeps *)

Section BatchInvariants.
Import validation.
Variable P : Platform.

(** The three ways a request leaves the [forEach] callback. *)
Lemma forEach_body_cases request index st :
  let st' := forEach_body request index (request_errors P request) st in
  usedShortcodes st ⊆ usedShortcodes st'
  /\ (forall c, custom_code request = Some c -> c ∈ usedShortcodes st')
  /\ ((valid st' = valid st ++ [request] /\ invalid st' = invalid st
       /\ request_errors P request = []
       /\ forall c, custom_code request = Some c -> c ∉ usedShortcodes st)
      \/ (valid st' = valid st
          /\ exists errs,
               invalid st' = invalid st ++ [mkIndexedErrors index errs]
               /\ errs <> []
               /\ (errs = request_errors P request
                   \/ errs = request_errors P request ++ [duplicate_error]))).
Proof.
  intros st'. split; [|split].
  - unfold st'. rewrite forEach_body_used. destruct (custom_code request); set_solver.
  - intros c Hc. unfold st'. rewrite forEach_body_used, Hc. set_solver.
  - destruct (custom_code request) as [c|] eqn:Hc.
    + destruct (decide (c ∈ usedShortcodes st)) as [Hused|Hfresh].
      * right. unfold st'. rewrite (forEach_body_duplicate P _ _ _ c Hc Hused). cbn.
        split; [done|]. eexists. split; [done|]. split; [|by right].
        by destruct (request_errors P request).
      * unfold st'. rewrite forEach_body_fresh by (intros c' Hc'; congruence).
        destruct (request_errors P request) as [|e errs] eqn:Herr; cbn.
        -- left. repeat split; try done. intros c' Hc'. congruence.
        -- right. split; [done|]. eexists. split; [done|]. split; [done|by left].
    + unfold st'. rewrite forEach_body_fresh by (intros c' Hc'; congruence).
      destruct (request_errors P request) as [|e errs] eqn:Herr; cbn.
      * left. repeat split; done.
      * right. split; [done|]. eexists. split; [done|]. split; [done|by left].
Qed.

(** The valid side: the requests passed on are requests of the batch, in
    their order, free of errors, and no two with one custom shortcode. *)
Lemma collect_valid requests : forall index st,
  exists vs,
    valid (collect P requests index st) = valid st ++ vs
    /\ sublist vs requests
    /\ Forall (fun r => request_errors P r = []) vs
    /\ (forall c, c ∈ omap custom_code vs -> c ∉ usedShortcodes st)
    /\ NoDup (omap custom_code vs).
Proof.
  induction requests as [|request rest IH]; intros index st.
  - exists []. cbn. rewrite app_nil_r. repeat split; try done.
    + intros c Hc. by apply elem_of_nil in Hc.
    + constructor.
  - cbn [collect].
    destruct (forEach_body_cases request index st) as (Hsub & Hmine & Hcase).
    destruct (IH (S index) (forEach_body request index (request_errors P request) st))
      as (vs & Hvalid & Hsl & Hok & Hfresh & Hnd).
    destruct Hcase as [(Hv & _ & Herr & Hnew)|(Hv & _)].
    + exists (request :: vs). rewrite Hvalid, Hv, <- app_assoc. split; [done|].
      split; [by apply sublist_skip|]. split; [by constructor|].
      destruct (custom_code request) as [c|] eqn:Hc; cbn; rewrite Hc; cbn.
      * split.
        -- intros c' [->|Hc']%elem_of_cons; [by apply Hnew|].
           intros Hused. by apply (Hfresh c' Hc'), Hsub.
        -- apply NoDup_cons. split; [|done].
           intros Hin. by apply (Hfresh c Hin), Hmine.
      * split; [|done]. intros c' Hc' Hused. by apply (Hfresh c' Hc'), Hsub.
    + exists vs. rewrite Hvalid, Hv. split; [done|].
      split; [by apply sublist_cons|]. split; [done|]. split; [|done].
      intros c' Hc' Hused. by apply (Hfresh c' Hc'), Hsub.
Qed.

(** The other side: one entry for each request set aside, under the
    position of the request, in the order of the batch, with the errors of
    the request (and the duplicate error last, when that is its fault). *)
Lemma collect_invalid requests : forall index st,
  exists es,
    invalid (collect P requests index st) = invalid st ++ es
    /\ Forall (fun e =>
                 (index <= validation.index e)%nat
                 /\ exists r, requests !! (validation.index e - index)%nat = Some r
                    /\ validation.errors e <> []
                    /\ (validation.errors e = request_errors P r
                        \/ validation.errors e
                           = request_errors P r ++ [duplicate_error])) es
    /\ StronglySorted lt (map validation.index es).
Proof.
  induction requests as [|request rest IH]; intros index st.
  - exists []. cbn. rewrite app_nil_r. repeat split; constructor.
  - cbn [collect].
    destruct (forEach_body_cases request index st) as (_ & _ & Hcase).
    destruct (IH (S index) (forEach_body request index (request_errors P request) st))
      as (es & Hinvalid & Hall & Hsorted).
    assert (Hshift : Forall (fun e =>
                 (index <= validation.index e)%nat
                 /\ exists r, (request :: rest) !! (validation.index e - index)%nat = Some r
                    /\ validation.errors e <> []
                    /\ (validation.errors e = request_errors P r
                        \/ validation.errors e
                           = request_errors P r ++ [duplicate_error])) es).
    { eapply Forall_impl; [exact Hall|]. cbn beta.
      intros e (Hle & r & Hr & Hne & Hor). split; [lia|]. exists r.
      replace (validation.index e - index)%nat
        with (S (validation.index e - S index)) by lia.
      done. }
    destruct Hcase as [(_ & Hi & _)|(_ & errs & Hi & Hne & Hor)].
    + exists es. by rewrite Hinvalid, Hi.
    + exists (mkIndexedErrors index errs :: es). rewrite Hinvalid, Hi, <- app_assoc.
      split; [done|]. split.
      * constructor; [|done]. cbn. split; [lia|]. exists request.
        by rewrite Nat.sub_diag.
      * cbn. constructor; [done|]. rewrite Forall_fmap.
        eapply Forall_impl; [exact Hall|]. cbn. intros e [Hle _]. lia.
Qed.

End BatchInvariants.

(** [validateUrlRequests] on a batch of 1 to 5 never throws and splits
    the batch. The requests it passes on are requests of the batch, in
    their order, each free of validation errors, and no two of them with
    the same (trimmed) custom shortcode. The entries it answers for the
    others come in increasing order of index; each stands under the
    position of its request and holds the errors of that request, which
    are not empty, the duplicate error last where it applies. Every
    request is on exactly one side. *)
Theorem validateUrlRequests_partitions_the_batch
    (P : Platform) (requests : list CreateUrlRequest) (w : World) :
  (1 <= length requests <= 5)%nat ->
  exists valid invalid l,
    validation.validateUrlRequests P requests w = (Ok (valid, invalid), logged l w)
    /\ sublist valid requests
    /\ Forall (fun r => validation.request_errors P r = []) valid
    /\ NoDup (omap validation.custom_code valid)
    /\ StronglySorted lt (map validation.index invalid)
    /\ Forall (fun e =>
                 exists r, requests !! validation.index e = Some r
                   /\ validation.errors e <> []
                   /\ (validation.errors e = validation.request_errors P r
                       \/ validation.errors e
                          = validation.request_errors P r ++ [validation.duplicate_error]))
         invalid
    /\ (length valid + length invalid = length requests)%nat.
Proof.
  intros Hsize.
  destruct (validateUrlRequests_run P requests w) as [l Hl].
  pose proof (validated_count P requests Hsize) as Hcount.
  unfold validation.validated in *.
  destruct (length requests =? 0)%nat eqn:E0; [apply Nat.eqb_eq in E0; lia|].
  destruct (5 <? length requests)%nat eqn:E5; [apply Nat.ltb_lt in E5; lia|].
  destruct (collect_valid P requests 0 (validation.mkCollected [] [] ∅))
    as (vs & Hv & Hsl & Hok & _ & Hnd).
  destruct (collect_invalid P requests 0 (validation.mkCollected [] [] ∅))
    as (es & Hi & Hall & Hsorted).
  cbn [validation.valid validation.invalid app] in Hv, Hi.
  rewrite Hv, Hi in *. exists vs, es, l. repeat split; try done.
  eapply Forall_impl; [exact Hall|]. cbn beta.
  intros e (_ & r & Hr & Hrest). exists r. by rewrite Nat.sub_0_r in Hr.
Qed.

Lemma validateUrlRequests_partitions_the_batch_witness :
  let P := sample_platform 1700000000000 (fun _ => 0%nat) in
  let requests :=
    [ mkRequest "https://example.com/a" None (Some "promo");
      mkRequest "ftp://example.com/b" (Some 0) None;
      mkRequest "https://example.com/c" (Some 10) (Some "promo") ] in
  exists valid invalid l,
    validation.validateUrlRequests P requests empty_world
    = (Ok (valid, invalid), logged l empty_world)
    /\ map validation.index invalid = [1; 2]%nat
    /\ (length valid + length invalid = 3)%nat.
Proof.
  intros P requests.
  destruct (validateUrlRequests_partitions_the_batch P requests empty_world)
    as (valid & invalid & l & Hrun & _ & _ & _ & _ & _ & Hcount);
    [vm_compute; lia|].
  exists valid, invalid, l. split; [exact Hrun|]. split; [|exact Hcount].
  assert (E : (validation.validateUrlRequests P requests empty_world).1
              = Ok ([mkRequest "https://example.com/a" None (Some "promo")],
                    [validation.mkIndexedErrors 1
                       [mkValidationError "originalUrl"
                          "Invalid URL format. Must start with http:// or https://";
                        mkValidationError "validityMinutes"
                          "Validity must be a positive integer between 1 and 10080 minutes (1 week)"];
                     validation.mkIndexedErrors 2 [validation.duplicate_error]]))
    by (vm_compute; reflexivity).
  rewrite Hrun in E. cbn in E. injection E as -> ->. reflexivity.
Defined.

(** * What creation answers *)

Section CreationOutcomes.
Variable P : Platform.

Lemma generateUniqueShortcode_outcome n : forall attempts w,
  (11 - attempts = n)%nat ->
  exists result l r,
    UrlService.generateUniqueShortcode P attempts w
    = (result, logged l (advanced 0 r 0 0 w))
    /\ match result with
       | Ok code =>
           StorageService.in_use code w = false
           /\ exists j, (attempts + j <= 10)%nat
                /\ code = UrlService.candidate P w j /\ r = (6 * S j)%nat
       | Throw msg =>
           msg = UrlService.generation_failed /\ r = (6 * (11 - attempts))%nat
       end.
Proof.
  induction n as [|n IH]; intros attempts w Ha.
  - rewrite generateUniqueShortcode_unfold.
    destruct (decide (10 < attempts)%nat); [|lia].
    exists (Throw UrlService.generation_failed), [], 0%nat.
    rewrite logged_nil, advanced_zero. split; [done|]. split; [done|lia].
  - destruct (generateUniqueShortcode_step P attempts w) as [l1 H1]; [lia|].
    rewrite H1. destruct (StorageService.in_use _ w) eqn:Huse.
    + destruct (IH (attempts + 1)%nat (logged l1 (advanced 0 6 0 0 w)))
        as (result & l2 & r & H2 & Hres); [lia|].
      rewrite H2. exists result, (l1 ++ l2), (6 + r)%nat. split.
      * f_equal. by rewrite advanced_logged, logged_logged, advanced_advanced.
      * destruct result as [code|msg].
        -- destruct Hres as (Hfree & j & Hj & -> & ->).
           rewrite candidate_next in *. rewrite in_use_quiet in Hfree.
           split; [done|]. exists (S j). split; [lia|]. split; [done|lia].
        -- destruct Hres as [-> ->]. split; [done|lia].
    + eexists _, l1, 6%nat. split; [reflexivity|]. split; [done|].
      exists 0%nat. split; [lia|]. split; [done|lia].
Qed.

(** The record [createSingleUrl] answers, or the error it throws. *)
Lemma createSingleUrl_outcome request w :
  exists result l d r u,
    UrlService.createSingleUrl P request w = (result, logged l (advanced d r u 0 w))
    /\ match result with
       | Ok url =>
           originalUrl url = Str.trim (req_originalUrl request)
           /\ validityMinutes url = UrlService.validity_of request
           /\ clicks url = []
           /\ isCustomShortcode url
              = (if validation.custom_code request is Some _ then true else false)
           /\ createdAt url = Some (clock P (dates_taken w))
           /\ expiresAt url
              = Some (clock P (dates_taken w) + validityMinutes url * 60 * 1000)
           /\ url_id url = uuid P (uuids_taken w)
           /\ StorageService.in_use (shortcode url) w = false
           /\ (match validation.custom_code request with
               | Some c => shortcode url = Str.filter_chars Str.is_alnum c
               | None => exists j, (j <= 10)%nat /\ shortcode url = UrlService.candidate P w j
               end)
       | Throw msg =>
           match validation.custom_code request with
           | Some c =>
               (msg = UrlService.already_in_use (Str.filter_chars Str.is_alnum c)
                /\ StorageService.in_use (Str.filter_chars Str.is_alnum c) w = true)
               \/ msg = "Invalid time value"
           | None => msg = UrlService.generation_failed \/ msg = "Invalid time value"
           end
       end.
Proof.
  assert (Hclip : forall z e, Date_of_number z = Some e -> e = z).
  { unfold Date_of_number, Time.TimeClip. intros z e. case_match; congruence. }
  destruct (validation.custom_code request) as [c|] eqn:Hc.
  - unfold validation.custom_code in Hc.
    destruct (req_customShortcode request) as [raw|] eqn:Hraw; [|done].
    destruct (truthy raw && negb (String.eqb (Str.trim raw) "")) eqn:Hcond; [|done].
    injection Hc as <-.
    destruct (createSingleUrl_custom P request raw w Hraw Hcond) as [l ->].
    fold (validation.sanitizeShortcode raw).
    destruct (StorageService.in_use _ w) eqn:Huse.
    + eexists _, l, 0%nat, 0%nat, 0%nat. rewrite advanced_zero.
      split; [reflexivity|]. by left.
    + cbv zeta. destruct (expiresAt _) as [e|] eqn:He.
      * eexists _, _, 1%nat, 0%nat, 1%nat. split; [reflexivity|].
        cbn in He. pose proof (Hclip _ _ He) as ->. cbn. rewrite He.
        repeat split; done.
      * eexists _, l, 1%nat, 0%nat, 1%nat. split; [reflexivity|]. by right.
  - rewrite (createSingleUrl_generated P request w Hc).
    destruct (generateUniqueShortcode_outcome 11 0 w eq_refl)
      as (result & l & r & -> & Hres).
    destruct result as [code|msg].
    + destruct Hres as (Hfree & j & Hj & -> & ->).
      cbv zeta. destruct (expiresAt _) as [e|] eqn:He.
      * eexists _, (l ++ [mkLog info "url-shortener" "Single URL created"]),
          1%nat, (6 * S j)%nat, 1%nat.
        split; [same_world|].
        cbn in He. pose proof (Hclip _ _ He) as ->. cbn. rewrite He.
        repeat split; try done. exists j. split; [lia|done].
      * eexists _, l, 1%nat, (6 * S j)%nat, 1%nat. split; [same_world|]. by right.
    + destruct Hres as [-> ->].
      eexists _, l, 0%nat, 66%nat, 0%nat. split; [same_world|]. by left.
Qed.

End CreationOutcomes.

Section CreatedRecords.
Variable P : Platform.

Lemma createSingleUrl_created_for request w url w' :
  UrlService.createSingleUrl P request w = (Ok url, w') ->
  UrlService.created_for P w request url
  /\ exists l d r u, w' = logged l (advanced d r u 0 w).
Proof.
  intros Hrun.
  destruct (createSingleUrl_outcome P request w) as (result & l & d & r & u & Hrun' & Hres).
  rewrite Hrun in Hrun'. injection Hrun' as <- ->.
  split; [|by exists l, d, r, u].
  destruct Hres as (H1 & H2 & H3 & H4 & H5 & H6 & _ & H8 & H9).
  unfold UrlService.created_for. repeat split; try done.
  - by eexists.
  - destruct (validation.custom_code request); [done|].
    destruct H9 as (j & _ & ->). by eexists.
Qed.

(** The records the loop over the valid requests adds were each created
    for one of these requests, over the store the loop started on. *)
Lemma process_valid_successes requests valid : forall success finalErrors w s e w',
  UrlService.process_valid P requests valid success finalErrors w = (Ok (s, e), w') ->
  exists news,
    s = success ++ news
    /\ Forall (fun url => exists request,
                 request ∈ valid /\ UrlService.created_for P w request url) news.
Proof.
  induction valid as [|request rest IH]; intros success finalErrors w s e w' Hrun.
  - cbn in Hrun. injection Hrun as <- _ _. exists []. by rewrite app_nil_r.
  - rewrite process_valid_cons in Hrun.
    destruct (UrlService.createSingleUrl P request w) as [[url|msg] w1] eqn:Hone.
    + destruct (createSingleUrl_created_for request w url w1 Hone)
        as (Hurl & l & d & r & u & ->).
      destruct (IH _ _ _ _ _ _ Hrun) as (news & -> & Hnews).
      exists (url :: news). rewrite <- app_assoc. split; [done|].
      constructor.
      * exists request. split; [left|done].
      * eapply Forall_impl; [exact Hnews|]. cbn beta.
        intros url' (request' & Hin & Hfor). exists request'. split; [by right|done].
    + destruct (createSingleUrl_quiet P request w) as (result & l & d & r & u & Hq).
      rewrite Hone in Hq. injection Hq as _ ->.
      destruct (IH _ _ _ _ _ _ Hrun) as (news & -> & Hnews).
      exists news. split; [done|].
      eapply Forall_impl; [exact Hnews|]. cbn beta.
      intros url' (request' & Hin & Hfor). exists request'. split; [by right|done].
Qed.

(** [createUrls] over a store that can be written, step by step. *)
Lemma createUrls_writable_detail requests w :
  writable w = true ->
  exists s e w',
    UrlService.createUrls P requests w
    = (Ok (mkResponse s
             (map UrlService.response_error (validation.validated P requests).2 ++ e)),
       w')
    /\ urls_item w'
       = match s with
         | [] => urls_item w
         | _ => Document (StorageService.JSON_stringify
                            (StorageService.stored_urls w ++ s))
         end
    /\ writable w' = true
    /\ Forall (fun url => exists request,
                 request ∈ (validation.validated P requests).1
                 /\ UrlService.created_for P w request url) s.
Proof.
  intros Hw. destruct (createUrls_unfold P requests w) as [l0 ->].
  destruct (process_valid_quiet P requests (validation.validated P requests).1 []
              (map UrlService.response_error (validation.validated P requests).2)
              (logged l0 w))
    as (s & e & l & d & r & u & Hloop & Hlen).
  destruct (process_valid_successes _ _ _ _ _ _ _ _ Hloop) as (news & Hs & Hnews).
  cbn [app] in Hs. subst news. rewrite Hloop. cbn [app].
  exists s, e. destruct s as [|url s]; cbn [length Nat.ltb Nat.leb].
  - eexists. split; [reflexivity|]. cbn. by rewrite Hw.
  - destruct (addUrls_run (url :: s) (logged l (advanced d r u 0 (logged l0 w))) Hw)
      as [l' ->].
    eexists. split; [reflexivity|]. cbn. by rewrite Hw.
Qed.

End CreatedRecords.

Section ValidRequests.
Variable P : Platform.

Lemma validated_valid requests :
  sublist (validation.validated P requests).1 requests
  /\ Forall (fun r => validation.request_errors P r = [])
       (validation.validated P requests).1.
Proof.
  unfold validation.validated.
  destruct (length requests =? 0)%nat; [split; [apply sublist_nil_l|constructor]|].
  destruct (5 <? length requests)%nat; [split; [apply sublist_nil_l|constructor]|].
  destruct (collect_valid P requests 0 (validation.mkCollected [] [] ∅))
    as (vs & Hv & Hsl & Hok & _).
  cbn [fst]. cbn [validation.valid app] in Hv. by rewrite Hv.
Qed.

Lemma custom_code_valid request c :
  validation.custom_code request = Some c ->
  validation.customShortcode_errors request = [] ->
  validation.isValidShortcode c = true.
Proof.
  unfold validation.custom_code, validation.customShortcode_errors.
  destruct (req_customShortcode request) as [raw|]; [|done].
  destruct (truthy raw); cbn; [|done].
  destruct (negb (String.eqb (Str.trim raw) "")); [|done].
  intros [= <-]. by destruct (validation.isValidShortcode (Str.trim raw)).
Qed.

Lemma created_shortcode_valid w request url :
  validation.request_errors P request = [] ->
  UrlService.created_for P w request url ->
  (forall k, (random_index P k < 62)%nat) ->
  validation.isValidShortcode (shortcode url) = true.
Proof.
  intros Herr (_ & _ & _ & _ & _ & _ & Hcode) Hdraw.
  destruct (request_errors_nil P request Herr) as (_ & _ & Hs).
  destruct (validation.custom_code request) as [c|] eqn:Hc.
  - pose proof (custom_code_valid request c Hc Hs) as Hv. rewrite Hcode.
    rewrite filter_chars_all; [done|].
    unfold validation.isValidShortcode in Hv.
    by apply andb_prop in Hv as [[Hv _]%andb_prop _].
  - destruct Hcode as [n ->].
    destruct (drawn_loop_alphabet P 6 "" n Hdraw) as [Hlen Hall].
    unfold validation.isValidShortcode, validation.drawn. by rewrite Hall, Hlen.
Qed.

End ValidRequests.

(** Whatever the store holds and however often it has drawn,
    [generateUniqueShortcode] answers a shortcode that no stored record
    has, one of the codes it drew from its attempt on, or it throws the
    generation error after drawing for every attempt left up to the 11th;
    it never throws anything else and never writes. *)
Theorem generateUniqueShortcode_answers_free_code
    (P : Platform) (attempts : nat) (w : World) :
  exists result l r,
    UrlService.generateUniqueShortcode P attempts w
    = (result, logged l (advanced 0 r 0 0 w))
    /\ match result with
       | Ok code =>
           StorageService.in_use code w = false
           /\ exists j, (attempts + j <= 10)%nat
                /\ code = UrlService.candidate P w j /\ r = (6 * S j)%nat
       | Throw msg =>
           msg = UrlService.generation_failed /\ r = (6 * (11 - attempts))%nat
       end.
Proof. by apply (generateUniqueShortcode_outcome P (11 - attempts)). Qed.

(** Every record in the [success] of [createUrls] was created for a request
    of the batch that passed validation: it carries the trimmed URL and the
    validity of the request (30 minutes when none is given), within 1 to
    10080 minutes; it has no click; it expires exactly [validityMinutes]
    minutes after [createdAt]; its shortcode is carried by no record that
    was stored before the call, and passes [isValidShortcode] (the random
    indices being below 62). *)
Theorem createUrls_creates_fresh_records
    (P : Platform) (requests : list CreateUrlRequest) (w : World) :
  writable w = true ->
  exists response w',
    UrlService.createUrls P requests w = (Ok response, w')
    /\ Forall (fun url =>
                 exists request,
                   request ∈ requests
                   /\ validation.request_errors P request = []
                   /\ UrlService.created_for P w request url
                   /\ 1 <= validityMinutes url <= 10080
                   /\ ((forall k, (random_index P k < 62)%nat) ->
                       validation.isValidShortcode (shortcode url) = true))
         (success response).
Proof.
  intros Hw.
  destruct (createUrls_writable_detail P requests w Hw) as (s & e & w' & Hrun & _ & _ & Hs).
  eexists _, _. split; [exact Hrun|]. cbn [success].
  destruct (validated_valid P requests) as [Hsl Hok].
  eapply Forall_impl; [exact Hs|]. cbn beta.
  intros url (request & Hin & Hfor). exists request.
  rewrite Forall_forall in Hok. pose proof (Hok request Hin) as Herr.
  split; [by eapply elem_of_sublist|]. split; [done|]. split; [done|]. split.
  - destruct Hfor as (_ & -> & _).
    destruct (request_errors_nil P request Herr) as (_ & Hm & _).
    by apply validity_of_range.
  - by apply (created_shortcode_valid P w request url).
Qed.

Lemma createUrls_creates_fresh_records_witness :
  let P := sample_platform 1700000000000 (fun k => (7 * k + 3) mod 62)%nat in
  let w := world_with [sample_url "promo1" 1700000000000 30] in
  let requests := [ mkRequest " https://example.com/a " None None;
                    mkRequest "https://example.com/b" (Some 90) (Some "Spring24") ] in
  exists response w',
    UrlService.createUrls P requests w = (Ok response, w')
    /\ Forall (fun url => validation.isValidShortcode (shortcode url) = true
                          /\ StorageService.in_use (shortcode url) w = false)
         (success response)
    /\ map validityMinutes (success response) = [30; 90].
Proof.
  intros P w requests.
  destruct (createUrls_creates_fresh_records P requests w) as (response & w' & Hrun & Hall);
    [reflexivity|].
  exists response, w'. split; [exact Hrun|]. split.
  - eapply Forall_impl; [exact Hall|]. cbn beta.
    intros url (request & _ & _ & Hfor & _ & Hvalid). split.
    + apply Hvalid. intros k. change ((7 * k + 3) mod 62 < 62)%nat.
      apply Nat.mod_upper_bound. lia.
    + by destruct Hfor as (_ & _ & _ & _ & _ & Hfree & _).
  - assert (E : match (UrlService.createUrls P requests w).1 with
                | Ok r => map validityMinutes (success r)
                | Throw _ => []
                end = [30; 90]) by (vm_compute; reflexivity).
    by rewrite Hrun in E.
Defined.

(** [createUrls] writes once, after the loop: the collection that was
    stored, followed by the records it created, in the order of the
    response; when it created none it does not write at all. No shortcode
    that was in use stops being so. *)
Theorem createUrls_writes_created_records
    (P : Platform) (requests : list CreateUrlRequest) (w : World) :
  writable w = true ->
  exists response w',
    UrlService.createUrls P requests w = (Ok response, w')
    /\ urls_item w'
       = match success response with
         | [] => urls_item w
         | _ => Document (StorageService.JSON_stringify
                            (StorageService.stored_urls w ++ success response))
         end
    /\ map shortcode (StorageService.stored_urls w')
       = map shortcode (StorageService.stored_urls w)
         ++ map shortcode (success response)
    /\ (forall code, StorageService.in_use code w = true ->
                     StorageService.in_use code w' = true).
Proof.
  intros Hw.
  destruct (createUrls_writable_detail P requests w Hw)
    as (s & e & w' & Hrun & Hitem & _ & _).
  eexists _, _. split; [exact Hrun|]. cbn [success]. split; [exact Hitem|].
  assert (Hcodes : map shortcode (StorageService.stored_urls w')
                   = map shortcode (StorageService.stored_urls w) ++ map shortcode s).
  { unfold StorageService.stored_urls at 1. rewrite Hitem. destruct s as [|url s].
    - by rewrite app_nil_r.
    - by rewrite shortcode_revive_stringify, map_app. }
  split; [exact Hcodes|].
  intros code Hcode%in_use_spec. apply in_use_spec. rewrite Hcodes.
  apply elem_of_app. by left.
Qed.

Lemma createUrls_writes_created_records_witness :
  let P := sample_platform 1700000000000 (fun _ => 0%nat) in
  let w := world_with [sample_url "promo1" 1700000000000 30] in
  exists response w',
    UrlService.createUrls P
      [ mkRequest "https://example.com/a" None (Some "Spring24");
        mkRequest "not a url" None None ] w = (Ok response, w')
    /\ map shortcode (StorageService.stored_urls w') = ["promo1"; "Spring24"].
Proof.
  intros P w.
  destruct (createUrls_writes_created_records P
              [ mkRequest "https://example.com/a" None (Some "Spring24");
                mkRequest "not a url" None None ] w)
    as (response & w' & Hrun & _ & Hcodes & _); [reflexivity|].
  exists response, w'. split; [exact Hrun|]. rewrite Hcodes.
  assert (E : match (UrlService.createUrls P
                       [ mkRequest "https://example.com/a" None (Some "Spring24");
                         mkRequest "not a url" None None ] w).1 with
              | Ok r => map shortcode (success r)
              | Throw _ => []
              end = ["Spring24"]) by (vm_compute; reflexivity).
  rewrite Hrun in E. cbn in E. rewrite E. vm_compute. reflexivity.
Defined.



(** * Redirection *)

Section RedirectFacts.
Variable P : Platform.

Lemma uuidv4_run w :
  uuidv4 P w = (Ok (uuid P (uuids_taken w)), advanced 0 0 1 0 w).
Proof. reflexivity. Qed.

Lemma Date_now_run w :
  Date_now P w = (Ok (Some (clock P (dates_taken w))), advanced 1 0 0 0 w).
Proof. reflexivity. Qed.

Lemma getGeoLocation_run w :
  exists l,
    UrlService.getGeoLocation P w
    = (Ok (UrlService.geo_answer (geo P (fetches_made w))),
       logged l (advanced 0 0 0 1 w))
    /\ l = match geo P (fetches_made w) with
           | FetchFails _ => [mkLog warn "url-service" "Failed to get geolocation"]
           | _ => []
           end.
Proof.
  unfold UrlService.getGeoLocation, try_catch, bind, fetch_ipapi.
  destruct (geo P (fetches_made w)); cbn; eexists; (split; [|reflexivity]);
    same_world.
Qed.

Lemma find_first {X} (p : X -> bool) (l : list X) : forall i x,
  l !! i = Some x -> p x = true ->
  (forall j y, (j < i)%nat -> l !! j = Some y -> p y = false) ->
  List.find p l = Some x.
Proof.
  induction l as [|z l IH]; intros i x Hi Hp Hfirst; [done|].
  destruct i as [|i]; cbn in *.
  - injection Hi as ->. by rewrite Hp.
  - rewrite (Hfirst 0%nat z) by (lia || done).
    apply (IH i); [done|done|]. intros j y Hj Hy. apply (Hfirst (S j)); [lia|done].
Qed.

Lemma recordClick_found code click w i url :
  StorageService.stored_urls w !! i = Some url -> shortcode url = code ->
  (forall j url', (j < i)%nat -> StorageService.stored_urls w !! j = Some url' ->
                  shortcode url' <> code) ->
  writable w = true ->
  exists l,
    StorageService.recordClick code click w
    = (Ok tt, logged l (StorageService.saved
                          (alter (StorageService.push_click click) i
                             (StorageService.stored_urls w)) w)).
Proof.
  intros Hi Hcode Hfirst Hw. destruct (loadUrls_run w) as [l Hl].
  unfold StorageService.recordClick. rewrite (bind_ok _ _ _ _ _ Hl). unfold findIndex.
  rewrite (findIndex_from_first _ (StorageService.stored_urls w) 0 i url Hi)
    by (try (by apply String.eqb_eq);
        intros j y Hj Hy; apply String.eqb_neq; by eapply Hfirst).
  destruct (0 + Z.of_nat i =? -1) eqn:E; [apply Z.eqb_eq in E; lia|].
  replace (Z.to_nat (0 + Z.of_nat i)) with i by lia.
  rewrite (bind_ok _ _ _ _ _ (saveUrls_run _ (logged l w) Hw)).
  exists (l ++ [mkLog info "storage" "URLs saved to localStorage";
                mkLog info "analytics" "URL clicked"]).
  unfold logger_logAnalyticsEvent, logger_info, logger_Log, StorageService.saved.
  same_world.
Qed.

Lemma click_total_alter click (urls : list ShortUrl) : forall i url,
  urls !! i = Some url ->
  click_total (alter (StorageService.push_click click) i urls) = S (click_total urls).
Proof.
  unfold click_total.
  induction urls as [|z urls IH]; intros i url Hi; [done|].
  destruct i as [|i]; cbn in *.
  - rewrite length_app. cbn. lia.
  - rewrite (IH i url Hi). lia.
Qed.

Lemma findByShortcode_live code w url :
  List.find (fun u => String.eqb (shortcode u) code) (StorageService.stored_urls w)
  = Some url ->
  expiry_passed (clock P (dates_taken w)) url = false ->
  exists l,
    StorageService.findByShortcode P code w
    = (Ok (Some url), logged l (advanced 1 0 0 0 w)).
Proof.
  intros Hfind Hlive. destruct (loadUrls_run w) as [l Hl].
  unfold StorageService.findByShortcode. rewrite (bind_ok _ _ _ _ _ Hl), Hfind.
  unfold bind, Date_now. cbn [dates_taken logged].
  rewrite Date_gt_now, Hlive. exists l. same_world.
Qed.

Lemma redirectUrl_live code w i url :
  StorageService.stored_urls w !! i = Some url -> shortcode url = code ->
  (forall j url', (j < i)%nat -> StorageService.stored_urls w !! j = Some url' ->
                  shortcode url' <> code) ->
  expiry_passed (clock P (dates_taken w)) url = false ->
  writable w = true ->
  exists l,
    UrlService.redirectUrl P code w
    = (Ok (originalUrl url),
       logged l (StorageService.saved
                   (alter (StorageService.push_click (UrlService.click_of P w)) i
                      (StorageService.stored_urls w))
                   (advanced 2 0 1 1 w))).
Proof.
  intros Hi Hcode Hfirst Hlive Hw.
  assert (Hfind : List.find (fun u => String.eqb (shortcode u) code)
                    (StorageService.stored_urls w) = Some url).
  { apply (find_first _ _ i); [done | by apply String.eqb_eq |].
    intros j y Hj Hy. apply String.eqb_neq. by eapply Hfirst. }
  unfold UrlService.redirectUrl.
  unfold logger_logAnalyticsEvent at 1, logger_info at 1.
  rewrite (bind_ok _ _ _ _ _ (logger_Log_run _ _ _ w)).
  set (w0 := logged [mkLog info "analytics" "Redirect attempt"] w).
  destruct (findByShortcode_live code w0 url Hfind Hlive) as [l1 H1].
  rewrite (bind_ok _ _ _ _ _ H1).
  rewrite (bind_ok _ _ _ _ _ (uuidv4_run _)).
  rewrite (bind_ok _ _ _ _ _ (Date_now_run _)).
  match goal with
  | |- context [bind (UrlService.getGeoLocation P) _ ?w1] =>
      destruct (getGeoLocation_run w1) as (l2 & H2 & _)
  end.
  rewrite (bind_ok _ _ _ _ _ H2). cbv beta.
  match goal with
  | |- context [bind (StorageService.recordClick code ?c) _ ?w2] =>
      destruct (recordClick_found code c w2 i url Hi Hcode Hfirst Hw) as [l3 H3]
  end.
  rewrite (bind_ok _ _ _ _ _ H3).
  eexists. unfold logger_logAnalyticsEvent, logger_info, logger_Log, bind, ret,
    StorageService.saved, UrlService.click_of.
  cbn. f_equal. unfold logged, advanced. cbn. f_equal.
  rewrite <- !app_assoc. reflexivity.
Qed.

End RedirectFacts.

(** [getGeoLocation] never throws and fetches once: it answers the country
    and city of an ok response, and the empty location both when the
    response is not ok and when the fetch fails, the failure being logged
    as a warning only. *)
Theorem getGeoLocation_never_throws (P : Platform) (w : World) :
  exists g l,
    UrlService.getGeoLocation P w = (Ok g, logged l (advanced 0 0 0 1 w))
    /\ match geo P (fetches_made w) with
       | FetchOk country_name city => g = mkGeoLocation country_name city /\ l = []
       | FetchNotOk => g = mkGeoLocation None None /\ l = []
       | FetchFails _ =>
           g = mkGeoLocation None None
           /\ l = [mkLog warn "url-service" "Failed to get geolocation"]
       end.
Proof.
  destruct (getGeoLocation_run P w) as (l & Hrun & Hl).
  eexists _, l. split; [exact Hrun|]. rewrite Hl.
  by destruct (geo P (fetches_made w)).
Qed.

(** A successful redirection. For the first stored record with the code,
    its expiry not passed, over a store that can be written, [redirectUrl]
    answers the original URL of the record and stores the collection with
    exactly one click more, appended to that record: the click carries the
    identifier drawn, the time of the second reading of the clock, the
    referrer of the page ("direct" when there is none), the user agent and
    the location [getGeoLocation] answers, whatever the fetch did. *)
Theorem redirectUrl_records_one_click
    (P : Platform) (code : string) (w : World) (i : nat) (url : ShortUrl) :
  StorageService.stored_urls w !! i = Some url ->
  shortcode url = code ->
  (forall j url', (j < i)%nat -> StorageService.stored_urls w !! j = Some url' ->
                  shortcode url' <> code) ->
  expiry_passed (clock P (dates_taken w)) url = false ->
  writable w = true ->
  let click :=
    mkClickEvent (uuid P (uuids_taken w)) (Some (clock P (S (dates_taken w))))
      (if truthy (document_referrer P) then document_referrer P else "direct")
      (navigator_userAgent P) None
      (Some (match geo P (fetches_made w) with
             | FetchOk country_name city => mkGeoLocation country_name city
             | FetchFails _ | FetchNotOk => mkGeoLocation None None
             end)) in
  let clicked :=
    mkShortUrl (url_id url) (originalUrl url) (shortcode url) (createdAt url)
      (expiresAt url) (validityMinutes url) (clicks url ++ [click])
      (isCustomShortcode url) in
  exists w',
    UrlService.redirectUrl P code w = (Ok (originalUrl url), w')
    /\ urls_item w'
       = Document (StorageService.JSON_stringify
                     (<[i := clicked]> (StorageService.stored_urls w)))
    /\ click_total (StorageService.stored_urls w')
       = S (click_total (StorageService.stored_urls w))
    /\ map shortcode (StorageService.stored_urls w')
       = map shortcode (StorageService.stored_urls w).
Proof.
  intros Hi Hcode Hfirst Hlive Hw click clicked.
  destruct (redirectUrl_live P code w i url Hi Hcode Hfirst Hlive Hw) as [l Hrun].
  rewrite (alter_push_click _ _ i url Hi) in Hrun.
  change (StorageService.push_click (UrlService.click_of P w) url) with clicked in Hrun.
  eexists. split; [exact Hrun|]. split; [reflexivity|].
  change (StorageService.stored_urls (logged l ?x)) with (StorageService.stored_urls x).
  rewrite stored_urls_saved. split.
  - rewrite click_total_revive_stringify.
    apply (click_total_insert _ i url clicked Hi). cbn. rewrite length_app. cbn. lia.
  - rewrite shortcode_revive_stringify, list_fmap_insert. cbn [shortcode clicked].
    apply list_insert_id. by rewrite list_lookup_fmap, Hi.
Qed.

Lemma redirectUrl_records_one_click_witness :
  let P := mkPlatform sample_protocol (fun k => 1700000000000 + Z.of_nat k)
             (fun _ => 0%nat) (fun _ => "c11c0000")
             (fun _ => FetchFails "NetworkError") "" "Mozilla/5.0" in
  let url := sample_url "promo1" 1699999999000 30 in
  let w := world_with [sample_url "Ab3dE9" 1699999999000 30; url] in
  exists w',
    UrlService.redirectUrl P "promo1" w = (Ok "https://example.com", w')
    /\ StorageService.stored_urls w'
       = [ sample_url "Ab3dE9" 1699999999000 30;
           StorageService.push_click
             (mkClickEvent "c11c0000" (Some 1700000000001) "direct" "Mozilla/5.0" None
                (Some (mkGeoLocation None None))) url ].
Proof.
  intros P url w.
  destruct (redirectUrl_records_one_click P "promo1" w 1 url) as (w' & Hrun & Hitem & _).
  - vm_compute. reflexivity.
  - reflexivity.
  - intros j url' Hj Hurl'. destruct j as [|j]; [|lia].
    vm_compute in Hurl'. injection Hurl' as <-. discriminate.
  - vm_compute. reflexivity.
  - reflexivity.
  - exists w'. split; [exact Hrun|].
    unfold StorageService.stored_urls. rewrite Hitem. vm_compute. reflexivity.
Defined.

(** Once the expiry of the (first) record with a code has passed, strictly,
    [redirectUrl] throws the error it throws for a code no record has; in
    both cases no click is recorded and the store is left as it is. *)
Theorem redirectUrl_refuses_passed_expiry
    (P : Platform) (code unknown : string) (w : World) (i : nat) (url : ShortUrl) :
  StorageService.stored_urls w !! i = Some url ->
  shortcode url = code ->
  (forall j url', (j < i)%nat -> StorageService.stored_urls w !! j = Some url' ->
                  shortcode url' <> code) ->
  expiry_passed (clock P (dates_taken w)) url = true ->
  (forall u, u ∈ StorageService.stored_urls w -> shortcode u <> unknown) ->
  exists w1 w2,
    UrlService.redirectUrl P code w = (Throw UrlService.not_found_or_expired, w1)
    /\ UrlService.redirectUrl P unknown w = (Throw UrlService.not_found_or_expired, w2)
    /\ store_of w1 = store_of w /\ store_of w2 = store_of w.
Proof.
  intros Hi Hcode Hfirst Hpassed Hunknown.
  assert (Hfind : List.find (fun u => String.eqb (shortcode u) code)
                    (StorageService.stored_urls w) = Some url).
  { apply (find_first _ _ i); [done | by apply String.eqb_eq |].
    intros j y Hj Hy. apply String.eqb_neq. by eapply Hfirst. }
  destruct (redirectUrl_not_found P code w (lookup_expired P code w url Hfind Hpassed))
    as (w1 & H1 & Hs1).
  destruct (redirectUrl_not_found P unknown w (lookup_unknown P unknown w Hunknown))
    as (w2 & H2 & Hs2).
  by exists w1, w2.
Qed.

Lemma redirectUrl_refuses_passed_expiry_witness :
  let P := sample_platform 1700000060001 (fun _ => 0%nat) in
  let w := world_with [sample_url "promo1" 1700000000000 1] in
  exists w1 w2,
    UrlService.redirectUrl P "promo1" w = (Throw "Short URL not found or has expired", w1)
    /\ UrlService.redirectUrl P "never1" w
       = (Throw "Short URL not found or has expired", w2)
    /\ store_of w1 = store_of w.
Proof.
  intros P w.
  destruct (redirectUrl_refuses_passed_expiry P "promo1" "never1" w 0
              (sample_url "promo1" 1700000000000 1))
    as (w1 & w2 & H1 & H2 & Hs1 & _).
  - vm_compute. reflexivity.
  - reflexivity.
  - intros j url' Hj. lia.
  - vm_compute. reflexivity.
  - intros u Hu. vm_compute in Hu. apply list_elem_of_singleton in Hu as ->. discriminate.
  - exists w1, w2. split; [exact H1|]. split; [exact H2 | exact Hs1].
Defined.

(** [isValidShortcode] never throws and never writes, and its answer is
    decided by the first stored record that carries the code: [false] when
    there is none, and otherwise [true] unless the clock has passed the
    [expiresAt] of that record ([now > expiresAt]); records further on with
    the same shortcode play no part. *)
Theorem isValidShortcode_judges_first_record
    (P : Platform) (code : string) (w : World) :
  exists b w',
    UrlService.isValidShortcode P code w = (Ok b, w')
    /\ store_of w' = store_of w
    /\ ((forall url, url ∈ StorageService.stored_urls w -> shortcode url <> code) ->
        b = false)
    /\ (forall i url,
          StorageService.stored_urls w !! i = Some url -> shortcode url = code ->
          (forall j url', (j < i)%nat -> StorageService.stored_urls w !! j = Some url' ->
                          shortcode url' <> code) ->
          b = match expiresAt url with
              | Some t => negb (t <? clock P (dates_taken w))
              | None => true
              end).
Proof.
  destruct (findByShortcode_run P code w) as (w' & Hrun & Hst & _).
  unfold UrlService.isValidShortcode. rewrite (bind_ok _ _ _ _ _ Hrun).
  eexists _, _. split; [reflexivity|]. split; [exact Hst|]. split.
  - intros Hnone. by rewrite (lookup_unknown P code w Hnone).
  - intros i url Hi Hcode Hfirst. unfold StorageService.lookup.
    rewrite (find_first _ _ i url Hi)
      by (try (by apply String.eqb_eq);
          intros j y Hj Hy; apply String.eqb_neq; by eapply Hfirst).
    unfold Date_gt. destruct (expiresAt url) as [t|]; [|done].
    by destruct (t <? clock P (dates_taken w)).
Qed.

Lemma isValidShortcode_judges_first_record_witness :
  let P := sample_platform 1700000060001 (fun _ => 0%nat) in
  let w := world_with [sample_url "Ab3dE9" 1700000000000 30;
                       sample_url "promo1" 1700000000000 1;
                       sample_url "promo1" 1700000000000 30] in
  exists w', UrlService.isValidShortcode P "promo1" w = (Ok false, w').
Proof.
  intros P w.
  destruct (isValidShortcode_judges_first_record P "promo1" w)
    as (b & w' & Hrun & _ & _ & Hfirst).
  exists w'. rewrite Hrun. do 2 f_equal.
  rewrite (Hfirst 1%nat (sample_url "promo1" 1700000000000 1)).
  - vm_compute. reflexivity.
  - vm_compute. reflexivity.
  - reflexivity.
  - intros j url' Hj Hurl'. destruct j as [|j]; [|lia].
    vm_compute in Hurl'. injection Hurl' as <-. discriminate.
Defined.

(** * Pages *)

Section SortFacts.
Context {A : Type} (comparefn : A -> A -> option Z).

Lemma sort_insert_Permutation x l : sort_insert comparefn x l ≡ₚ x :: l.
Proof.
  induction l as [|y l IH]; [done|]. cbn.
  destruct (SortCompare comparefn x y <=? 0); [done|].
  rewrite IH. apply Permutation_swap.
Qed.

Lemma sort_Permutation l : sort comparefn l ≡ₚ l.
Proof.
  induction l as [|x l IH]; [done|]. cbn.
  by rewrite sort_insert_Permutation, IH.
Qed.

(** For a relation [R] that the comparator decides on the elements at hand
    and that is transitive and total there, the sort puts them in order. *)
Lemma sort_insert_StronglySorted (R : A -> A -> Prop) (ok : A -> Prop) x l :
  (forall a b, ok a -> ok b -> ((SortCompare comparefn a b <=? 0) = true <-> R a b)) ->
  (forall a b, ok a -> ok b -> R a b \/ R b a) ->
  (forall a b c, ok a -> ok b -> ok c -> R a b -> R b c -> R a c) ->
  ok x -> Forall ok l -> StronglySorted R l ->
  StronglySorted R (sort_insert comparefn x l).
Proof.
  intros Hdec Htotal Htrans Hx Hl Hsorted.
  induction Hsorted as [|y l Hsorted IH Hy]; cbn.
  - by repeat constructor.
  - apply Forall_cons in Hl as [Hoky Hl].
    destruct (SortCompare comparefn x y <=? 0) eqn:E.
    + apply Hdec in E; [|done|done]. constructor; [by constructor|].
      constructor; [done|].
      rewrite Forall_forall in Hy, Hl. apply Forall_forall. intros z Hz.
      apply (Htrans x y z); auto.
    + constructor; [by apply IH|].
      assert (Hyx : R y x).
      { destruct (Htotal x y Hx Hoky) as [Hxy|]; [|done].
        apply Hdec in Hxy; [congruence|done|done]. }
      rewrite (sort_insert_Permutation x l). by constructor.
Qed.

Lemma sort_StronglySorted (R : A -> A -> Prop) (ok : A -> Prop) l :
  (forall a b, ok a -> ok b -> ((SortCompare comparefn a b <=? 0) = true <-> R a b)) ->
  (forall a b, ok a -> ok b -> R a b \/ R b a) ->
  (forall a b c, ok a -> ok b -> ok c -> R a b -> R b c -> R a c) ->
  Forall ok l -> StronglySorted R (sort comparefn l).
Proof.
  intros Hdec Htotal Htrans Hl.
  induction l as [|x l IH]; [constructor|].
  change (sort comparefn (x :: l)) with (sort_insert comparefn x (sort comparefn l)).
  apply Forall_cons in Hl as [Hx Hl].
  apply (sort_insert_StronglySorted R ok); try done; [|by apply IH].
  by rewrite sort_Permutation.
Qed.

(** A window that starts inside or after the array and has a length. *)
Lemma slice_window (l : list A) (start count : Z) :
  0 <= start -> 0 <= count ->
  slice l start (start + count) = take (Z.to_nat count) (drop (Z.to_nat start) l).
Proof.
  intros Hs Hc. unfold slice.
  destruct (start <? 0) eqn:E1; [apply Z.ltb_lt in E1; lia|].
  destruct (start + count <? 0) eqn:E2; [apply Z.ltb_lt in E2; lia|].
  destruct (decide (Z.of_nat (length l) <= start)) as [Hout|Hin].
  - rewrite !drop_ge by lia. by rewrite !take_nil.
  - replace (Z.to_nat (Z.min start (Z.of_nat (length l)))) with (Z.to_nat start) by lia.
    destruct (decide (start + count <= Z.of_nat (length l))) as [Hfit|Hover].
    + f_equal. lia.
    + rewrite !take_ge; [done| |]; rewrite length_drop; lia.
Qed.

End SortFacts.

Section PageFacts.

Lemma getUrlsPaginated_run page limit w :
  exists l,
    StorageService.getUrlsPaginated page limit w
    = (Ok (let allUrls := sort StorageService.newest_first (StorageService.stored_urls w) in
           StorageService.mkPage (slice allUrls (page * limit) (page * limit + limit))
             (length allUrls)
             (page * limit + limit <? Z.of_nat (length allUrls))),
       logged l w).
Proof.
  destruct (loadUrls_run w) as [l Hl].
  unfold StorageService.getUrlsPaginated. rewrite (bind_ok _ _ _ _ _ Hl).
  by exists l.
Qed.

Lemma newest_first_sorted (urls : list ShortUrl) :
  Forall (fun url => is_Some (createdAt url)) urls ->
  StronglySorted not_older (sort StorageService.newest_first urls).
Proof.
  apply (sort_StronglySorted StorageService.newest_first not_older
           (fun url => is_Some (createdAt url))).
  - intros a b [ta Ha] [tb Hb].
    unfold SortCompare, StorageService.newest_first, not_older. rewrite Ha, Hb.
    split.
    + intros H%Z.leb_le. exists ta, tb. repeat split; try done. lia.
    + intros (ta' & tb' & [= <-] & [= <-] & H). apply Z.leb_le. lia.
  - intros a b [ta Ha] [tb Hb]. unfold not_older.
    destruct (decide (tb <= ta)); [left|right]; eexists _, _; repeat split; eauto; lia.
  - intros a b c _ _ _ (ta & tb & Ha & Hb & Hab) (tb' & tc & Hb' & Hc & Hbc).
    exists ta, tc. repeat split; try done. rewrite Hb in Hb'. injection Hb' as <-. lia.
Qed.

Lemma StronglySorted_take_drop {X} (R : X -> X -> Prop) (l : list X) n m :
  StronglySorted R l -> StronglySorted R (take n (drop m l)).
Proof.
  intros H. revert n m.
  induction H as [|x l Hl IH Hx]; intros n m.
  - rewrite drop_nil, take_nil. constructor.
  - destruct m as [|m]; [|apply IH].
    destruct n as [|n]; cbn; [constructor|].
    constructor; [apply (IH n 0%nat)|].
    rewrite Forall_forall in Hx. apply Forall_forall. intros y Hy.
    apply Hx. eapply elem_of_sublist; [exact Hy | apply sublist_take].
Qed.

End PageFacts.

(** [getUrlsPaginated(page, limit)] for a page and a limit that are not
    negative: it never throws and never writes; [total] is the number of
    stored records; [urls] is the window of at most [limit] records that
    starts at position [page * limit] of the stored collection sorted by
    [createdAt], newest first (the records being created at valid dates);
    [hasMore] says whether records are left after the window, in which case
    the page is full. The service-level function answers the same page. *)
Theorem getUrlsPaginated_window (page limit : Z) (w : World) :
  0 <= page -> 0 <= limit ->
  let stored := StorageService.stored_urls w in
  let sorted := sort StorageService.newest_first stored in
  exists result l l',
    StorageService.getUrlsPaginated page limit w = (Ok result, logged l w)
    /\ UrlService.getUrlsPaginated page limit w = (Ok result, logged l' w)
    /\ StorageService.total result = length stored
    /\ sorted ≡ₚ stored
    /\ (Forall (fun url => is_Some (createdAt url)) stored ->
        StronglySorted not_older sorted)
    /\ StorageService.urls result
       = take (Z.to_nat limit) (drop (Z.to_nat (page * limit)) sorted)
    /\ (length (StorageService.urls result) <= Z.to_nat limit)%nat
    /\ (StorageService.hasMore result = true
        <-> page * limit + limit < Z.of_nat (length stored))
    /\ (StorageService.hasMore result = true ->
        length (StorageService.urls result) = Z.to_nat limit).
Proof.
  intros Hpage Hlimit stored sorted.
  destruct (getUrlsPaginated_run page limit w) as [l Hl].
  assert (Hlen : length sorted = length stored)
    by (unfold sorted; by rewrite sort_Permutation).
  eexists _, l, (l ++ [mkLog info "url-service" "Retrieved paginated URLs"]).
  split; [exact Hl|]. split.
  { unfold UrlService.getUrlsPaginated. rewrite (bind_ok _ _ _ _ _ Hl).
    unfold logger_info, logger_Log, bind, ret. same_world. }
  cbv zeta. cbn [StorageService.total StorageService.urls StorageService.hasMore].
  fold stored sorted. rewrite Hlen.
  rewrite (slice_window sorted (page * limit) limit) by lia.
  split; [done|]. split; [apply sort_Permutation|].
  split; [apply newest_first_sorted|]. split; [done|].
  split; [rewrite length_take; lia|]. split; [apply Z.ltb_lt|].
  intros Hmore%Z.ltb_lt. rewrite length_take, length_drop, Hlen. lia.
Qed.

Lemma getUrlsPaginated_window_witness :
  let w := world_with [ sample_url "first1" 1700000000000 30;
                        sample_url "third3" 1700000200000 30;
                        sample_url "second" 1700000100000 30 ] in
  exists result l,
    StorageService.getUrlsPaginated 0 2 w = (Ok result, logged l w)
    /\ map shortcode (StorageService.urls result) = ["third3"; "second"]
    /\ StorageService.total result = 3%nat
    /\ StorageService.hasMore result = true.
Proof.
  intros w.
  destruct (getUrlsPaginated_window 0 2 w) as (result & l & _ & Hrun & _ & Htotal & _ & _
                                               & Hurls & _ & Hmore & _); [lia|lia|].
  exists result, l. split; [exact Hrun|]. split; [|split].
  - rewrite Hurls. vm_compute. reflexivity.
  - rewrite Htotal. vm_compute. reflexivity.
  - apply Hmore. vm_compute. reflexivity.
Defined.

(** The pages tile the sorted collection: for a positive limit, the pages
    0, 1, ..., n - 1 one after the other are its first [n * limit] records,
    with no record left out or given twice; with [n * limit] at least the
    number of stored records they are the whole collection. *)
Theorem getUrlsPaginated_pages_tile (limit : Z) (n : nat) (w : World) :
  0 < limit ->
  let sorted := sort StorageService.newest_first (StorageService.stored_urls w) in
  let page k :=
    match (StorageService.getUrlsPaginated (Z.of_nat k) limit w).1 with
    | Ok result => StorageService.urls result
    | Throw _ => []
    end in
  concat (map page (seq 0 n)) = take (n * Z.to_nat limit) sorted
  /\ ((length sorted <= n * Z.to_nat limit)%nat -> concat (map page (seq 0 n)) = sorted).
Proof.
  intros Hlimit sorted page.
  assert (Hpage : forall k,
            page k = take (Z.to_nat limit) (drop (k * Z.to_nat limit) sorted)).
  { intros k. unfold page.
    destruct (getUrlsPaginated_run (Z.of_nat k) limit w) as [l ->].
    cbn [fst StorageService.urls]. fold sorted.
    rewrite slice_window by lia. do 2 f_equal. lia. }
  assert (Htile : concat (map page (seq 0 n)) = take (n * Z.to_nat limit) sorted).
  { induction n as [|n IH]; [done|].
    rewrite seq_S, map_app, concat_app, IH. cbn [map concat Nat.add].
    rewrite app_nil_r, Hpage, take_take_drop. f_equal. lia. }
  split; [exact Htile|]. intros Hall. rewrite Htile. by apply take_ge.
Qed.

Lemma getUrlsPaginated_pages_tile_witness :
  let w := world_with [ sample_url "first1" 1700000000000 30;
                        sample_url "third3" 1700000200000 30;
                        sample_url "second" 1700000100000 30 ] in
  map shortcode
    (concat (map (fun k =>
                    match (StorageService.getUrlsPaginated (Z.of_nat k) 2 w).1 with
                    | Ok result => StorageService.urls result
                    | Throw _ => []
                    end) (seq 0 2)))
  = ["third3"; "second"; "first1"].
Proof.
  intros w.
  destruct (getUrlsPaginated_pages_tile 2 2 w) as [-> _]; [lia|].
  vm_compute. reflexivity.
Defined.
